(** * african-payment-hub: the Paytech adapter, embedded and verified

    A shallow embedding of the Paytech provider of the payment hub
    ([src/providers/paytech]): the mappers between the unified model and
    the provider's wire format, the webhook validator with its signature
    check, and the gateway adapter's three mutating operations.

    Layout: the JavaScript values the code handles, the unified and wire
    types, the functions of [mappers.ts], [utils.ts], [webhooks.ts] and
    [PaytechGateway.ts], the facade of [index.ts], and then the
    theorems. *)

From Stdlib Require Import ZArith List String Ascii Bool Lia.
From Stdlib Require Import DecimalString DecimalN DecimalPos.
From Stdlib Require DecimalZ DecimalFacts.
From Stdlib Require Import Sorting.Mergesort Sorting.Sorted Permutation Orders.
From Stdlib Require Import OrderedTypeEx.
Import ListNotations.

Local Open Scope list_scope.
Local Open Scope string_scope.

(* ================================================================== *)
(** * JavaScript values *)
(* ================================================================== *)

(** Numbers.  Amounts are counts of the smallest currency unit and the
    provider's flags are 0 or 1, so the model keeps the integer-valued
    numbers and [NaN] (what [parseFloat] answers on text that is not a
    number); fractions, infinities and the negative zero are outside it. *)
Inductive number : Type :=
| NaN
| Num (z : Z).

(** [ToBoolean] on a number: zero and [NaN] are falsy. *)
Definition number_truthy (n : number) : bool :=
  match n with
  | NaN => false
  | Num z => negb (z =? 0)%Z
  end.

(** [a > b]: every comparison with [NaN] is false. *)
Definition number_gt (a b : number) : bool :=
  match a, b with
  | Num x, Num y => (y <? x)%Z
  | _, _ => false
  end.

(** [Number.prototype.toString] on the integers it writes out in full:
    the decimal digits, a minus sign before a negative value.  It is what
    the code prints of an index, of the clock and of a draw below a
    million.  Where the code prints a number of any size (an amount, a
    value of a webhook payload), the function that prints it is a
    parameter, [Number_toString]. *)
Definition number_toString (n : number) : string :=
  match n with
  | NaN => "NaN"
  | Num z => NilZero.string_of_int (Z.to_int z)
  end.

(** [ToBoolean] on a string: only the empty string is falsy. *)
Definition string_truthy (s : string) : bool :=
  negb (s =? "").

(** [ToBoolean] on an optional string ([undefined] when absent). *)
Definition opt_truthy (o : option string) : bool :=
  match o with
  | Some s => string_truthy s
  | None => false
  end.

(** [a || b] on optional strings. *)
Definition opt_or (a b : option string) : option string :=
  if opt_truthy a then a else b.

(** [a || "literal"]: the fallback when [a] is falsy. *)
Definition opt_or_default (a : option string) (d : string) : string :=
  match a with
  | Some s => if string_truthy s then s else d
  | None => d
  end.

Definition is_upper (c : ascii) : bool :=
  ((65 <=? nat_of_ascii c) && (nat_of_ascii c <=? 90))%nat.

Definition lower_char (c : ascii) : ascii :=
  if is_upper c then ascii_of_nat (nat_of_ascii c + 32) else c.

(** [String.prototype.toLowerCase] on the code units the model has. *)
Fixpoint toLowerCase (s : string) : string :=
  match s with
  | EmptyString => EmptyString
  | String c r => String (lower_char c) (toLowerCase r)
  end.

Definition is_lower (c : ascii) : bool :=
  ((97 <=? nat_of_ascii c) && (nat_of_ascii c <=? 122))%nat.

Definition upper_char (c : ascii) : ascii :=
  if is_lower c then ascii_of_nat (nat_of_ascii c - 32) else c.

(** [String.prototype.toUpperCase], likewise. *)
Fixpoint toUpperCase (s : string) : string :=
  match s with
  | EmptyString => EmptyString
  | String c r => String (upper_char c) (toUpperCase r)
  end.

(** Values of type [any] / [unknown].  An object is the list of its own
    enumerable properties in enumeration order. *)
#[local] Unset Elimination Schemes.
Inductive JsValue : Type :=
| VUndefined
| VNull
| VBool (b : bool)
| VNum (n : number)
| VStr (s : string)
| VArr (items : list JsValue)
| VObj (props : list (string * JsValue)).
#[local] Set Elimination Schemes.

(** [ToBoolean]. *)
Definition truthy (v : JsValue) : bool :=
  match v with
  | VUndefined | VNull => false
  | VBool b => b
  | VNum n => number_truthy n
  | VStr s => string_truthy s
  | VArr _ | VObj _ => true
  end.

Fixpoint assoc {A : Type} (k : string) (l : list (string * A)) : option A :=
  match l with
  | [] => None
  | (k', v) :: r => if k' =? k then Some v else assoc k r
  end.

(** The item whose index prints as [k], counting from [i]. *)
Fixpoint at_index {A : Type} (k : string) (i : nat) (l : list A) : option A :=
  match l with
  | [] => None
  | x :: r =>
      if number_toString (Num (Z.of_nat i)) =? k then Some x
      else at_index k (S i) r
  end.

(** [v[k]] on a truthy value, for a name [k] that no prototype defines:
    an own property of an object, an item or the length of an array, a
    character or the length of a string, and [undefined] otherwise. *)
Definition js_get (v : JsValue) (k : string) : JsValue :=
  match v with
  | VObj props =>
      match assoc k props with
      | Some x => x
      | None => VUndefined
      end
  | VArr items =>
      if k =? "length" then VNum (Num (Z.of_nat (List.length items)))
      else match at_index k 0 items with
           | Some x => x
           | None => VUndefined
           end
  | VStr s =>
      if k =? "length" then VNum (Num (Z.of_nat (String.length s)))
      else match at_index k 0 (list_ascii_of_string s) with
           | Some c => VStr (String c EmptyString)
           | None => VUndefined
           end
  | _ => VUndefined
  end.

(** [Object.keys]. *)
Definition Object_keys (v : JsValue) : list string :=
  match v with
  | VObj props => map fst props
  | VArr items =>
      map (fun i => number_toString (Num (Z.of_nat i))) (seq 0 (List.length items))
  | VStr s =>
      map (fun i => number_toString (Num (Z.of_nat i))) (seq 0 (String.length s))
  | _ => []
  end.

Fixpoint join (sep : string) (l : list string) : string :=
  match l with
  | [] => ""
  | [x] => x
  | x :: r => x ++ sep ++ join sep r
  end.

(** How a call completes: it returns a value, or it throws an [Error]
    with the message given. *)
Inductive Completion (A : Type) : Type :=
| Returns (value : A)
| Throws (error : string).

Arguments Returns {A} value.
Arguments Throws {A} error.

(** [Array.prototype.map] with a function that may throw: the results
    in order, or what the first call that throws throws. *)
Fixpoint map_throwing {A B : Type} (f : A -> Completion B) (l : list A)
    : Completion (list B) :=
  match l with
  | [] => Returns []
  | x :: r =>
      match f x with
      | Throws error => Throws error
      | Returns y =>
          match map_throwing f r with
          | Throws error => Throws error
          | Returns ys => Returns (y :: ys)
          end
      end
  end.

(** The message of the [TypeError] that [ToString] throws on an object
    it finds no string for. *)
Definition cannot_convert : string :=
  "Cannot convert object to primitive value".

Section ToString.

(** [Number.prototype.toString], whatever it prints. *)
Variable Number_toString : number -> string.

(** [ToString], as a template literal applies it.  An array joins its
    items with commas ([null] and [undefined] items print as nothing).
    An object with no property of its own named [toString] prints as
    [[object Object]]; one that owns such a property owns one that is no
    function (the values here hold none), so [ToString] finds neither it
    nor [valueOf] of use and throws a [TypeError].  What printing an item
    throws, printing the array throws. *)
Fixpoint js_toString (v : JsValue) : Completion string :=
  match v with
  | VUndefined => Returns "undefined"
  | VNull => Returns "null"
  | VBool true => Returns "true"
  | VBool false => Returns "false"
  | VNum n => Returns (Number_toString n)
  | VStr s => Returns s
  | VArr items =>
      match
        map_throwing (fun x =>
                        match x with
                        | VUndefined | VNull => Returns ""
                        | _ => js_toString x
                        end) items
      with
      | Throws error => Throws error
      | Returns texts => Returns (join "," texts)
      end
  | VObj props =>
      match assoc "toString" props with
      | Some _ => Throws cannot_convert
      | None => Returns "[object Object]"
      end
  end.

End ToString.

(** [new Date()] reads the clock, [new Date(text)] parses a date. *)
Inductive JsDate : Type :=
| DateNow (clock : Z)
| DateParse (text : string).

(* ================================================================== *)
(** * A model of [JSON.stringify] and [JSON.parse] *)
(* ================================================================== *)

(** The two built-ins on the values above, after ECMA-262 (sections
    SerializeJSONProperty, QuoteJSONString and JSON.parse).  Strings hold
    code units below 256; a number is an integer.

    The model serves the closed examples only.  The provider's functions
    take [JSON.stringify] and [JSON.parse] as parameters, and what is
    proved of them holds for every such pair.  The reader is partial: it
    refuses a text with a fraction, an exponent or an escape above
    [\u00ff], which [JSON.parse] reads, and it keeps an integer beyond
    2^53 exact, which [JSON.parse] rounds.  No example holds such a
    text. *)

Definition dquote : ascii := Eval cbv in ascii_of_nat 34.
Definition backslash : ascii := Eval cbv in ascii_of_nat 92.

Definition hex_digit (n : nat) : ascii :=
  if (n <? 10)%nat then ascii_of_nat (48 + n) else ascii_of_nat (87 + n).

(** QuoteJSONString on one code unit. *)
Definition escape_char (c : ascii) : string :=
  let n := nat_of_ascii c in
  if (n =? 8)%nat then String backslash "b"
  else if (n =? 9)%nat then String backslash "t"
  else if (n =? 10)%nat then String backslash "n"
  else if (n =? 12)%nat then String backslash "f"
  else if (n =? 13)%nat then String backslash "r"
  else if (n =? 34)%nat then String backslash (String dquote "")
  else if (n =? 92)%nat then String backslash (String backslash "")
  else if (n <? 32)%nat then
    String backslash
      (String "u" (String "0" (String "0"
         (String (hex_digit (n / 16)) (String (hex_digit (n mod 16)) "")))))
  else String c "".

Fixpoint escape_chars (s : string) : string :=
  match s with
  | EmptyString => EmptyString
  | String c r => escape_char c ++ escape_chars r
  end.

Definition QuoteJSONString (s : string) : string :=
  String dquote (escape_chars s ++ String dquote "").

(** SerializeJSONProperty: [None] is [undefined], the answer for a value
    JSON has no text for.  Such a property of an object is left out, such
    an item of an array prints as [null], and so does [NaN]. *)
Fixpoint JSON_serialize (v : JsValue) : option string :=
  match v with
  | VUndefined => None
  | VNull => Some "null"
  | VBool true => Some "true"
  | VBool false => Some "false"
  | VNum NaN => Some "null"
  | VNum (Num z) => Some (number_toString (Num z))
  | VStr s => Some (QuoteJSONString s)
  | VArr items =>
      Some ("[" ++ join ","
                    (map (fun x =>
                            match JSON_serialize x with
                            | Some t => t
                            | None => "null"
                            end) items)
                ++ "]")
  | VObj props =>
      Some ("{" ++ join ","
                    (flat_map (fun kv =>
                                 match JSON_serialize (snd kv) with
                                 | Some t => [QuoteJSONString (fst kv) ++ ":" ++ t]
                                 | None => []
                                 end) props)
                ++ "}")
  end.

(** [JSON.stringify(value)] with no replacer and no indentation.  The
    values of the model hold neither a BigInt nor a cycle, on which
    [JSON.stringify] throws, so the model always returns. *)
Definition JSON_stringify_model (v : JsValue) : Completion (option string) :=
  Returns (JSON_serialize v).

(** An array index: the canonical numeral of an integer below 2^32 - 1.
    An object enumerates such keys first, in ascending order. *)
Definition array_index (k : string) : option N :=
  match NilZero.uint_of_string k with
  | Some d =>
      let i := N.of_uint d in
      if (NilZero.string_of_uint (N.to_uint i) =? k) && (i <? 4294967295)%N
      then Some i
      else None
  | None => None
  end.

(** The property [k] put among index keys in ascending order. *)
Fixpoint insert_index (i : N) (k : string) (v : JsValue)
    (props : list (string * JsValue)) : list (string * JsValue) :=
  match props with
  | [] => [(k, v)]
  | (k', v') :: r =>
      if k' =? k then (k, v) :: r
      else match array_index k' with
           | Some j =>
               if (i <? j)%N then (k, v) :: props
               else (k', v') :: insert_index i k v r
           | None => (k, v) :: props
           end
  end.

(** The property [k] replaced where it stands, or added at the end. *)
Fixpoint upsert (k : string) (v : JsValue)
    (props : list (string * JsValue)) : list (string * JsValue) :=
  match props with
  | [] => [(k, v)]
  | (k', v') :: r =>
      if k' =? k then (k, v) :: r else (k', v') :: upsert k v r
  end.

(** CreateDataProperty on an ordinary object. *)
Definition set_prop (k : string) (v : JsValue)
    (props : list (string * JsValue)) : list (string * JsValue) :=
  match array_index k with
  | Some i => insert_index i k v props
  | None => upsert k v props
  end.

Definition is_ws (c : ascii) : bool :=
  let n := nat_of_ascii c in
  (n =? 32)%nat || (n =? 9)%nat || (n =? 10)%nat || (n =? 13)%nat.

Fixpoint skip_ws (s : string) : string :=
  match s with
  | EmptyString => EmptyString
  | String c r => if is_ws c then skip_ws r else s
  end.

Definition is_digit (c : ascii) : bool :=
  ((48 <=? nat_of_ascii c) && (nat_of_ascii c <=? 57))%nat.

Definition hex_value (c : ascii) : option nat :=
  let n := nat_of_ascii c in
  if ((48 <=? n) && (n <=? 57))%nat then Some (n - 48)
  else if ((97 <=? n) && (n <=? 102))%nat then Some (n - 87)
  else if ((65 <=? n) && (n <=? 70))%nat then Some (n - 55)
  else None.

Definition hex4 (a b c d : ascii) : option nat :=
  match hex_value a, hex_value b, hex_value c, hex_value d with
  | Some x, Some y, Some z, Some w => Some (((x * 16 + y) * 16 + z) * 16 + w)
  | _, _, _, _ => None
  end.

(** The character a one-letter escape stands for. *)
Definition unescape (e : ascii) : option ascii :=
  let n := nat_of_ascii e in
  if (n =? 34)%nat then Some dquote
  else if (n =? 92)%nat then Some backslash
  else if (n =? 47)%nat then Some "/"%char
  else if (n =? 98)%nat then Some (ascii_of_nat 8)
  else if (n =? 102)%nat then Some (ascii_of_nat 12)
  else if (n =? 110)%nat then Some (ascii_of_nat 10)
  else if (n =? 114)%nat then Some (ascii_of_nat 13)
  else if (n =? 116)%nat then Some (ascii_of_nat 9)
  else None.

Definition cons_char (c : ascii) (r : option (string * string))
    : option (string * string) :=
  match r with
  | Some (s, rest) => Some (String c s, rest)
  | None => None
  end.

(** The characters of a string literal after its opening quote, up to
    the closing one.  A [\u] escape of a code unit from 256 on is outside
    the model and refused. *)
Fixpoint parse_chars (s : string) : option (string * string) :=
  match s with
  | EmptyString => None
  | String c r =>
      if (c =? dquote)%char then Some (EmptyString, r)
      else if (c =? backslash)%char then
        match r with
        | String e r1 =>
            if (e =? "u")%char then
              match r1 with
              | String h1 (String h2 (String h3 (String h4 r2))) =>
                  match hex4 h1 h2 h3 h4 with
                  | Some code =>
                      if (code <? 256)%nat
                      then cons_char (ascii_of_nat code) (parse_chars r2)
                      else None
                  | None => None
                  end
              | _ => None
              end
            else
              match unescape e with
              | Some x => cons_char x (parse_chars r1)
              | None => None
              end
        | EmptyString => None
        end
      else if (nat_of_ascii c <? 32)%nat then None
      else cons_char c (parse_chars r)
  end.

Fixpoint span_digits (s : string) : string * string :=
  match s with
  | EmptyString => (EmptyString, EmptyString)
  | String c r =>
      if is_digit c then
        let (ds, rest) := span_digits r in (String c ds, rest)
      else (EmptyString, s)
  end.

(** A numeral without a sign: digits with no leading zero, that is, the
    canonical numeral of their value.  A fraction or an exponent denotes
    a number outside the model and is refused. *)
Definition parse_digits (s : string) : option (N * string) :=
  let (ds, rest) := span_digits s in
  match NilZero.uint_of_string ds with
  | Some d =>
      let n := N.of_uint d in
      if NilZero.string_of_uint (N.to_uint n) =? ds then
        match rest with
        | String c _ =>
            if (c =? ".")%char || (c =? "e")%char || (c =? "E")%char
            then None
            else Some (n, rest)
        | EmptyString => Some (n, rest)
        end
      else None
  | None => None
  end.

Definition parse_number (s : string) : option (JsValue * string) :=
  match s with
  | String c r =>
      if (c =? "-")%char then
        match parse_digits r with
        | Some (n, rest) => Some (VNum (Num (- Z.of_N n)), rest)
        | None => None
        end
      else
        match parse_digits s with
        | Some (n, rest) => Some (VNum (Num (Z.of_N n)), rest)
        | None => None
        end
  | EmptyString => None
  end.

(** [s] without the prefix [w], when it starts with it. *)
Fixpoint strip_prefix (w s : string) : option string :=
  match w, s with
  | EmptyString, _ => Some s
  | String a w', String b s' => if (a =? b)%char then strip_prefix w' s' else None
  | String _ _, EmptyString => None
  end.

(** Recursive descent, one unit of [fuel] for each value, item and
    member entered. *)
Fixpoint parse_value (fuel : nat) (s : string) {struct fuel}
    : option (JsValue * string) :=
  match fuel with
  | O => None
  | S fuel' =>
      match skip_ws s with
      | EmptyString => None
      | String c r =>
          if (c =? "{")%char then
            match skip_ws r with
            | EmptyString => None
            | String c2 r2 =>
                if (c2 =? "}")%char then Some (VObj [], r2)
                else parse_members fuel' [] r
            end
          else if (c =? "[")%char then
            match skip_ws r with
            | EmptyString => None
            | String c2 r2 =>
                if (c2 =? "]")%char then Some (VArr [], r2)
                else parse_elements fuel' [] r
            end
          else if (c =? dquote)%char then
            match parse_chars r with
            | Some (str, rest) => Some (VStr str, rest)
            | None => None
            end
          else if (c =? "t")%char then
            option_map (pair (VBool true)) (strip_prefix "rue" r)
          else if (c =? "f")%char then
            option_map (pair (VBool false)) (strip_prefix "alse" r)
          else if (c =? "n")%char then
            option_map (pair VNull) (strip_prefix "ull" r)
          else parse_number (String c r)
      end
  end

with parse_elements (fuel : nat) (acc : list JsValue) (s : string)
    {struct fuel} : option (JsValue * string) :=
  match fuel with
  | O => None
  | S fuel' =>
      match parse_value fuel' s with
      | Some (v, r) =>
          match skip_ws r with
          | EmptyString => None
          | String c r' =>
              if (c =? ",")%char then parse_elements fuel' (acc ++ [v])%list r'
              else if (c =? "]")%char then Some (VArr (acc ++ [v])%list, r')
              else None
          end
      | None => None
      end
  end

with parse_members (fuel : nat) (acc : list (string * JsValue)) (s : string)
    {struct fuel} : option (JsValue * string) :=
  match fuel with
  | O => None
  | S fuel' =>
      match skip_ws s with
      | EmptyString => None
      | String c r =>
          if (c =? dquote)%char then
            match parse_chars r with
            | Some (k, r1) =>
                match skip_ws r1 with
                | EmptyString => None
                | String c1 r2 =>
                    if (c1 =? ":")%char then
                      match parse_value fuel' r2 with
                      | Some (v, r3) =>
                          match skip_ws r3 with
                          | EmptyString => None
                          | String c3 r4 =>
                              if (c3 =? ",")%char
                              then parse_members fuel' (set_prop k v acc) r4
                              else if (c3 =? "}")%char
                              then Some (VObj (set_prop k v acc), r4)
                              else None
                          end
                      | None => None
                      end
                    else None
                end
            | None => None
            end
          else None
      end
  end.

(** [JSON.parse(text)]: [None] where it throws a [SyntaxError]. *)
Definition JSON_parse_model (text : string) : option JsValue :=
  match parse_value (S (String.length text)) text with
  | Some (v, rest) =>
      match skip_ws rest with
      | EmptyString => Some v
      | String _ _ => None
      end
  | None => None
  end.

(* ================================================================== *)
(** * The unified model ([src/types]) *)
(* ================================================================== *)

Inductive TransactionStatus : Type :=
| PENDING
| COMPLETED
| FAILED
| CANCELED
| REFUNDED
| PARTIALLY_REFUNDED.

Inductive WebhookEventType : Type :=
| PAYMENT_SUCCESS
| PAYMENT_FAILED
| PAYMENT_PENDING
| REFUND_SUCCESS
| REFUND_FAILED
| SUBSCRIPTION_CREATED
| SUBSCRIPTION_CANCELED
| SUBSCRIPTION_PAYMENT
| SUBSCRIPTION_FAILED.

Inductive Environment : Type :=
| env_test
| env_production.

Record PaymentRequest : Type := mkPaymentRequest {
  amount : number;
  currency : string;
  reference : string;
  description : string;
  customerEmail : option string;
  customerName : option string;
  customerPhone : option string;
  metadata : option (list (string * JsValue));
  returnUrl : option string;
  cancelUrl : option string;
  webhookUrl : option string
}.

Record PaymentResponse : Type := mkPaymentResponse {
  pr_success : bool;
  pr_redirectUrl : option string;
  pr_paymentId : option string;
  pr_token : option string;
  pr_message : option string;
  pr_status : option TransactionStatus;
  pr_createdAt : option JsDate
}.

Record RefundResponse : Type := mkRefundResponse {
  rr_success : bool;
  rr_refundId : option string;
  rr_amount : option number;
  rr_message : option string;
  rr_status : option TransactionStatus;
  rr_createdAt : option JsDate
}.

Record WebhookValidationResult : Type := mkValidation {
  isValid : bool;
  reason : option string
}.

Record WebhookEventData : Type := mkEventData {
  ev_reference : string;
  ev_paymentId : option string;
  ev_amount : option number;
  ev_currency : option string;
  ev_status : TransactionStatus;
  ev_gatewayReference : option string;
  ev_metadata : JsValue;
  ev_customerEmail : option string;
  ev_customerName : option string;
  ev_customerPhone : option string
}.

Record WebhookEvent : Type := mkWebhookEvent {
  ev_type : WebhookEventType;
  ev_data : WebhookEventData;
  ev_createdAt : JsDate;
  ev_gatewayName : string
}.

Record GatewayConfig : Type := mkGatewayConfig {
  gc_apiKey : string;
  gc_apiSecret : string;
  gc_environment : Environment;
  gc_webhookSecret : option string;
  gc_additionalConfig : option (list (string * JsValue))
}.

(* ================================================================== *)
(** * The provider's constants and wire types
      ([constants.ts], [types.ts]) *)
(* ================================================================== *)

Definition PAYTECH_API_BASE_URL : string := "https://paytech.sn/api".

Definition REQUEST_PAYMENT : string := "/payment/request-payment".
Definition CHECK_STATUS : string := "/payment/check-status".
Definition REFUND : string := "/payment/refund".

Definition PAYTECH_CURRENCIES : list string :=
  ["XOF"; "EUR"; "USD"; "CAD"; "GBP"; "MAD"].

Inductive PAYTECH_ENVIRONMENT : Type :=
| PAYTECH_TEST
| PAYTECH_PRODUCTION.

(** The string each member of the enum stands for. *)
Definition PAYTECH_ENVIRONMENT_value (e : PAYTECH_ENVIRONMENT) : string :=
  match e with
  | PAYTECH_TEST => "test"
  | PAYTECH_PRODUCTION => "prod"
  end.

Definition EVENT_PAYMENT_SUCCESS : string := "payment_success".
Definition EVENT_PAYMENT_FAILED : string := "payment_failed".
Definition EVENT_PAYMENT_CANCELED : string := "payment_canceled".
Definition EVENT_REFUND_SUCCESS : string := "refund_success".
Definition EVENT_REFUND_FAILED : string := "refund_failed".

(** The members of the [PAYTECH_WEBHOOK_EVENT] enum. *)
Definition PAYTECH_WEBHOOK_EVENT : list string :=
  [EVENT_PAYMENT_SUCCESS; EVENT_PAYMENT_FAILED; EVENT_PAYMENT_CANCELED;
   EVENT_REFUND_SUCCESS; EVENT_REFUND_FAILED].

(** The last five fields are filled from the additional configuration,
    whose values are of type [unknown] and are cast, not checked: each
    holds the value as it was given, of whatever type. *)
Record PaytechConfig : Type := mkPaytechConfig {
  apiKey : string;
  apiSecret : string;
  environment : Environment;
  webhookSecret : option string;
  timeout : JsValue;
  merchantId : JsValue;
  defaultIpnUrl : JsValue;
  defaultSuccessUrl : JsValue;
  defaultCancelUrl : JsValue
}.

(** The three URLs are those of the request, strings when present, or
    the defaults of the configuration, which are values of any type. *)
Record PaytechPaymentRequest : Type := mkPaytechPaymentRequest {
  item_name : string;
  item_price : string;
  req_currency : string;
  ref_command : string;
  command_name : string;
  env : PAYTECH_ENVIRONMENT;
  ipn_url : JsValue;
  success_url : JsValue;
  cancel_url : JsValue;
  custom_field : option string
}.

(** The [success] flag is the integer of the JSON body (1 or 0). *)
Record PaytechPaymentResponse : Type := mkPaytechPaymentResponse {
  ppr_success : Z;
  ppr_redirect_url : option string;
  ppr_token : option string;
  ppr_error : option string
}.

Record CustomerInfo : Type := mkCustomerInfo {
  ci_name : option string;
  ci_email : option string;
  ci_phone : option string
}.

Record PaytechStatusResponse : Type := mkPaytechStatusResponse {
  psr_success : Z;
  psr_status : option string;
  psr_error : option string;
  psr_ref_command : option string;
  psr_amount : option string;
  psr_currency : option string;
  psr_date : option string;
  psr_transaction_id : option string;
  psr_customer_info : option CustomerInfo
}.

Record PaytechRefundRequest : Type := mkPaytechRefundRequest {
  rq_token : string;
  rq_amount : option number;
  rq_reason : option string
}.

Record PaytechRefundResponse : Type := mkPaytechRefundResponse {
  prr_success : Z;
  prr_refund_id : option string;
  prr_amount : option string;
  prr_error : option string;
  prr_status : option string;
  prr_date : option string
}.

Record PaytechWebhookPayload : Type := mkPaytechWebhookPayload {
  wh_type : string;
  wh_token : string;
  wh_ref_command : string;
  wh_amount : string;
  wh_currency : string;
  wh_status : string;
  wh_date : string;
  wh_transaction_id : string;
  wh_custom_field : option string;
  wh_customer_info : option CustomerInfo
}.

(** [Array.prototype.sort] without a comparator orders strings by their
    code units. *)
Module StringOrder <: TotalLeBool'.
Definition t : Type := string.
Definition leb : t -> t -> bool := String.leb.
Definition leb_total : forall x y : t, leb x y = true \/ leb y x = true :=
  String.leb_total.
End StringOrder.

Module StringSort := Sort StringOrder.

Definition Array_sort (l : list string) : list string := StringSort.sort l.

(* ================================================================== *)
(** * The provider's functions *)
(* ================================================================== *)

Section Paytech.

(** What the code calls and the repository does not define: the
    JavaScript built-ins and the HMAC of Node's [crypto] module.
    [JSON_stringify] returns a text, returns [undefined] ([None]) or
    throws (a [TypeError], on a [BigInt] or a cycle); [JSON_parse] answers
    [None] where [JSON.parse] throws, and
    [createHmac_sha256_hex secret text] stands for
    [createHmac("sha256", secret).update(text).digest("hex")]. *)
Variable Number_toString : number -> string.
Variable JSON_stringify : JsValue -> Completion (option string).
Variable JSON_parse : string -> option JsValue.
Variable parseFloat : string -> number.
Variable createHmac_sha256_hex : string -> string -> string.

(** ** [mappers.ts] *)

(** A string that may be absent, as a value. *)
Definition js_of_option (o : option string) : JsValue :=
  match o with
  | Some s => VStr s
  | None => VUndefined
  end.

(** The fields of the object are computed in the order written; the
    last one alone can throw, what [JSON.stringify] throws. *)
Definition mapToPaytechRequest (request : PaymentRequest)
    (environment : Environment) : Completion PaytechPaymentRequest :=
  match
    match metadata request with
    | Some m => JSON_stringify (VObj m)
    | None => Returns None
    end
  with
  | Throws error => Throws error
  | Returns custom =>
      Returns
        {| item_name := description request;
           item_price := Number_toString (amount request);
           req_currency := currency request;
           ref_command := reference request;
           command_name := description request;
           env := match environment with
                  | env_production => PAYTECH_PRODUCTION
                  | env_test => PAYTECH_TEST
                  end;
           ipn_url := js_of_option (webhookUrl request);
           success_url := js_of_option (returnUrl request);
           cancel_url := js_of_option (cancelUrl request);
           custom_field := custom |}
  end.

(** [now] is the clock that [new Date()] reads. *)
Definition mapFromPaytechResponse (now : Z)
    (response : PaytechPaymentResponse) : PaymentResponse :=
  if (ppr_success response =? 1)%Z then
    {| pr_success := true;
       pr_redirectUrl := ppr_redirect_url response;
       pr_token := ppr_token response;
       pr_paymentId := ppr_token response;
       pr_message := None;
       pr_status := Some PENDING;
       pr_createdAt := Some (DateNow now) |}
  else
    {| pr_success := false;
       pr_redirectUrl := None;
       pr_token := None;
       pr_paymentId := None;
       pr_message := Some (opt_or_default (ppr_error response)
                             "Unknown error occurred");
       pr_status := Some FAILED;
       pr_createdAt := Some (DateNow now) |}.

Definition mapPaytechStatus (statusResponse : PaytechStatusResponse)
    : TransactionStatus :=
  if (psr_success statusResponse =? 0)%Z then FAILED
  else
    match option_map toLowerCase (psr_status statusResponse) with
    | Some s =>
        if (s =? "completed") || (s =? "success") then COMPLETED
        else if (s =? "pending") || (s =? "waiting") then PENDING
        else if (s =? "canceled") || (s =? "cancelled") then CANCELED
        else if s =? "refunded" then REFUNDED
        else FAILED
    | None => FAILED
    end.

(** The messages of the [TypeError]s that reading a property of
    [undefined] or [null], and calling what is no function, throw; the
    wording is the engine's. *)
Definition cannot_read (of_what property : string) : string :=
  "Cannot read properties of " ++ of_what
  ++ " (reading '" ++ property ++ "')".

Definition not_a_function (what : string) : string :=
  what ++ " is not a function".

(** [mapPaytechStatus] on the body of an answer as it arrives.  The body
    is [response.data], which nothing checks against
    [PaytechStatusResponse]: where it is [undefined] or [null], reading
    [success] throws; where [status] is neither absent nor a string,
    calling its [toLowerCase] throws. *)
Definition mapPaytechStatus_unchecked (statusResponse : JsValue)
    : Completion TransactionStatus :=
  match statusResponse with
  | VUndefined => Throws (cannot_read "undefined" "success")
  | VNull => Throws (cannot_read "null" "success")
  | _ =>
      if negb (truthy (js_get statusResponse "success")) then Returns FAILED
      else
        match js_get statusResponse "status" with
        | VUndefined | VNull => Returns FAILED
        | VStr status =>
            let s := toLowerCase status in
            Returns
              (if (s =? "completed") || (s =? "success") then COMPLETED
               else if (s =? "pending") || (s =? "waiting") then PENDING
               else if (s =? "canceled") || (s =? "cancelled") then CANCELED
               else if s =? "refunded" then REFUNDED
               else FAILED)
        | _ =>
            Throws (not_a_function "statusResponse.status?.toLowerCase")
        end
  end.

(** The body that has the declared type: what [mapPaytechStatus] reads
    of it are the flag and the status. *)
Definition status_body (r : PaytechStatusResponse) : JsValue :=
  VObj [("success", VNum (Num (psr_success r)));
        ("status", js_of_option (psr_status r));
        ("error", js_of_option (psr_error r));
        ("ref_command", js_of_option (psr_ref_command r));
        ("amount", js_of_option (psr_amount r));
        ("currency", js_of_option (psr_currency r));
        ("date", js_of_option (psr_date r));
        ("transaction_id", js_of_option (psr_transaction_id r))].

Definition mapFromPaytechRefundResponse (now : Z)
    (response : PaytechRefundResponse) (requestedAmount : option number)
    : RefundResponse :=
  if (prr_success response =? 1)%Z then
    {| rr_success := true;
       rr_refundId := prr_refund_id response;
       rr_amount :=
         match requestedAmount with
         | Some n =>
             if number_truthy n then Some n
             else if opt_truthy (prr_amount response)
                  then option_map parseFloat (prr_amount response)
                  else None
         | None =>
             if opt_truthy (prr_amount response)
             then option_map parseFloat (prr_amount response)
             else None
         end;
       rr_message := None;
       rr_status := Some REFUNDED;
       rr_createdAt :=
         match prr_date response with
         | Some d => if string_truthy d then Some (DateParse d)
                     else Some (DateNow now)
         | None => Some (DateNow now)
         end |}
  else
    {| rr_success := false;
       rr_refundId := None;
       rr_amount := None;
       rr_message := Some (opt_or_default (prr_error response) "Refund failed");
       rr_status := Some FAILED;
       rr_createdAt := Some (DateNow now) |}.

(** The [console.log] of the caught parse error leaves the result as it
    is and is not modelled. *)
Definition mapFromPaytechWebhook (now : Z) (payload : PaytechWebhookPayload)
    : WebhookEvent :=
  let eventType :=
    let t := wh_type payload in
    if t =? EVENT_PAYMENT_SUCCESS then PAYMENT_SUCCESS
    else if t =? EVENT_PAYMENT_FAILED then PAYMENT_FAILED
    else if t =? EVENT_PAYMENT_CANCELED then PAYMENT_FAILED
    else if t =? EVENT_REFUND_SUCCESS then REFUND_SUCCESS
    else if t =? EVENT_REFUND_FAILED then REFUND_FAILED
    else PAYMENT_SUCCESS in
  let status :=
    let s := toLowerCase (wh_status payload) in
    if (s =? "completed") || (s =? "success") then COMPLETED
    else if (s =? "pending") || (s =? "waiting") then PENDING
    else if (s =? "canceled") || (s =? "cancelled") then CANCELED
    else if s =? "refunded" then REFUNDED
    else FAILED in
  let metadata :=
    match wh_custom_field payload with
    | Some c =>
        if string_truthy c then
          match JSON_parse c with
          | Some parsed => parsed
          | None => VObj [("raw", VStr c)]
          end
        else VObj []
    | None => VObj []
    end in
  {| ev_type := eventType;
     ev_data :=
       {| ev_reference := wh_ref_command payload;
          ev_paymentId := Some (wh_token payload);
          ev_amount := Some (parseFloat (wh_amount payload));
          ev_currency := Some (wh_currency payload);
          ev_status := status;
          ev_gatewayReference := Some (wh_transaction_id payload);
          ev_metadata := metadata;
          ev_customerEmail :=
            match wh_customer_info payload with
            | Some ci => ci_email ci
            | None => None
            end;
          ev_customerName :=
            match wh_customer_info payload with
            | Some ci => ci_name ci
            | None => None
            end;
          ev_customerPhone :=
            match wh_customer_info payload with
            | Some ci => ci_phone ci
            | None => None
            end |};
     ev_createdAt :=
       if string_truthy (wh_date payload) then DateParse (wh_date payload)
       else DateNow now;
     ev_gatewayName := "paytech" |}.

(** ** [utils.ts] *)

Definition isValidPaytechCurrency (currency : string) : bool :=
  existsb (String.eqb (toUpperCase currency)) PAYTECH_CURRENCIES.

Definition isValidPaytechAmount (amount : number) : bool :=
  number_gt amount (Num 0).

(** [Object.keys] throws on [undefined] and [null]; the template
    literal throws what printing the value throws. *)
Definition createWebhookSignature (payload : JsValue) (secret : string)
    : Completion string :=
  match payload with
  | VUndefined | VNull => Throws "Cannot convert undefined or null to object"
  | _ =>
      match
        map_throwing
          (fun key =>
             match js_toString Number_toString (js_get payload key) with
             | Throws error => Throws error
             | Returns value => Returns (key ++ "=" ++ value)
             end)
          (Array_sort (Object_keys payload))
      with
      | Throws error => Throws error
      | Returns pairs =>
          let payloadString := join "&" pairs in
          Returns (createHmac_sha256_hex secret payloadString)
      end
  end.

Definition verifyWebhookSignature (payload : JsValue) (signature : string)
    (secret : string) : Completion bool :=
  match createWebhookSignature payload secret with
  | Throws error => Throws error
  | Returns expectedSignature => Returns (expectedSignature =? signature)
  end.

(** ** [webhooks.ts] *)

Definition requiredFields : list string :=
  ["token"; "ref_command"; "type"; "status"].

Definition invalid (why : string) : WebhookValidationResult :=
  {| isValid := false; reason := Some why |}.

(** The loop over the required fields: it returns at the first field
    whose value is falsy, and goes on to [rest] when there is none. *)
Fixpoint for_requiredFields (payload : JsValue) (fields : list string)
    (rest : Completion WebhookValidationResult)
    : Completion WebhookValidationResult :=
  match fields with
  | [] => rest
  | field :: more =>
      if negb (truthy (js_get payload field))
      then Returns (invalid ("Missing required field: " ++ field))
      else for_requiredFields payload more rest
  end.

(** The validator catches nothing: what signing the payload throws, it
    throws. *)
Definition validatePaytechWebhook (payload : JsValue)
    (headers : list (string * string)) (webhookSecret : option string)
    : Completion WebhookValidationResult :=
  if negb (truthy payload) then Returns (invalid "Empty payload")
  else
    for_requiredFields payload requiredFields
      (match webhookSecret with
       | Some secret =>
           if string_truthy secret then
             match opt_or (assoc "x-paytech-signature" headers)
                          (assoc "X-Paytech-Signature" headers) with
             | Some signature =>
                 if negb (string_truthy signature) then
                   Returns (invalid "Missing signature header")
                 else
                   match verifyWebhookSignature payload signature secret with
                   | Throws error => Throws error
                   | Returns matching =>
                       if negb matching
                       then Returns (invalid "Invalid signature")
                       else Returns {| isValid := true; reason := None |}
                   end
             | None => Returns (invalid "Missing signature header")
             end
           else Returns {| isValid := true; reason := None |}
       | None => Returns {| isValid := true; reason := None |}
       end).

Definition processPaytechWebhook (now : Z) (payload : PaytechWebhookPayload)
    : WebhookEvent :=
  mapFromPaytechWebhook now payload.

(** ** [PaytechGateway.ts] *)

(** What a rejected request carries: whether axios made the error,
    whether it is an [Error], its message, and the response of the
    provider when one arrived ([data] is absent when the body was empty). *)
Record ErrorData : Type := mkErrorData {
  data_error : option string
}.

Record ErrorResponse : Type := mkErrorResponse {
  status : Z;
  data : option ErrorData
}.

Record JsError : Type := mkJsError {
  isAxiosError : bool;
  instanceofError : bool;
  message : option string;
  response : option ErrorResponse
}.

Inductive Settled (A : Type) : Type :=
| Resolved (value : A)
| Rejected (error : JsError).

Arguments Resolved {A} value.
Arguments Rejected {A} error.

Definition Headers : Type := list (string * string).

(** The requests the adapter sends. *)
Inductive HttpCall : Type :=
| HttpGet (url : string) (headers : Headers)
| HttpPostPayment (url : string) (body : PaytechPaymentRequest)
    (headers : Headers)
| HttpPostRefund (url : string) (body : PaytechRefundRequest)
    (headers : Headers).

(** The provider and the network between: how each request settles.
    The body of a status answer is kept as it arrives, since
    [verifyPayment] throws again what mapping it throws. *)
Variable client_get : string -> Headers -> Settled JsValue.
Variable client_post_payment :
  string -> PaytechPaymentRequest -> Headers -> Settled PaytechPaymentResponse.
Variable client_post_refund :
  string -> PaytechRefundRequest -> Headers -> Settled PaytechRefundResponse.

(** An [async] method: from the requests sent so far to its completion
    and the requests sent by then. *)
Definition Async (A : Type) : Type :=
  list HttpCall -> Completion A * list HttpCall.

Definition ret {A : Type} (a : A) : Async A :=
  fun sent => (Returns a, sent).

Definition throw {A : Type} (error : string) : Async A :=
  fun sent => (Throws error, sent).

Definition bind {A B : Type} (m : Async A) (k : A -> Async B) : Async B :=
  fun sent =>
    match m sent with
    | (Returns a, sent') => k a sent'
    | (Throws e, sent') => (Throws e, sent')
    end.

Notation "x <- m ;; k" := (bind m (fun x => k))
  (at level 61, m at next level, right associativity).

(** [await this.client.get(...)] inside a [try]: the request is sent and
    the way it settles is handed to the [catch] that follows. *)
Definition await_get (url : string) (headers : Headers)
    : Async (Settled JsValue) :=
  fun sent => (Returns (client_get url headers),
               (sent ++ [HttpGet url headers])%list).

Definition await_post_payment (url : string) (body : PaytechPaymentRequest)
    (headers : Headers) : Async (Settled PaytechPaymentResponse) :=
  fun sent => (Returns (client_post_payment url body headers),
               (sent ++ [HttpPostPayment url body headers])%list).

Definition await_post_refund (url : string) (body : PaytechRefundRequest)
    (headers : Headers) : Async (Settled PaytechRefundResponse) :=
  fun sent => (Returns (client_post_refund url body headers),
               (sent ++ [HttpPostRefund url body headers])%list).

(** The adapter: its configuration, the flag [initialize] sets and the
    timeout of its HTTP client. *)
Record PaytechGateway : Type := mkPaytechGateway {
  config : PaytechConfig;
  initialized : bool;
  client_timeout : JsValue
}.

Definition new_PaytechGateway : PaytechGateway :=
  {| config :=
       {| apiKey := ""; apiSecret := ""; environment := env_test;
          webhookSecret := None; timeout := VUndefined;
          merchantId := VUndefined;
          defaultIpnUrl := VUndefined; defaultSuccessUrl := VUndefined;
          defaultCancelUrl := VUndefined |};
     initialized := false;
     client_timeout := VNum (Num 10000) |}.

(** [config.additionalConfig?.name]. *)
Definition additional (c : GatewayConfig) (name : string) : JsValue :=
  match gc_additionalConfig c with
  | Some props => js_get (VObj props) name
  | None => VUndefined
  end.

(** [(x as number) || 10000]: the cast checks nothing, so any truthy
    value is kept. *)
Definition timeout_or_default (v : JsValue) : JsValue :=
  if truthy v then v else VNum (Num 10000).

(** [initialize]: nothing is sent, the adapter ends initialized and the
    promise resolves to [true]. *)
Definition initialize (this : PaytechGateway) (c : GatewayConfig)
    : PaytechGateway * bool :=
  let t := timeout_or_default (additional c "timeout") in
  ({| config :=
        {| apiKey := gc_apiKey c;
           apiSecret := gc_apiSecret c;
           environment := gc_environment c;
           webhookSecret := gc_webhookSecret c;
           timeout := t;
           merchantId := additional c "merchantId";
           defaultIpnUrl := additional c "defaultIpnUrl";
           defaultSuccessUrl := additional c "defaultSuccessUrl";
           defaultCancelUrl := additional c "defaultCancelUrl" |};
      initialized := true;
      client_timeout := t |},
   true).

Definition getHeaders (this : PaytechGateway) : Headers :=
  [("Accept", "application/json");
   ("Content-Type", "application/json");
   ("API_KEY", apiKey (config this));
   ("API_SECRET", apiSecret (config this))].

Definition with_ipn_url (r : PaytechPaymentRequest) (u : JsValue)
    : PaytechPaymentRequest :=
  {| item_name := item_name r; item_price := item_price r;
     req_currency := req_currency r; ref_command := ref_command r;
     command_name := command_name r; env := env r;
     ipn_url := u;
     success_url := success_url r; cancel_url := cancel_url r;
     custom_field := custom_field r |}.

Definition with_success_url (r : PaytechPaymentRequest) (u : JsValue)
    : PaytechPaymentRequest :=
  {| item_name := item_name r; item_price := item_price r;
     req_currency := req_currency r; ref_command := ref_command r;
     command_name := command_name r; env := env r;
     ipn_url := ipn_url r;
     success_url := u;
     cancel_url := cancel_url r;
     custom_field := custom_field r |}.

Definition with_cancel_url (r : PaytechPaymentRequest) (u : JsValue)
    : PaytechPaymentRequest :=
  {| item_name := item_name r; item_price := item_price r;
     req_currency := req_currency r; ref_command := ref_command r;
     command_name := command_name r; env := env r;
     ipn_url := ipn_url r;
     success_url := success_url r;
     cancel_url := u;
     custom_field := custom_field r |}.

(** [error instanceof Error ? error.message : "Unknown error"]. *)
Definition errorMessage (error : JsError) : string :=
  if instanceofError error then
    match message error with
    | Some m => m
    | None => "undefined"
    end
  else "Unknown error".

Definition failed_payment (now : Z) (why : string) : PaymentResponse :=
  {| pr_success := false; pr_redirectUrl := None; pr_paymentId := None;
     pr_token := None; pr_message := Some why; pr_status := Some FAILED;
     pr_createdAt := Some (DateNow now) |}.

Definition failed_refund (now : Z) (why : string) : RefundResponse :=
  {| rr_success := false; rr_refundId := None; rr_amount := None;
     rr_message := Some why; rr_status := Some FAILED;
     rr_createdAt := Some (DateNow now) |}.

Definition createPayment (this : PaytechGateway) (now : Z)
    (request : PaymentRequest) : Async PaymentResponse :=
  if negb (initialized this) then
    throw "Gateway not initialized. Call initialize() first."
  else if negb (string_truthy (reference request))
          || negb (string_truthy (description request)) then
    throw "Invalid payment request: missing required fields"
  else if negb (isValidPaytechAmount (amount request)) then
    throw "Invalid amount"
  else if negb (isValidPaytechCurrency (currency request)) then
    throw ("Unsupported currency: " ++ currency request)
  else
    match mapToPaytechRequest request (environment (config this)) with
    | Throws error =>
        (* caught: an [Error] that axios did not make *)
        ret (failed_payment now ("Payment request failed: " ++ error))
    | Returns paytechRequest =>
        let paytechRequest :=
          if negb (truthy (ipn_url paytechRequest))
             && truthy (defaultIpnUrl (config this))
          then with_ipn_url paytechRequest (defaultIpnUrl (config this))
          else paytechRequest in
        let paytechRequest :=
          if negb (truthy (success_url paytechRequest))
             && truthy (defaultSuccessUrl (config this))
          then with_success_url paytechRequest
                 (defaultSuccessUrl (config this))
          else paytechRequest in
        let paytechRequest :=
          if negb (truthy (cancel_url paytechRequest))
             && truthy (defaultCancelUrl (config this))
          then with_cancel_url paytechRequest
                 (defaultCancelUrl (config this))
          else paytechRequest in
        settled <- await_post_payment REQUEST_PAYMENT paytechRequest
                     (getHeaders this) ;;
        match settled with
        | Resolved paytechResponse =>
            ret (mapFromPaytechResponse now paytechResponse)
        | Rejected error =>
            match isAxiosError error, response error with
            | true, Some r =>
                match data r with
                | Some errorData =>
                    ret (failed_payment now
                           (opt_or_default
                              (opt_or (data_error errorData) (message error))
                              "Payment request failed"))
                | None =>
                    throw
                      "Cannot read properties of undefined (reading 'error')"
                end
            | _, _ =>
                ret (failed_payment now
                       ("Payment request failed: " ++ errorMessage error))
            end
        end
    end.

Definition verifyPayment (this : PaytechGateway) (paymentId : string)
    : Async TransactionStatus :=
  if negb (initialized this) then
    throw "Gateway not initialized. Call initialize() first."
  else if negb (string_truthy paymentId) then
    throw "Payment ID is required"
  else
    settled <- await_get (CHECK_STATUS ++ "/" ++ paymentId)
                 (getHeaders this) ;;
    match settled with
    | Resolved statusResponse =>
        match mapPaytechStatus_unchecked statusResponse with
        | Returns status => ret status
        | Throws error =>
            (* caught: an [Error] that axios did not make *)
            throw ("Failed to verify payment: " ++ error)
        end
    | Rejected error =>
        match isAxiosError error, response error with
        | true, Some r =>
            if (status r =? 404)%Z then ret FAILED
            else throw ("Failed to verify payment: " ++ errorMessage error)
        | _, _ => throw ("Failed to verify payment: " ++ errorMessage error)
        end
    end.

Definition refundPayment (this : PaytechGateway) (now : Z)
    (paymentId : string) (amount : option number) : Async RefundResponse :=
  if negb (initialized this) then
    throw "Gateway not initialized. Call initialize() first."
  else if negb (string_truthy paymentId) then
    throw "Payment ID is required"
  else
    let refundRequest :=
      {| rq_token := paymentId;
         rq_amount :=
           match amount with
           | Some a =>
               if number_truthy a && number_gt a (Num 0) then Some a
               else None
           | None => None
           end;
         rq_reason := None |} in
    settled <- await_post_refund REFUND refundRequest (getHeaders this) ;;
    match settled with
    | Resolved refundResponse =>
        ret (mapFromPaytechRefundResponse now refundResponse amount)
    | Rejected error =>
        match isAxiosError error, response error with
        | true, Some r =>
            match data r with
            | Some errorData =>
                ret (failed_refund now
                       (opt_or_default
                          (opt_or (data_error errorData) (message error))
                          "Refund request failed"))
            | None =>
                throw "Cannot read properties of undefined (reading 'error')"
            end
        | _, _ =>
            ret (failed_refund now
                   ("Refund request failed: " ++ errorMessage error))
        end
    end.

Definition validateWebhook (this : PaytechGateway) (payload : JsValue)
    (headers : Headers) : Completion WebhookValidationResult :=
  validatePaytechWebhook payload headers (webhookSecret (config this)).

Definition processWebhook (now : Z) (payload : option PaytechWebhookPayload)
    : Completion WebhookEvent :=
  match payload with
  | None => Throws "Invalid webhook payload"
  | Some p => Returns (processPaytechWebhook now p)
  end.

End Paytech.

Arguments Resolved {A} value.
Arguments Rejected {A} error.

(** ** The rest of [utils.ts] and [webhooks.ts] *)

(** [count] copies of [pad], one after the other. *)
Fixpoint repeat_string (count : nat) (pad : string) : string :=
  match count with
  | O => EmptyString
  | S n => pad ++ repeat_string n pad
  end.

(** [String.prototype.padStart]: a string as long as the target, or one
    padded with an empty filler, is returned as it is; otherwise the
    filler is repeated, and cut, to the missing length. *)
Definition padStart (targetLength : nat) (padString : string) (s : string)
    : string :=
  if (targetLength <=? String.length s)%nat then s
  else if padString =? "" then s
  else
    let fillLen := (targetLength - String.length s)%nat in
    substring 0 fillLen (repeat_string fillLen padString) ++ s.

(** [generateReference]: [now] is what [new Date().getTime()] reads and
    [draw] is what [Math.floor(Math.random() * 1000000)] yields, an
    integer from 0 to 999999; the prefix is [PAY] when none is given. *)
Definition generateReference (now : Z) (draw : Z) (prefix : option string)
    : string :=
  let prefix := match prefix with
                | Some p => p
                | None => "PAY"
                end in
  let timestamp := now in
  let random := padStart 6 "0" (number_toString (Num draw)) in
  prefix ++ "-" ++ number_toString (Num timestamp) ++ "-" ++ random.

Record PaytechWebhookResponse : Type := mkPaytechWebhookResponse {
  wr_status : string;
  wr_message : string
}.

Definition generatePaytechWebhookResponse (success : bool)
    (message : option string) : PaytechWebhookResponse :=
  {| wr_status := if success then "success" else "error";
     wr_message :=
       opt_or_default message
         (if success then "Webhook processed successfully"
          else "Failed to process webhook") |}.

(** ** [index.ts]: the facade *)

Definition PROVIDER_PAYTECH : string := "paytech".
Definition PROVIDER_CINETPAY : string := "cinetpay".
Definition PROVIDER_MONEY_FUSION : string := "moneyfusion".

Definition facade_not_initialized : string :=
  "Payment gateway not initialized. Call initialize() first.".

Module MultiPaymentGateway.

Section Facade.

Variable Number_toString : number -> string.
Variable JSON_stringify : JsValue -> Completion (option string).
Variable JSON_parse : string -> option JsValue.
Variable parseFloat : string -> number.
Variable createHmac_sha256_hex : string -> string -> string.
Variable client_get : string -> Headers -> Settled JsValue.
Variable client_post_payment :
  string -> PaytechPaymentRequest -> Headers -> Settled PaytechPaymentResponse.
Variable client_post_refund :
  string -> PaytechRefundRequest -> Headers -> Settled PaytechRefundResponse.

(** The facade holds the adapter in use, if any, and the provider last
    asked for.  The Paytech adapter is the one implementation of the
    gateway interface. *)
Record t : Type := mk {
  gateway : option PaytechGateway;
  provider : option string
}.

Definition new : t := {| gateway := None; provider := None |}.

(** [initialize]: the provider is recorded first; then a new Paytech
    adapter is made and initialized, or the call throws and the adapter
    held so far stays. *)
Definition initialize (this : t) (p : string) (c : GatewayConfig)
    : t * Completion bool :=
  let this := {| gateway := gateway this; provider := Some p |} in
  if p =? PROVIDER_PAYTECH then
    let created := new_PaytechGateway in
    let (g, ok) := initialize created c in
    ({| gateway := Some g; provider := provider this |}, Returns ok)
  else if p =? PROVIDER_CINETPAY then
    (this, Throws "CinetPay provider not yet implemented")
  else if p =? PROVIDER_MONEY_FUSION then
    (this, Throws "MoneyFusion provider not yet implemented")
  else (this, Throws ("Unsupported payment provider: " ++ p)).

(** [initialize] as the first of the two copies of [index.ts] has it:
    the Paytech case throws as well, so no adapter is ever made. *)
Definition initialize_unimplemented (this : t) (p : string)
    (c : GatewayConfig) : t * Completion bool :=
  let this := {| gateway := gateway this; provider := Some p |} in
  if p =? PROVIDER_PAYTECH then
    (this, Throws "Paytech provider not yet implemented")
  else if p =? PROVIDER_CINETPAY then
    (this, Throws "CinetPay provider not yet implemented")
  else if p =? PROVIDER_MONEY_FUSION then
    (this, Throws "MoneyFusion provider not yet implemented")
  else (this, Throws ("Unsupported payment provider: " ++ p)).

Definition getProvider (this : t) : option string := provider this.

(** Each operation runs [ensureInitialized] and then hands the call to
    the adapter. *)
Definition createPayment (this : t) (now : Z) (request : PaymentRequest)
    : Async PaymentResponse :=
  match gateway this with
  | None => throw facade_not_initialized
  | Some g =>
      createPayment Number_toString JSON_stringify client_post_payment g now
        request
  end.

Definition verifyPayment (this : t) (paymentId : string)
    : Async TransactionStatus :=
  match gateway this with
  | None => throw facade_not_initialized
  | Some g => verifyPayment client_get g paymentId
  end.

Definition refundPayment (this : t) (now : Z) (paymentId : string)
    (amount : option number) : Async RefundResponse :=
  match gateway this with
  | None => throw facade_not_initialized
  | Some g => refundPayment parseFloat client_post_refund g now paymentId amount
  end.

Definition validateWebhook (this : t) (payload : JsValue) (headers : Headers)
    : Completion WebhookValidationResult :=
  match gateway this with
  | None => Throws facade_not_initialized
  | Some g =>
      validateWebhook Number_toString createHmac_sha256_hex g payload headers
  end.

Definition processWebhook (this : t) (now : Z)
    (payload : option PaytechWebhookPayload) : Completion WebhookEvent :=
  match gateway this with
  | None => Throws facade_not_initialized
  | Some g => processWebhook JSON_parse parseFloat now payload
  end.

End Facade.

End MultiPaymentGateway.

(* ================================================================== *)
(** * Models of the remaining built-ins, for closed examples *)
(* ================================================================== *)

(** The functions of the provider take [parseFloat] and the HMAC as
    parameters, and what is proved of them holds for every such function.
    The examples, witnesses and counterexamples below need one to run. *)

Fixpoint digits_value (acc : Z) (s : string) : Z :=
  match s with
  | EmptyString => acc
  | String c r =>
      if is_digit c
      then digits_value (10 * acc + Z.of_nat (nat_of_ascii c - 48)) r
      else acc
  end.

(** [parseFloat] on the numerals the model has: leading blanks, a sign
    and the longest run of decimal digits, whatever follows it; [NaN]
    when no digit is there.  A fraction or an exponent after the digits
    belongs to a number the integer model lacks and is not read, so the
    model differs from [parseFloat] on ["1.5"] and ["1e3"]; the examples
    use amounts written as digits alone. *)
Definition parseFloat_model (s : string) : number :=
  match skip_ws s with
  | EmptyString => NaN
  | String c r =>
      if (c =? "-")%char then
        match r with
        | String d _ => if is_digit d then Num (- digits_value 0 r) else NaN
        | EmptyString => NaN
        end
      else if (c =? "+")%char then
        match r with
        | String d _ => if is_digit d then Num (digits_value 0 r) else NaN
        | EmptyString => NaN
        end
      else if is_digit c then Num (digits_value 0 (String c r))
      else NaN
  end.

(** ** HMAC-SHA256 (FIPS 180-4, RFC 2104), for [createHmac] *)

(** Words of 32 bits are integers below 2^32; sums wrap around. *)
Definition word_max : Z := 4294967295.

Definition add32 (a b : Z) : Z := Z.land (a + b) word_max.

Definition rotr (n : Z) (x : Z) : Z :=
  Z.lor (Z.shiftr x n) (Z.land (Z.shiftl x (32 - n)) word_max).

Definition Ch (x y z : Z) : Z :=
  Z.lxor (Z.land x y) (Z.land (Z.lxor x word_max) z).

Definition Maj (x y z : Z) : Z :=
  Z.lxor (Z.lxor (Z.land x y) (Z.land x z)) (Z.land y z).

Definition Sigma0 (x : Z) : Z :=
  Z.lxor (Z.lxor (rotr 2 x) (rotr 13 x)) (rotr 22 x).

Definition Sigma1 (x : Z) : Z :=
  Z.lxor (Z.lxor (rotr 6 x) (rotr 11 x)) (rotr 25 x).

Definition sigma0 (x : Z) : Z :=
  Z.lxor (Z.lxor (rotr 7 x) (rotr 18 x)) (Z.shiftr x 3).

Definition sigma1 (x : Z) : Z :=
  Z.lxor (Z.lxor (rotr 17 x) (rotr 19 x)) (Z.shiftr x 10).

(** The round constants (the fractional parts of the cube roots of the
    first 64 primes) and the initial hash value (of the square roots of
    the first 8). *)
Definition round_constants : list Z :=
  [1116352408; 1899447441; 3049323471; 3921009573; 961987163; 1508970993;
   2453635748; 2870763221; 3624381080; 310598401; 607225278; 1426881987;
   1925078388; 2162078206; 2614888103; 3248222580; 3835390401; 4022224774;
   264347078; 604807628; 770255983; 1249150122; 1555081692; 1996064986;
   2554220882; 2821834349; 2952996808; 3210313671; 3336571891; 3584528711;
   113926993; 338241895; 666307205; 773529912; 1294757372; 1396182291;
   1695183700; 1986661051; 2177026350; 2456956037; 2730485921; 2820302411;
   3259730800; 3345764771; 3516065817; 3600352804; 4094571909; 275423344;
   430227734; 506948616; 659060556; 883997877; 958139571; 1322822218;
   1537002063; 1747873779; 1955562222; 2024104815; 2227730452; 2361852424;
   2428436474; 2756734187; 3204031479; 3329325298]%Z.

Definition initial_hash : list Z :=
  [1779033703; 3144134277; 1013904242; 2773480762;
   1359893119; 2600822924; 528734635; 1541459225]%Z.

(** The bytes of a string in UTF-8. *)
Fixpoint utf8 (s : string) : list Z :=
  match s with
  | EmptyString => []
  | String c r =>
      let n := Z.of_nat (nat_of_ascii c) in
      if (n <? 128)%Z then n :: utf8 r
      else (192 + n / 64)%Z :: (128 + n mod 64)%Z :: utf8 r
  end.

(** A length as eight bytes, the most significant first. *)
Definition length_bytes (bits : Z) : list Z :=
  map (fun i => Z.land (Z.shiftr bits (8 * (7 - Z.of_nat i))) 255) (seq 0 8).

(** The message, the byte 128, zeros up to 56 modulo 64, and the length
    of the message in bits. *)
Definition pad (msg : list Z) : list Z :=
  let len := Z.of_nat (List.length msg) in
  (msg ++ [128%Z]
       ++ repeat 0%Z (Z.to_nat ((55 - len) mod 64))
       ++ length_bytes (8 * len))%list.

Fixpoint words (bytes : list Z) : list Z :=
  match bytes with
  | a :: b :: c :: d :: r =>
      (((a * 256 + b) * 256 + c) * 256 + d)%Z :: words r
  | _ => []
  end.

(** The message schedule: [n] more words after the words [w], the
    latest first. *)
Fixpoint schedule (n : nat) (w : list Z) : list Z :=
  match n with
  | O => w
  | S n' =>
      let next :=
        add32 (add32 (sigma1 (nth 1 w 0%Z)) (nth 6 w 0%Z))
              (add32 (sigma0 (nth 14 w 0%Z)) (nth 15 w 0%Z)) in
      schedule n' (next :: w)
  end.

Definition round (h : list Z) (kw : Z * Z) : list Z :=
  match h with
  | [a; b; c; d; e; f; g; hh] =>
      let t1 := add32 (add32 (add32 hh (Sigma1 e)) (Ch e f g))
                      (add32 (fst kw) (snd kw)) in
      let t2 := add32 (Sigma0 a) (Maj a b c) in
      [add32 t1 t2; a; b; c; add32 d t1; e; f; g]
  | _ => h
  end.

Definition compress (h : list Z) (block : list Z) : list Z :=
  let w := rev (schedule 48 (rev (words block))) in
  let h' := fold_left round (combine round_constants w) h in
  map (fun p => add32 (fst p) (snd p)) (combine h h').

Fixpoint hash_blocks (n : nat) (h : list Z) (bytes : list Z) : list Z :=
  match n with
  | O => h
  | S n' => hash_blocks n' (compress h (firstn 64 bytes)) (skipn 64 bytes)
  end.

Definition word_bytes (w : Z) : list Z :=
  [Z.land (Z.shiftr w 24) 255; Z.land (Z.shiftr w 16) 255;
   Z.land (Z.shiftr w 8) 255; Z.land w 255].

Definition sha256 (msg : list Z) : list Z :=
  let padded := pad msg in
  flat_map word_bytes
    (hash_blocks (List.length padded / 64) initial_hash padded).

(** HMAC (RFC 2104) with SHA-256: a key longer than a block is hashed
    first, then padded with zeros to a block. *)
Definition hmac_sha256 (key msg : list Z) : list Z :=
  let k := if (64 <? List.length key)%nat then sha256 key else key in
  let k := (k ++ repeat 0%Z (64 - List.length k))%list in
  sha256 (map (Z.lxor 92) k ++ sha256 (map (Z.lxor 54) k ++ msg))%list.

Fixpoint hex (bytes : list Z) : string :=
  match bytes with
  | [] => EmptyString
  | b :: r =>
      String (hex_digit (Z.to_nat (b / 16)))
        (String (hex_digit (Z.to_nat (b mod 16))) (hex r))
  end.

(** [createHmac("sha256", secret).update(text).digest("hex")]. *)
Definition createHmac_sha256_hex_model (secret text : string) : string :=
  hex (hmac_sha256 (utf8 secret) (utf8 text)).

(* ================================================================== *)
(** * Theorems: the JSON model reads back what it writes *)
(* ================================================================== *)

(** The integers a number holds exactly. *)
Definition safe_integer (z : Z) : bool :=
  (- 9007199254740991 <=? z)%Z && (z <=? 9007199254740991)%Z.

(** Keys in the order an object enumerates them, after the keys [seen]:
    no key twice, and an array index only after smaller array indices. *)
Fixpoint enum_ordered (seen : list string) (keys : list string) : bool :=
  match keys with
  | [] => true
  | k :: r =>
      negb (existsb (String.eqb k) seen)
      && match array_index k with
         | Some i =>
             forallb (fun k' =>
                        match array_index k' with
                        | Some j => (j <? i)%N
                        | None => false
                        end) seen
         | None => true
         end
      && enum_ordered (seen ++ [k]) r
  end.

(** The values JSON has a text for and reads back as they are: no
    [undefined] and no [NaN] anywhere, and integers in the safe range.
    The condition on the keys of an object restricts no JavaScript
    object: it says that the list is one an object can enumerate. *)
Fixpoint json_value (v : JsValue) : bool :=
  match v with
  | VUndefined => false
  | VNull => true
  | VBool _ => true
  | VNum NaN => false
  | VNum (Num z) => safe_integer z
  | VStr _ => true
  | VArr items => forallb json_value items
  | VObj props =>
      enum_ordered [] (map fst props)
      && forallb (fun kv => json_value (snd kv)) props
  end.

(** The fuel [parse_value] uses on the text of a value. *)
Fixpoint need (v : JsValue) : nat :=
  match v with
  | VArr items =>
      S (fold_right (fun x acc => S (Nat.max (need x) acc)) 0%nat items)
  | VObj props =>
      S (fold_right (fun kv acc => S (Nat.max (need (snd kv)) acc)) 0%nat props)
  | _ => 1%nat
  end.

Definition text_of (v : JsValue) : string :=
  match JSON_serialize v with
  | Some t => t
  | None => "null"
  end.

Definition member_text (kv : string * JsValue) : string :=
  QuoteJSONString (fst kv) ++ ":" ++ text_of (snd kv).

Section JsValue_induction.

Variable P : JsValue -> Prop.
Hypothesis P_undefined : P VUndefined.
Hypothesis P_null : P VNull.
Hypothesis P_bool : forall b, P (VBool b).
Hypothesis P_num : forall n, P (VNum n).
Hypothesis P_str : forall s, P (VStr s).
Hypothesis P_arr : forall items, Forall P items -> P (VArr items).
Hypothesis P_obj :
  forall props, Forall (fun kv => P (snd kv)) props -> P (VObj props).

Fixpoint JsValue_nested_ind (v : JsValue) : P v :=
  match v with
  | VUndefined => P_undefined
  | VNull => P_null
  | VBool b => P_bool b
  | VNum n => P_num n
  | VStr s => P_str s
  | VArr items =>
      P_arr items
        ((fix all (l : list JsValue) : Forall P l :=
            match l with
            | [] => Forall_nil P
            | x :: r => Forall_cons x (JsValue_nested_ind x) (all r)
            end) items)
  | VObj props =>
      P_obj props
        ((fix all (l : list (string * JsValue))
            : Forall (fun kv => P (snd kv)) l :=
            match l with
            | [] => Forall_nil _
            | kv :: r =>
                Forall_cons kv (JsValue_nested_ind (snd kv)) (all r)
            end) props)
  end.

End JsValue_induction.

Lemma append_assoc_s (a b c : string) : (a ++ b) ++ c = a ++ (b ++ c).
Proof. induction a; cbn; congruence. Qed.

Lemma parse_chars_escape_char (c : ascii) (tail : string) :
  parse_chars (escape_char c ++ tail) = cons_char c (parse_chars tail).
Proof.
  destruct c as [[] [] [] [] [] [] [] []]; reflexivity.
Qed.

Lemma parse_chars_quoted (s rest : string) :
  parse_chars (escape_chars s ++ String dquote rest) = Some (s, rest).
Proof.
  induction s as [| c s IH]; cbn [escape_chars].
  - reflexivity.
  - rewrite append_assoc_s, parse_chars_escape_char, IH. reflexivity.
Qed.


Definition delimited (rest : string) : bool :=
  match rest with
  | EmptyString => true
  | String c _ =>
      negb (is_digit c)
      && negb ((c =? ".")%char || (c =? "e")%char || (c =? "E")%char)
  end.

Lemma span_digits_uint (d : Decimal.uint) (rest : string) :
  delimited rest = true ->
  span_digits (NilEmpty.string_of_uint d ++ rest)
  = (NilEmpty.string_of_uint d, rest).
Proof.
  intros Hr. induction d; cbn [NilEmpty.string_of_uint append];
    try (cbn [span_digits]; change (is_digit _) with true; cbv iota;
         rewrite IHd; reflexivity).
  destruct rest as [| c r]; [reflexivity |].
  cbn [span_digits]. cbn [delimited] in Hr.
  apply andb_true_iff in Hr. destruct Hr as [Hd _].
  apply negb_true_iff in Hd. rewrite Hd. reflexivity.
Qed.

Lemma to_uint_nonnil (n : N) : N.to_uint n <> Decimal.Nil.
Proof.
  destruct n; cbn; [discriminate | apply Unsigned.to_uint_nonnil].
Qed.

Lemma string_of_uint_nonnil (d : Decimal.uint) :
  d <> Decimal.Nil -> NilZero.string_of_uint d = NilEmpty.string_of_uint d.
Proof. destruct d; intros H; try reflexivity. congruence. Qed.

Lemma parse_digits_numeral (n : N) (rest : string) :
  delimited rest = true ->
  parse_digits (NilZero.string_of_uint (N.to_uint n) ++ rest) = Some (n, rest).
Proof.
  intros Hr. unfold parse_digits.
  rewrite (string_of_uint_nonnil _ (to_uint_nonnil n)) at 1.
  rewrite (span_digits_uint _ _ Hr).
  rewrite <- (string_of_uint_nonnil _ (to_uint_nonnil n)).
  rewrite (NilZero.usu _ (to_uint_nonnil n)).
  rewrite DecimalN.Unsigned.of_to, String.eqb_refl.
  destruct rest as [| c r]; [reflexivity |].
  cbn [delimited] in Hr. apply andb_true_iff in Hr. destruct Hr as [_ Hd].
  apply negb_true_iff in Hd. rewrite Hd. reflexivity.
Qed.

Lemma numeral_head (n : N) :
  exists c r, NilZero.string_of_uint (N.to_uint n) = String c r /\ is_digit c = true.
Proof.
  rewrite (string_of_uint_nonnil _ (to_uint_nonnil n)).
  pose proof (to_uint_nonnil n) as H.
  destruct (N.to_uint n); try congruence; cbn; eauto.
Qed.

Lemma digit_not_minus (c : ascii) : is_digit c = true -> (c =? "-")%char = false.
Proof.
  destruct c as [[] [] [] [] [] [] [] []]; intros H;
    first [reflexivity | vm_compute in H; discriminate H].
Qed.

Lemma parse_number_numeral (z : Z) (rest : string) :
  delimited rest = true ->
  parse_number (number_toString (Num z) ++ rest) = Some (VNum (Num z), rest).
Proof.
  intros Hr. unfold number_toString, parse_number.
  destruct z as [| p | p]; cbn [Z.to_int NilZero.string_of_int].
  - change (Decimal.D0 Decimal.Nil) with (N.to_uint 0).
    destruct (numeral_head 0) as (c & r & E & Hc).
    pose proof (parse_digits_numeral 0 rest Hr) as P.
    rewrite E in *. cbn [append]. rewrite (digit_not_minus c Hc).
    cbn [append] in P. rewrite P. reflexivity.
  - change (Pos.to_uint p) with (N.to_uint (N.pos p)).
    destruct (numeral_head (N.pos p)) as (c & r & E & Hc).
    pose proof (parse_digits_numeral (N.pos p) rest Hr) as P.
    rewrite E in *. cbn [append]. rewrite (digit_not_minus c Hc).
    cbn [append] in P. rewrite P. reflexivity.
  - change (Pos.to_uint p) with (N.to_uint (N.pos p)).
    cbn [append]. change (("-" =? "-")%char) with true. cbv iota.
    rewrite (parse_digits_numeral (N.pos p) rest Hr). reflexivity.
Qed.

Definition need_items (items : list JsValue) : nat :=
  fold_right (fun x acc => S (Nat.max (need x) acc)) 0%nat items.

Definition need_members (props : list (string * JsValue)) : nat :=
  fold_right (fun kv acc => S (Nat.max (need (snd kv)) acc)) 0%nat props.

Lemma skip_ws_head (c : ascii) (r : string) :
  is_ws c = false -> skip_ws (String c r) = String c r.
Proof. intros H. cbn [skip_ws]. rewrite H. reflexivity. Qed.

(** The first character of a value's text starts a value. *)
Definition starts_value (c : ascii) : bool :=
  is_digit c || (c =? "-")%char || (c =? "{")%char || (c =? "[")%char
  || (c =? dquote)%char || (c =? "t")%char || (c =? "f")%char
  || (c =? "n")%char.

Lemma starts_value_not_closing (c : ascii) :
  starts_value c = true ->
  is_ws c = false /\ (c =? "]")%char = false /\ (c =? "}")%char = false.
Proof.
  destruct c as [[] [] [] [] [] [] [] []]; intros H;
    first [repeat split; reflexivity | vm_compute in H; discriminate H].
Qed.

Lemma number_dispatch (c : ascii) :
  is_digit c = true \/ c = "-"%char ->
  is_ws c = false /\ (c =? "{")%char = false /\ (c =? "[")%char = false
  /\ (c =? dquote)%char = false /\ (c =? "t")%char = false
  /\ (c =? "f")%char = false /\ (c =? "n")%char = false.
Proof.
  intros [H | ->]; [| repeat split; reflexivity].
  destruct c as [[] [] [] [] [] [] [] []];
    first [repeat split; reflexivity | vm_compute in H; discriminate H].
Qed.

Lemma number_text_head (z : Z) :
  exists c r, number_toString (Num z) = String c r
              /\ (is_digit c = true \/ c = "-"%char).
Proof.
  unfold number_toString. destruct z as [| p | p];
    cbn [Z.to_int NilZero.string_of_int].
  - exists "0"%char, "". split; [reflexivity | left; reflexivity].
  - destruct (numeral_head (N.pos p)) as (c & r & E & Hc).
    exists c, r. split; [exact E | left; exact Hc].
  - eexists _, _. split; [reflexivity | right; reflexivity].
Qed.

Lemma text_of_head (v : JsValue) :
  json_value v = true ->
  exists c r, text_of v = String c r /\ starts_value c = true.
Proof.
  destruct v as [| | [] | [| z] | s | items | props]; cbn [json_value];
    intros H; try discriminate H;
    try (eexists _, _; split; [reflexivity | reflexivity]).
  destruct (number_text_head z) as (c & r & E & [Hc | ->]).
  - exists c, r. split; [exact E |]. unfold starts_value. rewrite Hc.
    reflexivity.
  - eexists _, _. split; [exact E | reflexivity].
Qed.

Definition reads_back (v : JsValue) : Prop :=
  json_value v = true ->
  forall fuel rest, (need v <= fuel)%nat -> delimited rest = true ->
  parse_value fuel (text_of v ++ rest) = Some (v, rest).

Lemma parse_elements_items (items : list JsValue) :
  Forall reads_back items ->
  forallb json_value items = true ->
  items <> [] ->
  forall fuel acc rest, (need_items items <= fuel)%nat ->
  parse_elements fuel acc (join "," (map text_of items) ++ String "]" rest)
  = Some (VArr (acc ++ items)%list, rest).
Proof.
  induction 1 as [| x xs Hx Hxs IH]; [congruence |].
  intros Hj _ fuel acc rest Hf.
  cbn [forallb] in Hj. apply andb_true_iff in Hj. destruct Hj as [Hjx Hjxs].
  cbn [need_items fold_right] in Hf. fold (need_items xs) in Hf.
  destruct fuel as [| fuel]; [lia |].
  cbn [parse_elements].
  destruct xs as [| y ys].
  - cbn [map join].
    rewrite (Hx Hjx fuel (String "]" rest)); [| lia | reflexivity].
    reflexivity.
  - change (join "," (map text_of (x :: y :: ys)))
      with (text_of x ++ "," ++ join "," (map text_of (y :: ys))).
    rewrite !append_assoc_s.
    rewrite (Hx Hjx fuel); [| lia | reflexivity].
    cbn [append skip_ws]. change (is_ws ",") with false. cbv iota.
    change ((","  =? ",")%char) with true. cbv iota.
    rewrite (IH Hjxs); [| discriminate | lia].
    rewrite <- app_assoc. reflexivity.
Qed.

Lemma set_prop_appends (k : string) (v : JsValue)
    (acc : list (string * JsValue)) :
  existsb (String.eqb k) (map fst acc) = false ->
  match array_index k with
  | Some i =>
      forallb (fun k' =>
                 match array_index k' with
                 | Some j => (j <? i)%N
                 | None => false
                 end) (map fst acc)
  | None => true
  end = true ->
  set_prop k v acc = (acc ++ [(k, v)])%list.
Proof.
  unfold set_prop. intros Hn Ho.
  destruct (array_index k) as [i |].
  - induction acc as [| [k' v'] acc IH]; [reflexivity |].
    cbn [map fst existsb forallb] in Hn, Ho.
    apply orb_false_iff in Hn. destruct Hn as [Hk Hn].
    apply andb_true_iff in Ho. destruct Ho as [Hj Ho].
    cbn [insert_index app]. rewrite String.eqb_sym, Hk.
    destruct (array_index k') as [j |]; [| discriminate Hj].
    apply N.ltb_lt in Hj.
    destruct (N.ltb_spec i j) as [Hij | _]; [lia |].
    rewrite (IH Hn Ho). reflexivity.
  - clear Ho. induction acc as [| [k' v'] acc IH]; [reflexivity |].
    cbn [map fst existsb] in Hn.
    apply orb_false_iff in Hn. destruct Hn as [Hk Hn].
    cbn [upsert app]. rewrite String.eqb_sym, Hk, (IH Hn). reflexivity.
Qed.

Lemma member_text_shape (kv : string * JsValue) (tail : string) :
  member_text kv ++ tail
  = String dquote
      (escape_chars (fst kv)
       ++ String dquote (String ":" (text_of (snd kv) ++ tail))).
Proof.
  unfold member_text, QuoteJSONString. cbn [append].
  rewrite !append_assoc_s. reflexivity.
Qed.

Lemma parse_members_props (props : list (string * JsValue)) :
  Forall (fun kv => reads_back (snd kv)) props ->
  forallb (fun kv => json_value (snd kv)) props = true ->
  props <> [] ->
  forall fuel acc rest,
  enum_ordered (map fst acc) (map fst props) = true ->
  (need_members props <= fuel)%nat ->
  parse_members fuel acc
    (join "," (map member_text props) ++ String "}" rest)
  = Some (VObj (acc ++ props)%list, rest).
Proof.
  induction 1 as [| [k v] ps Hx Hps IH]; [congruence |].
  intros Hj _ fuel acc rest Ho Hf.
  cbn [forallb snd] in Hj. apply andb_true_iff in Hj.
  destruct Hj as [Hjx Hjps].
  cbn [need_members fold_right snd] in Hf. fold (need_members ps) in Hf.
  cbn [map fst enum_ordered] in Ho.
  apply andb_true_iff in Ho. destruct Ho as [Ho Hrest].
  apply andb_true_iff in Ho. destruct Ho as [Hfresh Hidx].
  apply negb_true_iff in Hfresh.
  cbn [snd] in Hx.
  destruct fuel as [| fuel]; [lia |].
  destruct ps as [| q qs].
  - cbn [map join]. rewrite member_text_shape. cbn [fst snd].
    cbn [parse_members]. rewrite skip_ws_head by reflexivity.
    change ((dquote =? dquote)%char) with true. cbv iota.
    rewrite parse_chars_quoted. rewrite skip_ws_head by reflexivity.
    change ((":" =? ":")%char) with true. cbv iota.
    rewrite (Hx Hjx fuel (String "}" rest)); [| lia | reflexivity].
    rewrite skip_ws_head by reflexivity.
    change (("}" =? ",")%char) with false.
    change (("}" =? "}")%char) with true. cbv iota.
    rewrite (set_prop_appends k v acc Hfresh Hidx). reflexivity.
  - change (join "," (map member_text ((k, v) :: q :: qs)))
      with (member_text (k, v) ++ "," ++ join "," (map member_text (q :: qs))).
    rewrite append_assoc_s, member_text_shape. cbn [fst snd].
    cbn [parse_members]. rewrite skip_ws_head by reflexivity.
    change ((dquote =? dquote)%char) with true. cbv iota.
    rewrite parse_chars_quoted. rewrite skip_ws_head by reflexivity.
    change ((":" =? ":")%char) with true. cbv iota.
    rewrite append_assoc_s.
    change ("," ++ ?x) with (String "," x).
    rewrite (Hx Hjx fuel); [| lia | reflexivity].
    rewrite skip_ws_head by reflexivity.
    change (("," =? ",")%char) with true. cbv iota.
    rewrite (set_prop_appends k v acc Hfresh Hidx).
    rewrite (IH Hjps); [| discriminate | | lia].
    + rewrite <- app_assoc. reflexivity.
    + rewrite map_app. exact Hrest.
Qed.

Lemma text_of_arr (items : list JsValue) :
  text_of (VArr items) = "[" ++ join "," (map text_of items) ++ "]".
Proof. reflexivity. Qed.

Lemma members_all_present (props : list (string * JsValue)) :
  forallb (fun kv => json_value (snd kv)) props = true ->
  flat_map (fun kv =>
              match JSON_serialize (snd kv) with
              | Some t => [QuoteJSONString (fst kv) ++ ":" ++ t]
              | None => []
              end) props
  = map member_text props.
Proof.
  induction props as [| [k v] ps IH]; [reflexivity |].
  cbn [forallb snd]. intros H. apply andb_true_iff in H.
  destruct H as [Hv Hps].
  cbn [flat_map map]. rewrite (IH Hps). unfold member_text, text_of.
  cbn [fst snd].
  destruct v as [| | [] | [| z] | s | items | props]; try discriminate Hv;
    reflexivity.
Qed.

Lemma text_of_obj (props : list (string * JsValue)) :
  forallb (fun kv => json_value (snd kv)) props = true ->
  text_of (VObj props) = "{" ++ join "," (map member_text props) ++ "}".
Proof.
  intros H. unfold text_of. cbn [JSON_serialize].
  rewrite (members_all_present props H). reflexivity.
Qed.

Theorem parse_value_text (v : JsValue) : reads_back v.
Proof.
  induction v as [| | b | n | s | items IH | props IH]
    using JsValue_nested_ind; intros Hj fuel rest Hf Hd.
  - discriminate Hj.
  - destruct fuel as [| fuel]; [cbn in Hf; lia | reflexivity].
  - destruct fuel as [| fuel]; [cbn in Hf; lia |].
    destruct b; reflexivity.
  - destruct n as [| z]; [discriminate Hj |].
    destruct fuel as [| fuel]; [cbn in Hf; lia |].
    change (text_of (VNum (Num z))) with (number_toString (Num z)).
    destruct (number_text_head z) as (c & r & E & Hc).
    pose proof (parse_number_numeral z rest Hd) as P.
    rewrite E in *. cbn [append] in *.
    destruct (number_dispatch c Hc) as (W & H1 & H2 & H3 & H4 & H5 & H6).
    cbn [parse_value]. rewrite (skip_ws_head _ _ W).
    rewrite H1, H2, H3, H4, H5, H6. exact P.
  - destruct fuel as [| fuel]; [cbn in Hf; lia |].
    change (text_of (VStr s)) with (QuoteJSONString s).
    unfold QuoteJSONString. cbn [append]. rewrite append_assoc_s.
    cbn [parse_value]. rewrite skip_ws_head by reflexivity.
    change ((dquote =? "{")%char) with false.
    change ((dquote =? "[")%char) with false.
    change ((dquote =? dquote)%char) with true. cbv iota.
    cbn [append]. rewrite parse_chars_quoted. reflexivity.
  - cbn [json_value] in Hj.
    change (need (VArr items)) with (S (need_items items)) in Hf.
    destruct fuel as [| fuel]; [lia |].
    rewrite text_of_arr. cbn [append]. rewrite append_assoc_s.
    cbn [append parse_value]. rewrite skip_ws_head by reflexivity.
    change (("[" =? "{")%char) with false.
    change (("[" =? "[")%char) with true. cbv iota.
    destruct items as [| x xs]; [reflexivity |].
    assert (Hx : json_value x = true).
    { cbn [forallb] in Hj. apply andb_true_iff in Hj. tauto. }
    destruct (text_of_head x Hx) as (c & r & E & Hc).
    destruct (starts_value_not_closing c Hc) as (W & Hb & _).
    pose proof (parse_elements_items (x :: xs) IH Hj ltac:(discriminate)
                  fuel [] rest ltac:(lia)) as P.
    destruct xs as [| y ys].
    + cbn [map join] in *. rewrite E in *. cbn [append] in *.
      rewrite (skip_ws_head _ _ W), Hb. exact P.
    + change (join "," (map text_of (x :: y :: ys)))
        with (text_of x ++ "," ++ join "," (map text_of (y :: ys))) in *.
      rewrite E in *. cbn [append] in *.
      rewrite (skip_ws_head _ _ W), Hb. exact P.
  - cbn [json_value] in Hj. apply andb_true_iff in Hj.
    destruct Hj as [Ho Hj].
    change (need (VObj props)) with (S (need_members props)) in Hf.
    destruct fuel as [| fuel]; [lia |].
    rewrite (text_of_obj props Hj). cbn [append]. rewrite append_assoc_s.
    cbn [append parse_value]. rewrite skip_ws_head by reflexivity.
    change (("{" =? "{")%char) with true. cbv iota.
    destruct props as [| [k x] ps]; [reflexivity |].
    pose proof (parse_members_props ((k, x) :: ps) IH Hj ltac:(discriminate)
                  fuel [] rest Ho ltac:(lia)) as P.
    destruct ps as [| q qs].
    + cbn [map join] in *. rewrite member_text_shape in *.
      rewrite skip_ws_head by reflexivity.
      change ((dquote =? "}")%char) with false. cbv iota. exact P.
    + change (join "," (map member_text ((k, x) :: q :: qs)))
        with (member_text (k, x) ++ ","
              ++ join "," (map member_text (q :: qs))) in *.
      rewrite append_assoc_s in *. rewrite member_text_shape in *.
      rewrite skip_ws_head by reflexivity.
      change ((dquote =? "}")%char) with false. cbv iota. exact P.
Qed.

Lemma length_append (a b : string) :
  String.length (a ++ b) = (String.length a + String.length b)%nat.
Proof. induction a; cbn; congruence. Qed.

Lemma text_of_nonempty (v : JsValue) :
  json_value v = true -> (1 <= String.length (text_of v))%nat.
Proof.
  intros H. destruct (text_of_head v H) as (c & r & E & _).
  rewrite E. cbn. lia.
Qed.

Definition within_text (v : JsValue) : Prop :=
  json_value v = true -> (need v <= String.length (text_of v))%nat.

Lemma need_items_within (items : list JsValue) :
  Forall within_text items ->
  forallb json_value items = true ->
  (need_items items <= S (String.length (join "," (map text_of items))))%nat.
Proof.
  induction 1 as [| x xs Hx Hxs IH]; intros Hj; [cbn; lia |].
  cbn [forallb] in Hj. apply andb_true_iff in Hj. destruct Hj as [Hjx Hjxs].
  specialize (Hx Hjx). specialize (IH Hjxs).
  pose proof (text_of_nonempty x Hjx) as Hn.
  cbn [need_items fold_right]. fold (need_items xs).
  destruct xs as [| y ys].
  - cbn [map join need_items fold_right] in *. lia.
  - change (join "," (map text_of (x :: y :: ys)))
      with (text_of x ++ "," ++ join "," (map text_of (y :: ys))).
    rewrite !length_append. cbn [String.length].
    apply le_n_S, Nat.max_lub; lia.
Qed.

Lemma member_text_length (kv : string * JsValue) :
  (String.length (text_of (snd kv)) + 3 <= String.length (member_text kv))%nat.
Proof.
  unfold member_text, QuoteJSONString. cbn [String.length].
  rewrite !length_append. cbn [String.length].
  rewrite !length_append. cbn [String.length]. lia.
Qed.

Lemma need_members_within (props : list (string * JsValue)) :
  Forall (fun kv => within_text (snd kv)) props ->
  forallb (fun kv => json_value (snd kv)) props = true ->
  (need_members props
   <= S (String.length (join "," (map member_text props))))%nat.
Proof.
  induction 1 as [| kv ps Hx Hps IH]; intros Hj; [cbn; lia |].
  cbn [forallb] in Hj. apply andb_true_iff in Hj. destruct Hj as [Hjx Hjps].
  specialize (Hx Hjx). specialize (IH Hjps).
  pose proof (member_text_length kv) as Hm.
  cbn [need_members fold_right]. fold (need_members ps).
  destruct ps as [| q qs].
  - cbn [map join need_members fold_right] in *. lia.
  - change (join "," (map member_text (kv :: q :: qs)))
      with (member_text kv ++ "," ++ join "," (map member_text (q :: qs))).
    rewrite !length_append. cbn [String.length].
    apply le_n_S, Nat.max_lub; lia.
Qed.

Lemma need_within_text (v : JsValue) : within_text v.
Proof.
  induction v as [| | b | n | s | items IH | props IH]
    using JsValue_nested_ind; intros Hj;
    try (pose proof (text_of_nonempty _ Hj); cbn [need]; lia).
  - cbn [json_value] in Hj.
    pose proof (need_items_within items IH Hj) as H.
    change (need (VArr items)) with (S (need_items items)).
    rewrite text_of_arr, !length_append. cbn [String.length]. lia.
  - cbn [json_value] in Hj. apply andb_true_iff in Hj.
    destruct Hj as [_ Hj].
    pose proof (need_members_within props IH Hj) as H.
    change (need (VObj props)) with (S (need_members props)).
    rewrite (text_of_obj props Hj), !length_append. cbn [String.length]. lia.
Qed.

Lemma serialize_json_value (v : JsValue) :
  json_value v = true -> JSON_serialize v = Some (text_of v).
Proof.
  unfold text_of.
  destruct v as [| | [] | [| z] | s | items | props]; intros H;
    try discriminate H; reflexivity.
Qed.

Theorem JSON_parse_stringify (v : JsValue) :
  json_value v = true ->
  exists text,
    JSON_stringify_model v = Returns (Some text)
    /\ JSON_parse_model text = Some v.
Proof.
  intros Hj. exists (text_of v). split.
  - unfold JSON_stringify_model. f_equal. apply serialize_json_value, Hj.
  - unfold JSON_parse_model.
    pose proof (parse_value_text v Hj (S (String.length (text_of v))) ""
                  ltac:(pose proof (need_within_text v Hj); lia) eq_refl) as P.
    replace (text_of v ++ "") with (text_of v) in P.
    + rewrite P. reflexivity.
    + clear. induction (text_of v); cbn; congruence.
Qed.

(** What the text loses: a property that is [undefined] is left out,
    and an item that is [undefined] or [NaN] is written as [null]. *)
Example JSON_stringify_loses :
  JSON_stringify_model
    (VObj [("a", VUndefined); ("b", VArr [VUndefined; VNum NaN])])
  = JSON_stringify_model (VObj [("b", VArr [VNull; VNull])])
  /\ JSON_stringify_model VUndefined = Returns None.
Proof. split; reflexivity. Qed.

(** Texts [JSON.parse] reads, and texts it refuses. *)
Example JSON_parse_cases :
  JSON_parse_model " [1, -20 ,true,null, [ ] ] "
  = Some (VArr [VNum (Num 1); VNum (Num (-20)); VBool true; VNull; VArr []])
  /\ JSON_parse_model "" = None
  /\ JSON_parse_model "[1,]" = None
  /\ JSON_parse_model "[1 2]" = None
  /\ JSON_parse_model "01" = None
  /\ JSON_parse_model "not json" = None
  /\ JSON_parse_model "true false" = None.
Proof. repeat split. Qed.

(* ================================================================== *)
(** * Theorems: the mappers *)
(* ================================================================== *)

Section MapperFacts.

Variable Number_toString : number -> string.
Variable JSON_stringify : JsValue -> Completion (option string).
Variable JSON_parse : string -> option JsValue.
Variable parseFloat : string -> number.

(** Two strings match when they are equal up to the case of their
    letters. *)
Definition matches (s w : string) : Prop :=
  toLowerCase s = toLowerCase w.

Lemma eqb_lit (s w : string) : (s =? w) = true <-> s = w.
Proof. apply String.eqb_eq. Qed.

Lemma eqb_lit_false (s w : string) : (s =? w) = false <-> s <> w.
Proof. apply String.eqb_neq. Qed.

(** C2: [mapPaytechStatus] is a total function into the statuses; a
    response whose success flag is 0 maps to failed, and otherwise the
    status string decides, whatever the case of its letters: completed or
    success gives completed, pending or waiting gives pending, canceled or
    cancelled gives canceled, refunded gives refunded, and every other
    string, like a missing one, gives failed. *)
Theorem mapPaytechStatus_table (r : PaytechStatusResponse) :
  (psr_success r = 0%Z -> mapPaytechStatus r = FAILED) /\
  (psr_success r <> 0%Z ->
     (psr_status r = None -> mapPaytechStatus r = FAILED) /\
     (forall s, psr_status r = Some s ->
        (matches s "completed" \/ matches s "success" ->
           mapPaytechStatus r = COMPLETED) /\
        (matches s "pending" \/ matches s "waiting" ->
           mapPaytechStatus r = PENDING) /\
        (matches s "canceled" \/ matches s "cancelled" ->
           mapPaytechStatus r = CANCELED) /\
        (matches s "refunded" -> mapPaytechStatus r = REFUNDED) /\
        (~ matches s "completed" -> ~ matches s "success" ->
         ~ matches s "pending" -> ~ matches s "waiting" ->
         ~ matches s "canceled" -> ~ matches s "cancelled" ->
         ~ matches s "refunded" -> mapPaytechStatus r = FAILED))) /\
  mapPaytechStatus r <> PARTIALLY_REFUNDED.
Proof.
  unfold mapPaytechStatus, matches.
  destruct (Z.eqb_spec (psr_success r) 0) as [E0 | N0].
  - repeat split; try congruence; intros; congruence.
  - split; [intros; congruence |].
    split.
    + intros _. split.
      * intros ->. reflexivity.
      * intros s ->. cbn [option_map].
        change (toLowerCase "completed") with "completed".
        change (toLowerCase "success") with "success".
        change (toLowerCase "pending") with "pending".
        change (toLowerCase "waiting") with "waiting".
        change (toLowerCase "canceled") with "canceled".
        change (toLowerCase "cancelled") with "cancelled".
        change (toLowerCase "refunded") with "refunded".
        repeat split.
        -- intros [-> | ->]; reflexivity.
        -- intros [-> | ->]; reflexivity.
        -- intros [-> | ->]; reflexivity.
        -- intros ->; reflexivity.
        -- intros H1 H2 H3 H4 H5 H6 H7.
           apply eqb_lit_false in H1, H2, H3, H4, H5, H6, H7.
           rewrite H1, H2, H3, H4, H5, H6, H7. reflexivity.
    + destruct (option_map toLowerCase (psr_status r)) as [s |];
        [| discriminate].
      repeat match goal with
             | |- context [if ?b then _ else _] => destruct b
             end; discriminate.
Qed.

Definition status_example : PaytechStatusResponse :=
  {| psr_success := 1; psr_status := Some "Completed"; psr_error := None;
     psr_ref_command := None; psr_amount := None; psr_currency := None;
     psr_date := None; psr_transaction_id := None;
     psr_customer_info := None |}.

Lemma mapPaytechStatus_table_witness :
  mapPaytechStatus status_example = COMPLETED.
Proof.
  destruct (mapPaytechStatus_table status_example) as [_ [H _]].
  destruct H as [_ H]; [discriminate |].
  destruct (H "Completed" eq_refl) as [Hc _].
  apply Hc. left. reflexivity.
Defined.

(** ** The refund mapper *)

(** The amount the provider reported, parsed, when it reported one. *)
Definition provider_amount (response : PaytechRefundResponse)
    : option number :=
  match prr_amount response with
  | Some a => if string_truthy a then Some (parseFloat a) else None
  | None => None
  end.

(** C5, as amended: on a refund response whose success flag is 1 the
    result is a success with status refunded; a requested amount that is
    given and truthy (neither zero nor NaN) is the returned amount,
    whatever the provider reported; with no requested amount, or a falsy
    one, the returned amount is the provider's amount parsed as a number
    when the provider reported a non-empty one, and is absent otherwise. *)
Theorem refund_requested_amount_precedes (now : Z)
    (response : PaytechRefundResponse) (requestedAmount : option number) :
  prr_success response = 1%Z ->
  let r := mapFromPaytechRefundResponse parseFloat now response
             requestedAmount in
  rr_success r = true /\
  rr_status r = Some REFUNDED /\
  rr_refundId r = prr_refund_id response /\
  (forall n, requestedAmount = Some n -> number_truthy n = true ->
     rr_amount r = Some n) /\
  (requestedAmount = None -> rr_amount r = provider_amount response) /\
  (forall n, requestedAmount = Some n -> number_truthy n = false ->
     rr_amount r = provider_amount response).
Proof.
  intros Hs. unfold mapFromPaytechRefundResponse, provider_amount.
  rewrite Hs. cbn.
  repeat split.
  - intros n -> Hn. rewrite Hn. reflexivity.
  - intros ->. destruct (prr_amount response) as [a |]; cbn; [| reflexivity].
    destruct (string_truthy a); reflexivity.
  - intros n -> Hn. rewrite Hn.
    destruct (prr_amount response) as [a |]; cbn; [| reflexivity].
    destruct (string_truthy a); reflexivity.
Qed.

(** ** The request mapper *)

(** C6, as amended: the request mapper returns a wire request in which
    the request's reference is the order-reference field [ref_command]
    alone, and its description is both the item-name field [item_name]
    and the description-of-order field [command_name].  It fails to
    return in one case only: [JSON.stringify] throws on the metadata, and
    the mapper throws the same error. *)
Theorem mapToPaytechRequest_reference_and_description
    (request : PaymentRequest) (e : Environment) :
  (exists w,
     mapToPaytechRequest Number_toString JSON_stringify request e = Returns w
     /\ ref_command w = reference request
     /\ item_name w = description request
     /\ command_name w = description request)
  \/
  (exists m error,
     metadata request = Some m
     /\ JSON_stringify (VObj m) = Throws error
     /\ mapToPaytechRequest Number_toString JSON_stringify request e
        = Throws error).
Proof.
  unfold mapToPaytechRequest.
  destruct (metadata request) as [m |].
  - destruct (JSON_stringify (VObj m)) as [custom | error] eqn:E.
    + left. eexists. split; [reflexivity |]. repeat split.
    + right. exists m, error. repeat split. exact E.
  - left. eexists. split; [reflexivity |]. repeat split.
Qed.

(** ** The webhook event mapper *)

(** C7: a payload whose event type is none of the five members of
    [PAYTECH_WEBHOOK_EVENT] becomes a payment-success event. *)
Theorem unmapped_event_type_is_payment_success (now : Z)
    (payload : PaytechWebhookPayload) :
  ~ In (wh_type payload) PAYTECH_WEBHOOK_EVENT ->
  ev_type (mapFromPaytechWebhook JSON_parse parseFloat now payload)
  = PAYMENT_SUCCESS.
Proof.
  intros Hn. unfold mapFromPaytechWebhook. cbn [ev_type].
  repeat match goal with
         | |- context [?a =? ?b] =>
             destruct (String.eqb_spec a b) as [E | _];
             [exfalso; apply Hn; rewrite E; cbn; tauto |]
         end.
  reflexivity.
Qed.

(** C10: a payload whose event type is exactly [payment_canceled]
    becomes a payment-failed event, the event a [payment_failed] payload
    becomes, and not a payment-success one. *)
Theorem canceled_event_is_payment_failed (now : Z)
    (payload : PaytechWebhookPayload) :
  wh_type payload = "payment_canceled" ->
  ev_type (mapFromPaytechWebhook JSON_parse parseFloat now payload)
  = PAYMENT_FAILED /\
  ev_type (mapFromPaytechWebhook JSON_parse parseFloat now payload)
  <> PAYMENT_SUCCESS /\
  forall now' other, wh_type other = "payment_failed" ->
    ev_type (mapFromPaytechWebhook JSON_parse parseFloat now' other)
    = ev_type (mapFromPaytechWebhook JSON_parse parseFloat now payload).
Proof.
  intros Ht. unfold mapFromPaytechWebhook. cbn [ev_type]. rewrite Ht.
  cbn. repeat split; [discriminate |].
  intros _ other ->. reflexivity.
Qed.

(** C8, as amended: the event mapper is a total function, so it throws
    on no payload.  For a payload whose custom field is present and not
    empty, the event metadata is the value [JSON.parse] reads from it
    when the parse succeeds, and the object with the single property
    [raw] holding the custom field itself when the parse fails.  A custom
    field that is the empty string is not parsed: the metadata is then
    the empty object. *)
Theorem custom_field_becomes_metadata (now : Z)
    (payload : PaytechWebhookPayload) (c : string) :
  wh_custom_field payload = Some c ->
  let md := ev_metadata
              (ev_data (mapFromPaytechWebhook JSON_parse parseFloat now
                          payload)) in
  (c <> "" ->
     (forall parsed, JSON_parse c = Some parsed -> md = parsed) /\
     (JSON_parse c = None -> md = VObj [("raw", VStr c)])) /\
  (c = "" -> md = VObj []).
Proof.
  intros Hc. unfold mapFromPaytechWebhook. cbn [ev_data ev_metadata].
  rewrite Hc. unfold string_truthy. split.
  - intros Hne. apply String.eqb_neq in Hne. rewrite Hne. cbn [negb].
    split.
    + intros parsed ->. reflexivity.
    + intros ->. reflexivity.
  - intros ->. reflexivity.
Qed.

End MapperFacts.

Definition refund_example : PaytechRefundResponse :=
  {| prr_success := 1; prr_refund_id := Some "refund-123";
     prr_amount := Some "5000"; prr_error := None;
     prr_status := Some "refunded"; prr_date := None |}.

Lemma refund_requested_amount_precedes_witness :
  rr_amount (mapFromPaytechRefundResponse parseFloat_model 0 refund_example
               (Some (Num 2000)))
  = Some (Num 2000) /\
  rr_amount (mapFromPaytechRefundResponse parseFloat_model 0 refund_example
               None)
  = Some (Num 5000).
Proof.
  pose proof (refund_requested_amount_precedes parseFloat_model 0
                refund_example (Some (Num 2000)) eq_refl) as H1.
  pose proof (refund_requested_amount_precedes parseFloat_model 0
                refund_example None eq_refl) as H2.
  cbv zeta in H1, H2.
  destruct H1 as (_ & _ & _ & H1 & _).
  destruct H2 as (_ & _ & _ & _ & H2 & _).
  split.
  - apply H1; reflexivity.
  - rewrite (H2 eq_refl). reflexivity.
Defined.

(** C5 as stated fails: a requested amount of 0 is given, and the
    returned amount is the provider's 5000. *)
Lemma refund_requested_zero_is_overridden :
  prr_success refund_example = 1%Z /\
  rr_amount (mapFromPaytechRefundResponse parseFloat_model 0 refund_example
               (Some (Num 0)))
  = Some (Num 5000) /\
  rr_amount (mapFromPaytechRefundResponse parseFloat_model 0 refund_example
               (Some (Num 0)))
  <> Some (Num 0).
Proof. repeat split. discriminate. Qed.

Definition payment_request_example : PaymentRequest :=
  {| amount := Num 5000; currency := "XOF"; reference := "order-123";
     description := "Test payment"; customerEmail := None;
     customerName := None; customerPhone := None;
     metadata := Some [("a", VNum (Num 1))];
     returnUrl := None; cancelUrl := None; webhookUrl := None |}.

(** C6 as stated fails: the description-of-order field holds the
    description, not the reference. *)
Lemma command_name_is_not_the_reference :
  exists w,
    mapToPaytechRequest number_toString JSON_stringify_model
      payment_request_example env_test
    = Returns w
    /\ command_name w = "Test payment"
    /\ command_name w <> reference payment_request_example.
Proof.
  eexists. split; [reflexivity |]. split; [reflexivity | discriminate].
Qed.

Definition webhook_example (type : string) (custom : option string)
    : PaytechWebhookPayload :=
  {| wh_type := type; wh_token := "payment-123";
     wh_ref_command := "order-123"; wh_amount := "5000";
     wh_currency := "XOF"; wh_status := "completed";
     wh_date := "2023-01-01T12:00:00Z"; wh_transaction_id := "txn-123";
     wh_custom_field := custom; wh_customer_info := None |}.

Lemma unmapped_event_type_is_payment_success_witness :
  ev_type (mapFromPaytechWebhook JSON_parse_model parseFloat_model 0
             (webhook_example "payment_disputed" None))
  = PAYMENT_SUCCESS.
Proof.
  apply unmapped_event_type_is_payment_success.
  cbn. intros H.
  repeat (destruct H as [H | H]; [discriminate H |]). exact H.
Defined.

Lemma canceled_event_is_payment_failed_witness :
  ev_type (mapFromPaytechWebhook JSON_parse_model parseFloat_model 0
             (webhook_example "payment_canceled" None))
  = PAYMENT_FAILED.
Proof.
  exact (proj1 (canceled_event_is_payment_failed JSON_parse_model
                  parseFloat_model 0
                  (webhook_example "payment_canceled" None) eq_refl)).
Defined.

(* ================================================================== *)
(** * Theorems: the gateway adapter *)
(* ================================================================== *)

Definition not_initialized : string :=
  "Gateway not initialized. Call initialize() first.".

Section GatewayFacts.

Variable Number_toString : number -> string.
Variable JSON_stringify : JsValue -> Completion (option string).
Variable parseFloat : string -> number.
Variable client_get : string -> Headers -> Settled JsValue.
Variable client_post_payment :
  string -> PaytechPaymentRequest -> Headers -> Settled PaytechPaymentResponse.
Variable client_post_refund :
  string -> PaytechRefundRequest -> Headers -> Settled PaytechRefundResponse.

Lemma new_gateway_uninitialized : initialized new_PaytechGateway = false.
Proof. reflexivity. Qed.

Lemma initialize_initializes (this : PaytechGateway) (c : GatewayConfig) :
  initialized (fst (initialize this c)) = true /\ snd (initialize this c) = true.
Proof. split; reflexivity. Qed.

(** C3: on an adapter that is not initialized, [createPayment],
    [verifyPayment] and [refundPayment] each throw the error that starts
    with "Gateway not initialized", whatever the request, payment id and
    amount are (so before any of them is validated), and the requests
    sent are those sent before the call: nothing goes to the network. *)
Theorem uninitialized_operations_throw (this : PaytechGateway) (now : Z)
    (request : PaymentRequest) (paymentId : string) (amount : option number)
    (sent : list HttpCall) :
  initialized this = false ->
  createPayment Number_toString JSON_stringify client_post_payment this now
    request sent
  = (Throws not_initialized, sent) /\
  verifyPayment client_get this paymentId sent
  = (Throws not_initialized, sent) /\
  refundPayment parseFloat client_post_refund this now paymentId amount sent
  = (Throws not_initialized, sent) /\
  prefix "Gateway not initialized" not_initialized = true.
Proof.
  intros Hu. unfold createPayment, verifyPayment, refundPayment.
  rewrite Hu. cbn. repeat split.
Qed.

(** The address [verifyPayment] asks. *)
Definition status_url (paymentId : string) : string :=
  CHECK_STATUS ++ "/" ++ paymentId.

(** C4: on an initialized adapter and a non-empty payment id,
    [verifyPayment] sends one request; when it is rejected with no
    response of the provider (a failure of the transport), the call throws
    an error that starts with "Failed to verify payment"; when it is
    rejected by axios with a response of status 404, the call returns
    the failed status and throws nothing. *)
Theorem verifyPayment_transport_failure_and_not_found
    (this : PaytechGateway) (paymentId : string) (sent : list HttpCall)
    (error : JsError) :
  initialized this = true ->
  paymentId <> "" ->
  client_get (status_url paymentId) (getHeaders this) = Rejected error ->
  (response error = None ->
     verifyPayment client_get this paymentId sent
     = (Throws ("Failed to verify payment: " ++ errorMessage error),
        (sent ++ [HttpGet (status_url paymentId) (getHeaders this)])%list)) /\
  (forall r, isAxiosError error = true -> response error = Some r ->
     status r = 404%Z ->
     verifyPayment client_get this paymentId sent
     = (Returns FAILED,
        (sent ++ [HttpGet (status_url paymentId) (getHeaders this)])%list)).
Proof.
  intros Hi Hp Hg. unfold verifyPayment, string_truthy.
  rewrite Hi. cbn [negb].
  apply String.eqb_neq in Hp. rewrite Hp. cbn [negb].
  unfold bind, await_get. fold (status_url paymentId). rewrite Hg.
  split.
  - intros Hr. rewrite Hr. destruct (isAxiosError error); reflexivity.
  - intros r Ha Hr Hs. rewrite Ha, Hr, Hs. reflexivity.
Qed.

End GatewayFacts.

Definition invalid_request_example : PaymentRequest :=
  {| amount := Num 0; currency := "INVALID"; reference := "";
     description := ""; customerEmail := None; customerName := None;
     customerPhone := None; metadata := None; returnUrl := None;
     cancelUrl := None; webhookUrl := None |}.

Definition network_down : JsError :=
  {| isAxiosError := false; instanceofError := true;
     message := Some "Network error"; response := None |}.

Definition not_found : JsError :=
  {| isAxiosError := true; instanceofError := false; message := None;
     response := Some {| status := 404; data := None |} |}.

Definition example_config : GatewayConfig :=
  {| gc_apiKey := "test_api_key"; gc_apiSecret := "test_api_secret";
     gc_environment := env_test;
     gc_webhookSecret := Some "test_webhook_secret";
     gc_additionalConfig := None |}.

Definition initialized_gateway : PaytechGateway :=
  fst (initialize new_PaytechGateway example_config).

Lemma uninitialized_operations_throw_witness :
  createPayment number_toString JSON_stringify_model
    (fun _ _ _ => Rejected network_down) new_PaytechGateway 0
    invalid_request_example []
  = (Throws not_initialized, []) /\
  verifyPayment (fun _ _ => Rejected network_down) new_PaytechGateway "" []
  = (Throws not_initialized, []) /\
  refundPayment parseFloat_model (fun _ _ _ => Rejected network_down)
    new_PaytechGateway 0 "" None []
  = (Throws not_initialized, []).
Proof.
  destruct (uninitialized_operations_throw number_toString
              JSON_stringify_model
              parseFloat_model (fun _ _ => Rejected network_down)
              (fun _ _ _ => Rejected network_down)
              (fun _ _ _ => Rejected network_down)
              new_PaytechGateway 0 invalid_request_example "" None []
              eq_refl) as (H1 & H2 & H3 & _).
  repeat split; assumption.
Defined.

Lemma verifyPayment_transport_failure_and_not_found_witness :
  verifyPayment (fun _ _ => Rejected network_down) initialized_gateway
    "payment-123" []
  = (Throws "Failed to verify payment: Network error",
     [HttpGet "/payment/check-status/payment-123"
        (getHeaders initialized_gateway)]) /\
  verifyPayment (fun _ _ => Rejected not_found) initialized_gateway
    "invalid-payment" []
  = (Returns FAILED,
     [HttpGet "/payment/check-status/invalid-payment"
        (getHeaders initialized_gateway)]).
Proof.
  split.
  - apply (proj1 (verifyPayment_transport_failure_and_not_found
                    (fun _ _ => Rejected network_down) initialized_gateway
                    "payment-123" [] network_down eq_refl
                    ltac:(discriminate) eq_refl)).
    reflexivity.
  - apply (proj2 (verifyPayment_transport_failure_and_not_found
                    (fun _ _ => Rejected not_found) initialized_gateway
                    "invalid-payment" [] not_found eq_refl
                    ltac:(discriminate) eq_refl)
             {| status := 404; data := None |});
      reflexivity.
Defined.

(** The text of the metadata [{a:1}]. *)
Definition a1_text : string :=
  Eval cbv in text_of (VObj [("a", VNum (Num 1))]).

Lemma custom_field_becomes_metadata_witness :
  ev_metadata
    (ev_data (mapFromPaytechWebhook JSON_parse_model parseFloat_model 0
                (webhook_example "payment_success" (Some a1_text))))
  = VObj [("a", VNum (Num 1))] /\
  ev_metadata
    (ev_data (mapFromPaytechWebhook JSON_parse_model parseFloat_model 0
                (webhook_example "payment_success" (Some "not json"))))
  = VObj [("raw", VStr "not json")].
Proof.
  split.
  - apply (proj1 (custom_field_becomes_metadata JSON_parse_model
                    parseFloat_model 0
                    (webhook_example "payment_success" (Some a1_text))
                    a1_text eq_refl));
      [discriminate | reflexivity].
  - apply (proj1 (custom_field_becomes_metadata JSON_parse_model
                    parseFloat_model 0
                    (webhook_example "payment_success" (Some "not json"))
                    "not json" eq_refl));
      [discriminate | reflexivity].
Defined.

(** C8 as stated fails: an empty custom field is present and
    [JSON.parse] fails on it, yet the metadata is the empty object and
    not the object that wraps the raw string. *)
Lemma empty_custom_field_is_not_wrapped :
  wh_custom_field (webhook_example "payment_success" (Some "")) = Some "" /\
  JSON_parse_model "" = None /\
  ev_metadata
    (ev_data (mapFromPaytechWebhook JSON_parse_model parseFloat_model 0
                (webhook_example "payment_success" (Some ""))))
  = VObj [] /\
  ev_metadata
    (ev_data (mapFromPaytechWebhook JSON_parse_model parseFloat_model 0
                (webhook_example "payment_success" (Some ""))))
  <> VObj [("raw", VStr "")].
Proof. repeat split. discriminate. Qed.

(* ================================================================== *)
(** * Theorems: the metadata round trip *)
(* ================================================================== *)

Section MetadataRoundTrip.

Variable Number_toString : number -> string.
Variable JSON_stringify : JsValue -> Completion (option string).
Variable JSON_parse : string -> option JsValue.


End MetadataRoundTrip.


Definition request_with_metadata (m : list (string * JsValue))
    : PaymentRequest :=
  {| amount := Num 5000; currency := "XOF"; reference := "order-123";
     description := "Test payment"; customerEmail := None;
     customerName := None; customerPhone := None;
     metadata := Some m;
     returnUrl := None; cancelUrl := None; webhookUrl := None |}.


(* ================================================================== *)
(** * Theorems: the webhook validator *)
(* ================================================================== *)

Definition valid : WebhookValidationResult :=
  {| isValid := true; reason := None |}.

Definition signature_headers : list string :=
  ["x-paytech-signature"; "X-Paytech-Signature"].

(** Whether a value has a string: every value but an object that owns a
    property named [toString], and an array that holds a value without
    one. *)
Fixpoint printable (v : JsValue) : bool :=
  match v with
  | VArr items => forallb printable items
  | VObj props =>
      match assoc "toString" props with
      | Some _ => false
      | None => true
      end
  | _ => true
  end.

(** Whether every value of the payload has a string. *)
Definition signable (payload : JsValue) : bool :=
  forallb (fun key => printable (js_get payload key)) (Object_keys payload).

Section ValidatorFacts.

Variable Number_toString : number -> string.
Variable createHmac_sha256_hex : string -> string -> string.

(** The string of a value that has one. *)
Fixpoint printed (v : JsValue) : string :=
  match v with
  | VUndefined => "undefined"
  | VNull => "null"
  | VBool true => "true"
  | VBool false => "false"
  | VNum n => Number_toString n
  | VStr s => s
  | VArr items =>
      join ","
        (map (fun x =>
                match x with
                | VUndefined | VNull => ""
                | _ => printed x
                end) items)
  | VObj _ => "[object Object]"
  end.

(** The text that is signed: the keys of the payload in ascending order,
    each with its value as [key=value], joined with [&]. *)
Definition canonical_form (payload : JsValue) : string :=
  join "&"
    (map (fun key => key ++ "=" ++ printed (js_get payload key))
         (Array_sort (Object_keys payload))).

(** The first required field whose value in the payload is falsy. *)
Definition first_falsy_field (payload : JsValue) : option string :=
  find (fun field => negb (truthy (js_get payload field))) requiredFields.

(** The first of the two signature headers that has a non-empty value. *)
Definition supplied_signature (headers : list (string * string))
    : option string :=
  match find (fun name => opt_truthy (assoc name headers)) signature_headers
  with
  | Some name => assoc name headers
  | None => None
  end.

(** The decision procedure of the validator, with falsy values where the
    claim speaks of absent ones, and with the error thrown where the
    payload has no text to sign. *)
Definition decision (payload : JsValue) (headers : list (string * string))
    (webhookSecret : option string) : Completion WebhookValidationResult :=
  if negb (truthy payload) then Returns (invalid "Empty payload")
  else
    match first_falsy_field payload with
    | Some field => Returns (invalid ("Missing required field: " ++ field))
    | None =>
        match webhookSecret with
        | Some secret =>
            if secret =? "" then Returns valid
            else
              match supplied_signature headers with
              | None => Returns (invalid "Missing signature header")
              | Some signature =>
                  if negb (signable payload) then Throws cannot_convert
                  else if signature
                          =? createHmac_sha256_hex secret
                               (canonical_form payload)
                  then Returns valid
                  else Returns (invalid "Invalid signature")
              end
        | None => Returns valid
        end
    end.

(** The procedure as the claim words it: a payload, a field or a header
    is absent when it is [undefined] or [null], a secret is configured
    when one was given. *)
Definition absent (v : JsValue) : bool :=
  match v with
  | VUndefined | VNull => true
  | _ => false
  end.

Definition decision_as_stated (payload : JsValue)
    (headers : list (string * string)) (webhookSecret : option string)
    : WebhookValidationResult :=
  if absent payload then invalid "Empty payload"
  else
    match find (fun field => absent (js_get payload field)) requiredFields
    with
    | Some field => invalid ("Missing required field: " ++ field)
    | None =>
        match webhookSecret with
        | Some secret =>
            match assoc "x-paytech-signature" headers,
                  assoc "X-Paytech-Signature" headers with
            | None, None => invalid "Missing signature header"
            | Some signature, _ | None, Some signature =>
                if signature
                   =? createHmac_sha256_hex secret (canonical_form payload)
                then valid
                else invalid "Invalid signature"
            end
        | None => valid
        end
    end.

Lemma for_requiredFields_find (payload : JsValue) (fields : list string)
    (rest : Completion WebhookValidationResult) :
  for_requiredFields payload fields rest
  = match find (fun field => negb (truthy (js_get payload field))) fields with
    | Some field => Returns (invalid ("Missing required field: " ++ field))
    | None => rest
    end.
Proof.
  induction fields as [| f fs IH]; cbn [for_requiredFields find].
  - reflexivity.
  - destruct (negb (truthy (js_get payload f))); [reflexivity | exact IH].
Qed.

Lemma map_throwing_all {A B : Type} (f : A -> Completion B) (ok : A -> bool)
    (g : A -> B) (error : string) (l : list A) :
  Forall (fun x => f x = if ok x then Returns (g x) else Throws error) l ->
  map_throwing f l = if forallb ok l then Returns (map g l) else Throws error.
Proof.
  induction 1 as [| x r Hx _ IH]; [reflexivity |].
  cbn [map_throwing forallb map]. rewrite Hx, IH.
  destruct (ok x); cbn [andb]; [| reflexivity].
  destruct (forallb ok r); reflexivity.
Qed.

(** [ToString] returns the string of a value that has one, and throws
    on every other value. *)
Lemma js_toString_printed (v : JsValue) :
  js_toString Number_toString v
  = if printable v then Returns (printed v) else Throws cannot_convert.
Proof.
  induction v as [| | b | n | s | items IH | props _]
    using JsValue_nested_ind; try reflexivity.
  - destruct b; reflexivity.
  - cbn [js_toString printable printed].
    rewrite (map_throwing_all
               (fun x => match x with
                         | VUndefined | VNull => Returns ""
                         | _ => js_toString Number_toString x
                         end)
               printable
               (fun x => match x with
                         | VUndefined | VNull => ""
                         | _ => printed x
                         end)
               cannot_convert).
    + destruct (forallb printable items); reflexivity.
    + apply Forall_forall. intros x Hx.
      rewrite Forall_forall in IH. specialize (IH x Hx).
      destruct x; try reflexivity; exact IH.
  - cbn [js_toString printable printed].
    destruct (assoc "toString" props); reflexivity.
Qed.

Lemma forallb_permutation {A : Type} (f : A -> bool) (l1 l2 : list A) :
  Permutation l1 l2 -> forallb f l1 = forallb f l2.
Proof.
  induction 1 as [| x l1 l2 _ IH | x y l | l1 l2 l3 _ IH1 _ IH2]; cbn.
  - reflexivity.
  - rewrite IH. reflexivity.
  - destruct (f x), (f y); reflexivity.
  - congruence.
Qed.

Lemma string_leb_trans (a b c : string) :
  String.leb a b = true -> String.leb b c = true -> String.leb a c = true.
Proof.
  unfold String.leb. intros Hab Hbc.
  destruct (String.compare a b) eqn:Eab; try discriminate Hab.
  - apply String.compare_eq_iff in Eab. subst b. exact Hbc.
  - destruct (String.compare b c) eqn:Ebc; try discriminate Hbc.
    + apply String.compare_eq_iff in Ebc. subst c. rewrite Eab. reflexivity.
    + apply String_as_OT.cmp_lt in Eab, Ebc.
      pose proof (String_as_OT.lt_trans _ _ _ Eab Ebc) as Hac.
      apply String_as_OT.cmp_lt in Hac. unfold String_as_OT.cmp in Hac.
      rewrite Hac. reflexivity.
Qed.

(** The keys that are signed are those of the payload, in ascending
    order of their code units. *)
Lemma signed_keys_sorted (payload : JsValue) :
  StronglySorted (fun a b => String.leb a b = true)
    (Array_sort (Object_keys payload))
  /\ Permutation (Object_keys payload) (Array_sort (Object_keys payload)).
Proof.
  split.
  - apply (StringSort.StronglySorted_sort (Object_keys payload)).
    intros a b c. apply string_leb_trans.
  - apply StringSort.Permuted_sort.
Qed.

(** Signing a truthy payload returns the HMAC of its canonical form when
    every value has a string, and throws otherwise. *)
Lemma createWebhookSignature_canonical (payload : JsValue) (secret : string) :
  truthy payload = true ->
  createWebhookSignature Number_toString createHmac_sha256_hex payload secret
  = if signable payload
    then Returns (createHmac_sha256_hex secret (canonical_form payload))
    else Throws cannot_convert.
Proof.
  intros Ht. unfold createWebhookSignature, signable, canonical_form.
  rewrite (map_throwing_all _
             (fun key => printable (js_get payload key))
             (fun key => key ++ "=" ++ printed (js_get payload key))
             cannot_convert).
  - rewrite <- (forallb_permutation _ _ _
                  (proj2 (signed_keys_sorted payload))).
    destruct payload; try discriminate Ht;
      destruct (forallb _ _); reflexivity.
  - apply Forall_forall. intros key _. rewrite js_toString_printed.
    destruct (printable (js_get payload key)); reflexivity.
Qed.

(** C1, as amended: for every payload, headers and optional secret the
    validator completes as [decision] does.  In order: a falsy payload is
    refused as empty; the first of [token], [ref_command], [type] and
    [status] whose value is falsy is reported missing; with a non-empty
    secret, headers in which neither spelling of the signature header has
    a non-empty value are refused; then the payload is signed, and when
    one of its values has no string the validator throws the [TypeError]
    of the conversion; otherwise a signature that differs from the
    hexadecimal HMAC-SHA256, keyed by the secret, of the canonical form
    of the payload is refused; everything else is valid, with no
    reason. *)
Theorem validatePaytechWebhook_decision (payload : JsValue)
    (headers : list (string * string)) (webhookSecret : option string) :
  validatePaytechWebhook Number_toString createHmac_sha256_hex payload headers
    webhookSecret
  = decision payload headers webhookSecret.
Proof.
  unfold validatePaytechWebhook, decision, first_falsy_field.
  destruct (truthy payload) eqn:Ht; cbn [negb]; [| reflexivity].
  rewrite for_requiredFields_find.
  destruct (find _ requiredFields); [reflexivity |].
  destruct webhookSecret as [secret |]; [| reflexivity].
  unfold string_truthy.
  destruct (secret =? ""); cbn [negb]; [reflexivity |].
  unfold supplied_signature, signature_headers, opt_or, verifyWebhookSignature.
  rewrite (createWebhookSignature_canonical payload secret Ht).
  set (expected := createHmac_sha256_hex secret (canonical_form payload)).
  cbn [find].
  destruct (assoc "x-paytech-signature" headers) as [lower |] eqn:Hl;
    destruct (assoc "X-Paytech-Signature" headers) as [upper |] eqn:Hu;
    cbn [opt_truthy]; unfold string_truthy;
    repeat match goal with
           | E : (?x =? "") = _ |- context [?x =? ""] =>
               rewrite E; cbn [negb]
           | |- context [?x =? ""] =>
               destruct (x =? "") eqn:?; cbn [negb]
           end;
    rewrite ?Hl, ?Hu; try reflexivity;
    destruct (signable payload); cbn [negb]; try reflexivity;
    rewrite (String.eqb_sym expected);
    match goal with
    | |- context [?x =? expected] => destruct (x =? expected); reflexivity
    end.
Qed.

End ValidatorFacts.

Definition empty_token_payload : JsValue :=
  VObj [("token", VStr ""); ("ref_command", VStr "order-123");
        ("type", VStr "payment_success"); ("status", VStr "completed")].

Definition complete_payload : JsValue :=
  VObj [("token", VStr "payment-123"); ("ref_command", VStr "order-123");
        ("type", VStr "payment_success"); ("status", VStr "completed")].

(** The signature of [complete_payload] under the secret
    [test_webhook_secret]. *)
Definition good_signature : string :=
  "8cfb6ad23bb084aec590848a5e631ca6bf562ee7b0cd92b199ee82fbe88029f4".

(** C1 as stated fails: every required field is there, the token being
    the empty string, and no secret is configured; the procedure of the
    claim answers valid, the validator reports the token missing.  The
    two differ in the same way on a payload that is [false], on a secret
    that is the empty string, and on a signature header that is there
    with an empty value. *)
Lemma empty_token_is_reported_missing :
  (validatePaytechWebhook number_toString createHmac_sha256_hex_model
     empty_token_payload [] None
   = Returns (invalid "Missing required field: token") /\
   decision_as_stated number_toString createHmac_sha256_hex_model
     empty_token_payload [] None
   = valid) /\
  (validatePaytechWebhook number_toString createHmac_sha256_hex_model
     (VBool false) [] None
   = Returns (invalid "Empty payload") /\
   decision_as_stated number_toString createHmac_sha256_hex_model
     (VBool false) [] None
   = invalid "Missing required field: token") /\
  (validatePaytechWebhook number_toString createHmac_sha256_hex_model
     complete_payload [] (Some "")
   = Returns valid /\
   decision_as_stated number_toString createHmac_sha256_hex_model
     complete_payload [] (Some "")
   = invalid "Missing signature header") /\
  (validatePaytechWebhook number_toString createHmac_sha256_hex_model
     complete_payload
     [("x-paytech-signature", ""); ("X-Paytech-Signature", good_signature)]
     (Some "test_webhook_secret")
   = Returns valid /\
   decision_as_stated number_toString createHmac_sha256_hex_model
     complete_payload
     [("x-paytech-signature", ""); ("X-Paytech-Signature", good_signature)]
     (Some "test_webhook_secret")
   = invalid "Invalid signature") /\
  validatePaytechWebhook number_toString createHmac_sha256_hex_model
    empty_token_payload [] None
  <> Returns
       (decision_as_stated number_toString createHmac_sha256_hex_model
          empty_token_payload [] None).
Proof.
  repeat split; try (vm_compute; reflexivity). vm_compute. discriminate.
Qed.

(** A payload with a value that has no string: the customer is an
    object that owns a property named [toString]. *)
Definition unprintable_payload : JsValue :=
  VObj [("token", VStr "payment-123"); ("ref_command", VStr "order-123");
        ("type", VStr "payment_success"); ("status", VStr "completed");
        ("customer_info", VObj [("toString", VNum (Num 1))])].

(** A payload signed with the secret passes, and the same payload with
    another signature, or with none, does not; a payload that has no
    text to sign makes the validator throw once a signature is there to
    check, and not before. *)
Example signed_webhook_is_valid :
  canonical_form number_toString complete_payload
  = "ref_command=order-123&status=completed&token=payment-123&type=payment_success"
  /\ validatePaytechWebhook number_toString createHmac_sha256_hex_model
       complete_payload [("x-paytech-signature", good_signature)]
       (Some "test_webhook_secret")
     = Returns valid
  /\ validatePaytechWebhook number_toString createHmac_sha256_hex_model
       complete_payload [("x-paytech-signature", "invalid-signature")]
       (Some "test_webhook_secret")
     = Returns (invalid "Invalid signature")
  /\ validatePaytechWebhook number_toString createHmac_sha256_hex_model
       complete_payload [("content-type", "application/json")]
       (Some "test_webhook_secret")
     = Returns (invalid "Missing signature header")
  /\ validatePaytechWebhook number_toString createHmac_sha256_hex_model
       unprintable_payload [("x-paytech-signature", good_signature)]
       (Some "test_webhook_secret")
     = Throws cannot_convert
  /\ validatePaytechWebhook number_toString createHmac_sha256_hex_model
       unprintable_payload [] (Some "test_webhook_secret")
     = Returns (invalid "Missing signature header")
  /\ validatePaytechWebhook number_toString createHmac_sha256_hex_model
       unprintable_payload [("x-paytech-signature", good_signature)] None
     = Returns valid.
Proof. repeat split; vm_compute; reflexivity. Qed.
(* ================================================================== *)
(** * Further properties of the adapter *)
(* ================================================================== *)

Section SwallowedFailures.

Variable Number_toString : number -> string.
Variable JSON_stringify : JsValue -> Completion (option string).
Variable client_post_payment :
  string -> PaytechPaymentRequest -> Headers -> Settled PaytechPaymentResponse.

(** A request that passes the checks of [createPayment]. *)
Definition acceptable (request : PaymentRequest) : Prop :=
  reference request <> "" /\ description request <> ""
  /\ isValidPaytechAmount (amount request) = true
  /\ isValidPaytechCurrency (currency request) = true.

(** The value the request mapper's field ends with: the request's own
    when it is truthy, otherwise the configured default when that one is
    truthy, of whatever type it is. *)
Definition or_default (own : option string) (default : JsValue) : JsValue :=
  if opt_truthy own then js_of_option own
  else if truthy default then default else js_of_option own.

(** X1: On an initialized adapter an acceptable request that the request
    mapper maps is sent once, to the request-payment endpoint, with the
    URLs of the request before the defaults of the configuration; and
    when the network fails with no response, [createPayment] throws
    nothing: it returns a failed result whose message carries the
    error's.  When the request mapper throws ([JSON.stringify] threw on
    the metadata), nothing is sent, and [createPayment] returns a failed
    result with the message of what was thrown. *)
Theorem createPayment_sends_and_swallows (this : PaytechGateway) (now : Z)
    (request : PaymentRequest) (sent : list HttpCall) :
  initialized this = true ->
  acceptable request ->
  let run :=
    createPayment Number_toString JSON_stringify client_post_payment this now
      request sent in
  (forall mapped,
     mapToPaytechRequest Number_toString JSON_stringify request
       (environment (config this))
     = Returns mapped ->
     let body :=
       with_cancel_url
         (with_success_url
            (with_ipn_url mapped
               (or_default (webhookUrl request)
                  (defaultIpnUrl (config this))))
            (or_default (returnUrl request)
               (defaultSuccessUrl (config this))))
         (or_default (cancelUrl request) (defaultCancelUrl (config this))) in
     snd run
     = (sent ++ [HttpPostPayment REQUEST_PAYMENT body (getHeaders this)])%list
     /\ forall error,
          client_post_payment REQUEST_PAYMENT body (getHeaders this)
          = Rejected error ->
          response error = None ->
          fst run
          = Returns (failed_payment now
                       ("Payment request failed: " ++ errorMessage error)))
  /\ (forall error,
        mapToPaytechRequest Number_toString JSON_stringify request
          (environment (config this))
        = Throws error ->
        run = (Returns (failed_payment now
                          ("Payment request failed: " ++ error)),
               sent)).
Proof.
  intros Hi (Hr & Hd & Ha & Hc) run. subst run.
  apply String.eqb_neq in Hr, Hd.
  split.
  - intros mapped Hm body.
    unfold createPayment, string_truthy.
    rewrite Hi, Hr, Hd, Ha, Hc. cbn [negb orb]. rewrite Hm.
    assert (Hbody :
      (let r1 := if negb (truthy (ipn_url mapped))
                    && truthy (defaultIpnUrl (config this))
                 then with_ipn_url mapped (defaultIpnUrl (config this))
                 else mapped in
       let r2 := if negb (truthy (success_url r1))
                    && truthy (defaultSuccessUrl (config this))
                 then with_success_url r1 (defaultSuccessUrl (config this))
                 else r1 in
       if negb (truthy (cancel_url r2))
          && truthy (defaultCancelUrl (config this))
       then with_cancel_url r2 (defaultCancelUrl (config this))
       else r2) = body).
    { subst body. unfold mapToPaytechRequest in Hm.
      destruct (match metadata request with
                | Some m => JSON_stringify (VObj m)
                | None => Returns None
                end) as [custom | error]; [| discriminate Hm].
      injection Hm as <-.
      unfold or_default, with_ipn_url, with_success_url, with_cancel_url.
      cbn -[truthy opt_truthy].
      assert (Ho : forall o, truthy (js_of_option o) = opt_truthy o)
        by (intros [u |]; reflexivity).
      rewrite !Ho.
      destruct (opt_truthy (webhookUrl request)),
               (truthy (defaultIpnUrl (config this)));
        cbn -[truthy opt_truthy]; rewrite ?Ho;
        destruct (opt_truthy (returnUrl request)),
                 (truthy (defaultSuccessUrl (config this)));
        cbn -[truthy opt_truthy]; rewrite ?Ho;
        destruct (opt_truthy (cancelUrl request)),
                 (truthy (defaultCancelUrl (config this)));
        reflexivity. }
    cbv zeta in Hbody. rewrite Hbody.
    unfold bind, await_post_payment. split.
    + destruct (client_post_payment REQUEST_PAYMENT body (getHeaders this))
        as [ok | error]; cbn.
      * reflexivity.
      * destruct (isAxiosError error), (response error) as [r |];
          try reflexivity.
        destruct (data r); reflexivity.
    + intros error He Hn. rewrite He. cbn. rewrite Hn.
      destruct (isAxiosError error); reflexivity.
  - intros error Hm. unfold createPayment, string_truthy.
    rewrite Hi, Hr, Hd, Ha, Hc. cbn [negb orb]. rewrite Hm. reflexivity.
Qed.

End SwallowedFailures.

(** [JSON.stringify] on a request whose metadata holds a [BigInt]. *)
Definition stringify_throws (v : JsValue) : Completion (option string) :=
  Throws "Do not know how to serialize a BigInt".

Lemma createPayment_sends_and_swallows_witness :
  (exists mapped,
     mapToPaytechRequest number_toString JSON_stringify_model
       payment_request_example env_test
     = Returns mapped
     /\ createPayment number_toString JSON_stringify_model
          (fun _ _ _ => Rejected network_down) initialized_gateway 0
          payment_request_example []
        = (Returns (failed_payment 0 "Payment request failed: Network error"),
           [HttpPostPayment REQUEST_PAYMENT mapped
              (getHeaders initialized_gateway)]))
  /\ createPayment number_toString stringify_throws
       (fun _ _ _ => Rejected network_down) initialized_gateway 0
       payment_request_example []
     = (Returns
          (failed_payment 0
             "Payment request failed: Do not know how to serialize a BigInt"),
        []).
Proof.
  assert (Ha : acceptable payment_request_example).
  { repeat split; discriminate. }
  split.
  - eexists. split; [reflexivity |].
    destruct (createPayment_sends_and_swallows number_toString
                JSON_stringify_model
                (fun _ _ _ => Rejected network_down) initialized_gateway 0
                payment_request_example [] eq_refl Ha) as [H _].
    destruct (H _ eq_refl) as [Hs Hf].
    specialize (Hf network_down eq_refl eq_refl).
    destruct (createPayment number_toString JSON_stringify_model
                (fun _ _ _ => Rejected network_down) initialized_gateway 0
                payment_request_example []) as [c l].
    cbn [fst snd] in Hs, Hf. rewrite Hs, Hf. reflexivity.
  - apply (createPayment_sends_and_swallows number_toString stringify_throws
             (fun _ _ _ => Rejected network_down) initialized_gateway 0
             payment_request_example [] eq_refl Ha).
    reflexivity.
Defined.


(* ================================================================== *)
(** * Further properties: the adapter and the network *)
(* ================================================================== *)

(** The headers a request was sent with. *)
Definition call_headers (call : HttpCall) : Headers :=
  match call with
  | HttpGet _ h => h
  | HttpPostPayment _ _ h => h
  | HttpPostRefund _ _ h => h
  end.

Lemma opt_or_default_nonempty (a : option string) (d : string) :
  d <> "" -> opt_or_default a d <> "".
Proof.
  intros Hd. unfold opt_or_default, string_truthy.
  destruct a as [s |]; [| exact Hd].
  destruct (String.eqb_spec s ""); cbn [negb]; assumption.
Qed.

Lemma prefix_append (p s : string) : prefix p (p ++ s) = true.
Proof.
  induction p as [| c p IH]; cbn; [destruct s; reflexivity |].
  rewrite IH. destruct (ascii_dec c c); [reflexivity | contradiction].
Qed.

Lemma prefixed_nonempty (p s : string) : p <> "" -> p ++ s <> "".
Proof. destruct p; [congruence | discriminate]. Qed.

Lemma mapPaytechStatus_never_partial (r : PaytechStatusResponse) :
  mapPaytechStatus r <> PARTIALLY_REFUNDED.
Proof.
  unfold mapPaytechStatus.
  destruct (psr_success r =? 0)%Z; [discriminate |].
  destruct (option_map toLowerCase (psr_status r)) as [s |]; [| discriminate].
  repeat match goal with
         | |- context [if ?b then _ else _] => destruct b
         end; discriminate.
Qed.

(** On a body of the declared type, mapping the body as it arrives is
    [mapPaytechStatus]. *)
Lemma mapPaytechStatus_unchecked_typed (r : PaytechStatusResponse) :
  mapPaytechStatus_unchecked (status_body r) = Returns (mapPaytechStatus r).
Proof.
  unfold mapPaytechStatus_unchecked, mapPaytechStatus, status_body.
  cbn [js_get assoc String.eqb Ascii.eqb Bool.eqb truthy number_truthy].
  destruct (psr_success r =? 0)%Z; cbn [negb]; [reflexivity |].
  destruct (psr_status r) as [s |]; reflexivity.
Qed.

Lemma mapPaytechStatus_unchecked_never_partial (body : JsValue) :
  mapPaytechStatus_unchecked body <> Returns PARTIALLY_REFUNDED.
Proof.
  unfold mapPaytechStatus_unchecked.
  destruct body; try discriminate;
    (destruct (negb (truthy _)); [discriminate |]);
    (destruct (js_get _ "status"); try discriminate);
    cbv zeta;
    repeat match goal with
           | |- context [if ?b then _ else _] => destruct b
           end; discriminate.
Qed.

(** A body that [mapPaytechStatus] throws on: no object to read the
    flag of, or a truthy flag with a status that is there and is no
    string. *)
Definition unreadable_status (body : JsValue) : Prop :=
  body = VUndefined \/ body = VNull
  \/ (truthy (js_get body "success") = true
      /\ match js_get body "status" with
         | VUndefined | VNull | VStr _ => False
         | _ => True
         end).

Lemma mapPaytechStatus_unchecked_throws (body : JsValue) :
  (exists error, mapPaytechStatus_unchecked body = Throws error)
  <-> unreadable_status body.
Proof.
  unfold mapPaytechStatus_unchecked, unreadable_status.
  destruct body as [| | b | n | s | items | props];
    try (split; [intros _; tauto | intros _; eexists; reflexivity]);
    (destruct (truthy (js_get _ "success")) eqn:Hs; cbn [negb];
     [| split; [intros [e H]; discriminate H
               | intros [H | [H | [H _]]]; discriminate H]]);
    (destruct (js_get _ "status") eqn:Hst; cbv zeta;
     try (split; [intros [e H]; discriminate H
                 | intros [H | [H | [_ []]]]; discriminate H]);
     (split; [intros _; right; right; split; [reflexivity | exact I]
             | intros _; eexists; reflexivity])).
Qed.

Section AdapterFacts.

Variable Number_toString : number -> string.
Variable JSON_stringify : JsValue -> Completion (option string).
Variable parseFloat : string -> number.
Variable createHmac_sha256_hex : string -> string -> string.
Variable client_get : string -> Headers -> Settled JsValue.
Variable client_post_payment :
  string -> PaytechPaymentRequest -> Headers -> Settled PaytechPaymentResponse.
Variable client_post_refund :
  string -> PaytechRefundRequest -> Headers -> Settled PaytechRefundResponse.

(** X2: On an initialized adapter a request that fails a check is refused
    before anything is sent, and the checks run in a fixed order: the
    reference and the description first, then the amount, then the
    currency; the first check that fails names the error. *)
Theorem createPayment_rejects_before_network (this : PaytechGateway)
    (now : Z) (request : PaymentRequest) (sent : list HttpCall) :
  initialized this = true ->
  let run :=
    createPayment Number_toString JSON_stringify client_post_payment this
      now request sent in
  (reference request = "" \/ description request = "" ->
     run = (Throws "Invalid payment request: missing required fields", sent))
  /\
  (reference request <> "" -> description request <> "" ->
   isValidPaytechAmount (amount request) = false ->
     run = (Throws "Invalid amount", sent))
  /\
  (reference request <> "" -> description request <> "" ->
   isValidPaytechAmount (amount request) = true ->
   isValidPaytechCurrency (currency request) = false ->
     run = (Throws ("Unsupported currency: " ++ currency request), sent)).
Proof.
  intros Hi run. subst run. unfold createPayment, string_truthy.
  rewrite Hi. cbn [negb]. repeat split.
  - intros [-> | ->]; cbn [String.eqb negb orb].
    + reflexivity.
    + rewrite orb_true_r. reflexivity.
  - intros Hr Hd Ha. apply String.eqb_neq in Hr, Hd.
    rewrite Hr, Hd, Ha. reflexivity.
  - intros Hr Hd Ha Hc. apply String.eqb_neq in Hr, Hd.
    rewrite Hr, Hd, Ha, Hc. reflexivity.
Qed.

(** X3: Whatever the adapter, the request and the network do, a result that
    [createPayment] returns is of one of two shapes: a success with the
    pending status, the token as payment id and no message, or a failure
    with the failed status and a message that is not empty. *)
Theorem createPayment_result_shape (this : PaytechGateway) (now : Z)
    (request : PaymentRequest) (sent : list HttpCall) (r : PaymentResponse) :
  fst (createPayment Number_toString JSON_stringify client_post_payment this
         now request sent)
  = Returns r ->
  (pr_success r = true /\ pr_status r = Some PENDING
   /\ pr_paymentId r = pr_token r /\ pr_message r = None)
  \/
  (pr_success r = false /\ pr_status r = Some FAILED
   /\ exists m, pr_message r = Some m /\ m <> "").
Proof.
  unfold createPayment.
  destruct (negb (initialized this)); [discriminate |].
  destruct (_ || _); [discriminate |].
  destruct (negb (isValidPaytechAmount _)); [discriminate |].
  destruct (negb (isValidPaytechCurrency _)); [discriminate |].
  destruct (mapToPaytechRequest _ _ _ _) as [mapped | thrown].
  2:{ cbn. intros E; inversion E; subst r; cbn. right. repeat split.
      eexists. split; [reflexivity |]. discriminate. }
  unfold bind, await_post_payment. cbv zeta.
  match goal with
  | |- context [client_post_payment ?u ?b ?h] =>
      destruct (client_post_payment u b h) as [ok | error]
  end.
  - cbn. unfold mapFromPaytechResponse.
    destruct (ppr_success ok =? 1)%Z; intros E; inversion E; subst r; cbn.
    + left. repeat split.
    + right. repeat split. eexists. split; [reflexivity |].
      apply opt_or_default_nonempty. discriminate.
  - destruct (isAxiosError error), (response error) as [resp |];
      try (cbn; intros E; inversion E; subst r; cbn; right; repeat split;
           eexists; (split; [reflexivity |]); discriminate).
    destruct (data resp) as [d |]; cbn; [| discriminate].
    intros E; inversion E; subst r; cbn. right. repeat split.
    eexists. split; [reflexivity |].
    apply opt_or_default_nonempty. discriminate.
Qed.

(** X4: The same holds of [refundPayment]: a success has the refunded
    status, a failure has the failed status and a message that is not
    empty. *)
Theorem refundPayment_result_shape (this : PaytechGateway) (now : Z)
    (paymentId : string) (amount : option number) (sent : list HttpCall)
    (r : RefundResponse) :
  fst (refundPayment parseFloat client_post_refund this now paymentId amount
         sent)
  = Returns r ->
  (rr_success r = true /\ rr_status r = Some REFUNDED /\ rr_message r = None)
  \/
  (rr_success r = false /\ rr_status r = Some FAILED /\ rr_amount r = None
   /\ exists m, rr_message r = Some m /\ m <> "").
Proof.
  unfold refundPayment.
  destruct (negb (initialized this)); [discriminate |].
  destruct (negb (string_truthy paymentId)); [discriminate |].
  unfold bind, await_post_refund. cbv zeta.
  match goal with
  | |- context [client_post_refund ?u ?b ?h] =>
      destruct (client_post_refund u b h) as [ok | error]
  end.
  - cbn. unfold mapFromPaytechRefundResponse.
    destruct (prr_success ok =? 1)%Z; intros E; inversion E; subst r; cbn.
    + left. repeat split.
    + right. repeat split. eexists. split; [reflexivity |].
      apply opt_or_default_nonempty. discriminate.
  - destruct (isAxiosError error), (response error) as [resp |];
      try (cbn; intros E; inversion E; subst r; cbn; right; repeat split;
           eexists; (split; [reflexivity |]); discriminate).
    destruct (data resp) as [d |]; cbn; [| discriminate].
    intros E; inversion E; subst r; cbn. right. repeat split.
    eexists. split; [reflexivity |].
    apply opt_or_default_nonempty. discriminate.
Qed.

(** The body of the refund request for a payment id and an amount. *)
Definition refund_body (paymentId : string) (amount : option number)
    : PaytechRefundRequest :=
  {| rq_token := paymentId; rq_amount := amount; rq_reason := None |}.

(** X5: The refund request names an amount exactly when the caller gave one
    above zero.  So a negative amount is not sent, and the provider is
    asked for a full refund; yet when that refund succeeds, the result
    reports the negative amount the caller gave as the amount refunded. *)
Theorem refundPayment_negative_amount (this : PaytechGateway) (now : Z)
    (paymentId : string) (z : Z) (sent : list HttpCall)
    (ok : PaytechRefundResponse) :
  initialized this = true ->
  paymentId <> "" ->
  (z < 0)%Z ->
  client_post_refund REFUND (refund_body paymentId None) (getHeaders this)
  = Resolved ok ->
  prr_success ok = 1%Z ->
  exists r,
    refundPayment parseFloat client_post_refund this now paymentId
      (Some (Num z)) sent
    = (Returns r,
       (sent ++ [HttpPostRefund REFUND (refund_body paymentId None)
                   (getHeaders this)])%list)
    /\ rr_success r = true
    /\ rr_amount r = Some (Num z).
Proof.
  intros Hi Hp Hz Hc Hs. unfold refundPayment, string_truthy.
  apply String.eqb_neq in Hp. rewrite Hi, Hp. cbn [negb].
  assert (Hn : number_truthy (Num z) && number_gt (Num z) (Num 0) = false).
  { cbn. destruct (Z.ltb_spec 0 z); [lia |]. apply andb_false_r. }
  rewrite Hn. fold (refund_body paymentId None).
  unfold bind, await_post_refund. rewrite Hc. cbn.
  eexists. split; [reflexivity |].
  unfold mapFromPaytechRefundResponse. rewrite Hs. cbn.
  destruct (Z.eqb_spec z 0); [lia |]. cbn. split; reflexivity.
Qed.

(** X6: On an initialized adapter and a payment id that is not empty,
    [refundPayment] sends one request to the refund endpoint, for that
    payment, and the request names the amount exactly when the caller
    gave one above zero. *)
Theorem refundPayment_request (this : PaytechGateway) (now : Z)
    (paymentId : string) (amount : option number) (sent : list HttpCall) :
  initialized this = true ->
  paymentId <> "" ->
  exists body,
    snd (refundPayment parseFloat client_post_refund this now paymentId
           amount sent)
    = (sent ++ [HttpPostRefund REFUND body (getHeaders this)])%list
    /\ rq_token body = paymentId
    /\ (forall a, rq_amount body = Some a <->
                  amount = Some a /\ number_gt a (Num 0) = true).
Proof.
  intros Hi Hp. unfold refundPayment, string_truthy.
  apply String.eqb_neq in Hp. rewrite Hi, Hp. cbn [negb].
  exists (refund_body paymentId
            match amount with
            | Some a =>
                if number_truthy a && number_gt a (Num 0) then Some a
                else None
            | None => None
            end).
  split; [| split; [reflexivity |]].
  - unfold bind, await_post_refund, refund_body.
    match goal with
    | |- context [client_post_refund ?u ?b ?h] =>
        destruct (client_post_refund u b h) as [ok | error]
    end; cbn.
    + reflexivity.
    + destruct (isAxiosError error), (response error) as [resp |];
        try reflexivity.
      destruct (data resp); reflexivity.
  - intros a. cbn [rq_amount refund_body]. unfold isValidPaytechAmount.
    destruct amount as [[| z] |]; cbn;
      try (split; [discriminate |]; intros [E H]; inversion E; subst a;
           discriminate H).
    destruct (Z.eqb_spec z 0) as [-> | Hz]; cbn.
    + split; [discriminate |]. intros [E H]. inversion E; subst a.
      discriminate H.
    + destruct (0 <? z)%Z eqn:Hg; split.
      * intros E. inversion E; subst a. split; [reflexivity | exact Hg].
      * intros [E _]. exact E.
      * discriminate.
      * intros [E H]. inversion E; subst a. cbn in H. congruence.
Qed.

(** X7: On an initialized adapter and a payment id that is not empty,
    [verifyPayment] throws in two cases and no other.  One: the request
    is rejected otherwise than by an axios error whose response has
    status 404 (a response with any other status, a failure with no
    response, an error that axios did not make).  Two: the request
    resolves with a body that [mapPaytechStatus] throws on, which the
    [catch] throws again.  What it throws starts with "Failed to verify
    payment: ", and a status it returns is never the partially-refunded
    one. *)
Theorem verifyPayment_throws_iff (this : PaytechGateway)
    (paymentId : string) (sent : list HttpCall) :
  initialized this = true ->
  paymentId <> "" ->
  let run := verifyPayment client_get this paymentId sent in
  let settled := client_get (status_url paymentId) (getHeaders this) in
  ((exists m, fst run = Throws m) <->
   (exists error,
      settled = Rejected error
      /\ ~ (isAxiosError error = true
            /\ exists r, response error = Some r /\ status r = 404%Z))
   \/ (exists body, settled = Resolved body /\ unreadable_status body))
  /\ (forall m, fst run = Throws m ->
       prefix "Failed to verify payment: " m = true)
  /\ fst run <> Returns PARTIALLY_REFUNDED.
Proof.
  intros Hi Hp run settled. subst run settled.
  unfold verifyPayment, string_truthy.
  apply String.eqb_neq in Hp. rewrite Hi, Hp. cbn [negb].
  unfold bind, await_get. fold (status_url paymentId).
  destruct (client_get (status_url paymentId) (getHeaders this))
    as [body | error]; cbn.
  - pose proof (mapPaytechStatus_unchecked_throws body) as Ht.
    pose proof (mapPaytechStatus_unchecked_never_partial body) as Hn.
    destruct (mapPaytechStatus_unchecked body) as [st | e]; cbn.
    + split; [| split].
      * split; [intros [m H]; discriminate H |].
        intros [(e & H & _) | (b & H & Hu)]; [discriminate H |].
        inversion H; subst b. apply Ht in Hu. destruct Hu as [e Hu].
        discriminate Hu.
      * intros m H. discriminate H.
      * intros H. inversion H; subst st. apply Hn. reflexivity.
    + split; [| split].
      * split; [| intros _; eexists; reflexivity].
        intros _. right. exists body. split; [reflexivity |].
        apply Ht. eexists. reflexivity.
      * intros m H. injection H as <-.
        exact (prefix_append "Failed to verify payment: " _).
      * discriminate.
  - assert (Hno : forall b, @Rejected JsValue error = Resolved b -> False)
      by (intros b H; discriminate H).
    destruct (isAxiosError error) eqn:Ha, (response error) as [r |] eqn:Hr;
      cbn.
    + destruct (Z.eqb_spec (status r) 404) as [Hs | Hs]; cbn.
      * split; [| split; [intros m H; discriminate H | discriminate]].
        split.
        -- intros [m H]. discriminate H.
        -- intros [(e & E & Hn) | (b & E & _)]; [| destruct (Hno b E)].
           inversion E; subst e.
           exfalso. apply Hn. split; [exact Ha |].
           exists r. split; [exact Hr | exact Hs].
      * split; [| split; [intros m H; injection H as <-;
                          exact (prefix_append "Failed to verify payment: " _)
                         | discriminate]].
        split.
        -- intros _. left. exists error. split; [reflexivity |].
           intros (_ & r' & Hr' & Hs'). rewrite Hr in Hr'.
           inversion Hr'; subst r'. contradiction.
        -- intros _. eexists. reflexivity.
    + split; [| split; [intros m H; injection H as <-;
                          exact (prefix_append "Failed to verify payment: " _)
                       | discriminate]].
      split.
      * intros _. left. exists error. split; [reflexivity |].
        intros (_ & r' & Hr' & _). rewrite Hr in Hr'. discriminate Hr'.
      * intros _. eexists. reflexivity.
    + split; [| split; [intros m H; injection H as <-;
                          exact (prefix_append "Failed to verify payment: " _)
                       | discriminate]].
      split.
      * intros _. left. exists error. split; [reflexivity |].
        intros (H & _). rewrite Ha in H. discriminate H.
      * intros _. eexists. reflexivity.
    + split; [| split; [intros m H; injection H as <-;
                          exact (prefix_append "Failed to verify payment: " _)
                       | discriminate]].
      split.
      * intros _. left. exists error. split; [reflexivity |].
        intros (H & _). rewrite Ha in H. discriminate H.
      * intros _. eexists. reflexivity.
Qed.

(** What an operation leaves in the log of requests: the log as it was,
    or one more request, sent with the headers of the adapter. *)
Definition sends_at_most_one (this : PaytechGateway)
    (sent after : list HttpCall) : Prop :=
  after = sent
  \/ exists call, after = (sent ++ [call])%list
                  /\ call_headers call = getHeaders this.

Lemma createPayment_sends_at_most_one (this : PaytechGateway) (now : Z)
    (request : PaymentRequest) (sent : list HttpCall) :
  sends_at_most_one this sent
    (snd (createPayment Number_toString JSON_stringify client_post_payment
            this now request sent)).
Proof.
  unfold createPayment.
  destruct (negb (initialized this)); [left; reflexivity |].
  destruct (_ || _); [left; reflexivity |].
  destruct (negb (isValidPaytechAmount _)); [left; reflexivity |].
  destruct (negb (isValidPaytechCurrency _)); [left; reflexivity |].
  destruct (mapToPaytechRequest _ _ _ _) as [mapped | thrown];
    [| left; reflexivity].
  right. unfold bind, await_post_payment. cbv zeta.
  match goal with
  | |- context [client_post_payment ?u ?b ?h] =>
      exists (HttpPostPayment u b h);
      destruct (client_post_payment u b h) as [ok | error]
  end; cbn; [split; reflexivity |].
  destruct (isAxiosError error), (response error) as [resp |];
    try (split; reflexivity).
  destruct (data resp); split; reflexivity.
Qed.

Lemma verifyPayment_sends_at_most_one (this : PaytechGateway)
    (paymentId : string) (sent : list HttpCall) :
  sends_at_most_one this sent
    (snd (verifyPayment client_get this paymentId sent)).
Proof.
  unfold verifyPayment.
  destruct (negb (initialized this)); [left; reflexivity |].
  destruct (negb (string_truthy paymentId)); [left; reflexivity |].
  right. unfold bind, await_get.
  match goal with
  | |- context [client_get ?u ?h] =>
      exists (HttpGet u h); destruct (client_get u h) as [ok | error]
  end; cbn.
  - destruct (mapPaytechStatus_unchecked ok); split; reflexivity.
  - destruct (isAxiosError error), (response error) as [resp |];
      try (split; reflexivity).
    destruct (status resp =? 404)%Z; split; reflexivity.
Qed.

Lemma refundPayment_sends_at_most_one (this : PaytechGateway) (now : Z)
    (paymentId : string) (amount : option number) (sent : list HttpCall) :
  sends_at_most_one this sent
    (snd (refundPayment parseFloat client_post_refund this now paymentId
            amount sent)).
Proof.
  unfold refundPayment.
  destruct (negb (initialized this)); [left; reflexivity |].
  destruct (negb (string_truthy paymentId)); [left; reflexivity |].
  right. unfold bind, await_post_refund. cbv zeta.
  match goal with
  | |- context [client_post_refund ?u ?b ?h] =>
      exists (HttpPostRefund u b h);
      destruct (client_post_refund u b h) as [ok | error]
  end; cbn; [split; reflexivity |].
  destruct (isAxiosError error), (response error) as [resp |];
    try (split; reflexivity).
  destruct (data resp); split; reflexivity.
Qed.

(** X8: After [initialize], whatever the adapter was before, each of the
    three operations sends at most one request, however the network
    answers (there is no retry), and a request that is sent carries the
    key and the secret of the configuration just given and announces a
    JSON body. *)
Theorem operations_send_at_most_once_with_credentials
    (this : PaytechGateway) (c : GatewayConfig) (now : Z)
    (request : PaymentRequest) (paymentId : string) (amount : option number)
    (sent : list HttpCall) :
  let g := fst (initialize this c) in
  forall after,
    In after
      [snd (createPayment Number_toString JSON_stringify client_post_payment
              g now request sent);
       snd (verifyPayment client_get g paymentId sent);
       snd (refundPayment parseFloat client_post_refund g now paymentId
              amount sent)] ->
    after = sent
    \/ exists call,
         after = (sent ++ [call])%list
         /\ assoc "API_KEY" (call_headers call) = Some (gc_apiKey c)
         /\ assoc "API_SECRET" (call_headers call) = Some (gc_apiSecret c)
         /\ assoc "Content-Type" (call_headers call)
            = Some "application/json".
Proof.
  intros g after Hin.
  assert (H : sends_at_most_one g sent after).
  { cbn [In] in Hin. destruct Hin as [<- | [<- | [<- | []]]].
    - apply createPayment_sends_at_most_one.
    - apply verifyPayment_sends_at_most_one.
    - apply refundPayment_sends_at_most_one. }
  destruct H as [-> | (call & -> & Hh)]; [left; reflexivity |].
  right. exists call. rewrite Hh. repeat split.
Qed.

End AdapterFacts.

(* ================================================================== *)
(** * Further properties: webhooks and their signature *)
(* ================================================================== *)

(** A payload the validator takes for complete: truthy, with a truthy
    value for each required field. *)
Definition well_formed (payload : JsValue) : Prop :=
  truthy payload = true
  /\ forall field, In field requiredFields ->
                   truthy (js_get payload field) = true.

Lemma map_throwing_ext_in {A B : Type} (f g : A -> Completion B)
    (l : list A) :
  (forall x, In x l -> f x = g x) -> map_throwing f l = map_throwing g l.
Proof.
  induction l as [| a l IH]; intros H; [reflexivity |].
  cbn [map_throwing]. rewrite (H a (or_introl eq_refl)).
  rewrite IH; [reflexivity |]. intros x Hx. apply H. right. exact Hx.
Qed.

Lemma forallb_ext_in {A : Type} (f g : A -> bool) (l : list A) :
  (forall x, In x l -> f x = g x) -> forallb f l = forallb g l.
Proof.
  induction l as [| a l IH]; intros H; [reflexivity |].
  cbn [forallb]. rewrite (H a (or_introl eq_refl)).
  rewrite IH; [reflexivity |]. intros x Hx. apply H. right. exact Hx.
Qed.

Section SignatureFacts.

Variable Number_toString : number -> string.
Variable createHmac_sha256_hex : string -> string -> string.

Lemma supplied_signature_cases (headers : list (string * string)) :
  match opt_or (assoc "x-paytech-signature" headers)
               (assoc "X-Paytech-Signature" headers) with
  | Some signature =>
      if string_truthy signature
      then supplied_signature headers = Some signature
      else supplied_signature headers = None
  | None => supplied_signature headers = None
  end.
Proof.
  unfold supplied_signature, signature_headers, opt_or. cbn [find].
  destruct (assoc "x-paytech-signature" headers) as [lower |] eqn:Hl;
    destruct (assoc "X-Paytech-Signature" headers) as [upper |] eqn:Hu;
    cbn [opt_truthy];
    repeat match goal with
           | E : string_truthy ?x = _ |- context [string_truthy ?x] =>
               rewrite E
           | |- context [string_truthy ?x] =>
               destruct (string_truthy x) eqn:?
           end;
    rewrite ?Hl, ?Hu; try reflexivity; congruence.
Qed.

(** X9: The validator returns the valid verdict exactly when the
    payload is well formed and, if a secret that is not empty is
    configured, every value of the payload has a string and the first
    signature header with a value that is not empty holds the HMAC of
    the canonical form of the payload under that secret.  It throws
    exactly when the payload is well formed, such a secret is configured,
    such a header is there, and some value of the payload has no string.
    So with such a secret it never accepts a payload whose signature is
    missing or wrong; and a verdict it returns gives a reason exactly
    when it refuses. *)
Theorem validatePaytechWebhook_accepts_iff (payload : JsValue)
    (headers : list (string * string)) (webhookSecret : option string) :
  let outcome :=
    validatePaytechWebhook Number_toString createHmac_sha256_hex payload
      headers webhookSecret in
  (outcome = Returns valid <->
   well_formed payload
   /\ forall secret, webhookSecret = Some secret -> secret <> "" ->
        signable payload = true
        /\ supplied_signature headers
           = Some (createHmac_sha256_hex secret
                     (canonical_form Number_toString payload)))
  /\ ((exists error, outcome = Throws error) <->
      well_formed payload
      /\ signable payload = false
      /\ exists secret signature,
           webhookSecret = Some secret /\ secret <> ""
           /\ supplied_signature headers = Some signature)
  /\ (forall verdict, outcome = Returns verdict ->
        (isValid verdict = true <-> verdict = valid)
        /\ (reason verdict = None <-> isValid verdict = true)).
Proof.
  intros outcome. subst outcome.
  assert (Hv : forall why,
             (isValid (invalid why) = true <-> invalid why = valid)
             /\ (reason (invalid why) = None
                 <-> isValid (invalid why) = true))
    by (intros why; split; split; discriminate).
  assert (Hok : (isValid valid = true <-> valid = valid)
                /\ (reason valid = None <-> isValid valid = true))
    by (split; split; reflexivity).
  unfold validatePaytechWebhook, well_formed.
  destruct (truthy payload) eqn:Hp; cbn [negb].
  2:{ split; [| split].
      - split; [discriminate |]. intros [[H _] _]. discriminate H.
      - split; [intros [e H]; discriminate H |].
        intros [[H _] _]. discriminate H.
      - intros verdict H. injection H as <-. apply Hv. }
  rewrite for_requiredFields_find.
  destruct (find _ requiredFields) as [field |] eqn:Hf.
  { apply find_some in Hf. destruct Hf as [Hin Hfalsy].
    apply negb_true_iff in Hfalsy.
    split; [| split].
    - split; [discriminate |].
      intros [[_ H] _]. rewrite (H field Hin) in Hfalsy. discriminate Hfalsy.
    - split; [intros [e H]; discriminate H |].
      intros [[_ H] _]. rewrite (H field Hin) in Hfalsy. discriminate Hfalsy.
    - intros verdict H. injection H as <-. apply Hv. }
  assert (Hall : forall field, In field requiredFields ->
                   truthy (js_get payload field) = true).
  { intros field Hin. pose proof (find_none _ _ Hf field Hin) as H.
    apply negb_false_iff in H. exact H. }
  destruct webhookSecret as [secret |].
  2:{ split; [| split].
      - split; [| reflexivity]. intros _. split; [tauto |].
        intros s H. discriminate H.
      - split; [intros [e H]; discriminate H |].
        intros (_ & _ & s & g & H & _). discriminate H.
      - intros verdict H. injection H as <-. apply Hok. }
  destruct (string_truthy secret) eqn:Hts.
  2:{ unfold string_truthy in Hts. apply negb_false_iff in Hts.
      apply String.eqb_eq in Hts.
      split; [| split].
      - split; [| reflexivity]. intros _. split; [tauto |].
        intros s H. inversion H; subst s. congruence.
      - split; [intros [e H]; discriminate H |].
        intros (_ & _ & s & g & H & Hn & _). inversion H; subst s.
        congruence.
      - intros verdict H. injection H as <-. apply Hok. }
  assert (Hne : secret <> "").
  { unfold string_truthy in Hts. apply negb_true_iff in Hts.
    apply String.eqb_neq in Hts. exact Hts. }
  pose proof (supplied_signature_cases headers) as Hs.
  unfold verifyWebhookSignature.
  rewrite (createWebhookSignature_canonical Number_toString
             createHmac_sha256_hex payload secret Hp).
  remember (createHmac_sha256_hex secret
              (canonical_form Number_toString payload))
    as expected eqn:He.
  destruct (opt_or _ _) as [signature |].
  - destruct (string_truthy signature); cbn [negb].
    + destruct (signable payload) eqn:Hsg.
      * destruct (String.eqb_spec expected signature) as [E | N];
          cbn [negb].
        -- split; [| split].
           ++ split; [| reflexivity]. intros _. split; [tauto |].
              intros s H _. inversion H; subst s. split; [reflexivity |].
              rewrite Hs. congruence.
           ++ split; [intros [e H]; discriminate H |].
              intros (_ & H & _). discriminate H.
           ++ intros verdict H. injection H as <-. apply Hok.
        -- split; [| split].
           ++ split; [discriminate |].
              intros [_ H]. destruct (H secret eq_refl Hne) as [_ H'].
              rewrite Hs in H'. inversion H'. congruence.
           ++ split; [intros [e H]; discriminate H |].
              intros (_ & H & _). discriminate H.
           ++ intros verdict H. injection H as <-. apply Hv.
      * split; [| split].
        -- split; [discriminate |].
           intros [_ H]. destruct (H secret eq_refl Hne) as [H' _].
           discriminate H'.
        -- split; [| intros _; eexists; reflexivity].
           intros _. split; [tauto |]. split; [reflexivity |].
           exists secret, signature. repeat split; assumption.
        -- intros verdict H. discriminate H.
    + split; [| split].
      * split; [discriminate |].
        intros [_ H]. destruct (H secret eq_refl Hne) as [_ H'].
        rewrite Hs in H'. discriminate H'.
      * split; [intros [e H]; discriminate H |].
        intros (_ & _ & s & g & _ & _ & H). rewrite Hs in H. discriminate H.
      * intros verdict H. injection H as <-. apply Hv.
  - split; [| split].
    + split; [discriminate |].
      intros [_ H]. destruct (H secret eq_refl Hne) as [_ H'].
      rewrite Hs in H'. discriminate H'.
    + split; [intros [e H]; discriminate H |].
      intros (_ & _ & s & g & _ & _ & H). rewrite Hs in H. discriminate H.
    + intros verdict H. injection H as <-. apply Hv.
Qed.

Lemma verdict_without_secret (payload : JsValue) (headers : Headers)
    (secret : option string) :
  opt_truthy secret = false ->
  (exists verdict,
     validatePaytechWebhook Number_toString createHmac_sha256_hex payload
       headers secret
     = Returns verdict
     /\ (isValid verdict = true <-> well_formed payload))
  /\ validatePaytechWebhook Number_toString createHmac_sha256_hex payload
       headers secret
     = validatePaytechWebhook Number_toString createHmac_sha256_hex payload
         [] None.
Proof.
  intros Hs. unfold validatePaytechWebhook, well_formed.
  destruct (truthy payload) eqn:Hp; cbn [negb].
  2:{ split; [| reflexivity]. eexists. split; [reflexivity |].
      split; [discriminate |]. intros [H _]. discriminate H. }
  rewrite !for_requiredFields_find.
  destruct (find _ requiredFields) as [field |] eqn:Hf.
  { apply find_some in Hf. destruct Hf as [Hin Hfalsy].
    apply negb_true_iff in Hfalsy.
    split; [| reflexivity]. eexists. split; [reflexivity |].
    split; [discriminate |].
    intros [_ H]. rewrite (H field Hin) in Hfalsy. discriminate Hfalsy. }
  assert (Hall : forall field, In field requiredFields ->
                   truthy (js_get payload field) = true).
  { intros field Hin. pose proof (find_none _ _ Hf field Hin) as H.
    apply negb_false_iff in H. exact H. }
  destruct secret as [secret |]; cbn [opt_truthy] in Hs.
  - rewrite Hs. split; [| reflexivity]. eexists. split; [reflexivity |].
    split; [tauto | reflexivity].
  - split; [| reflexivity]. eexists. split; [reflexivity |].
    split; [tauto | reflexivity].
Qed.

(** X10: an adapter initialized with no webhook secret, or with an empty
    one, checks no signature: [validateWebhook] returns, it accepts
    exactly the well-formed payloads, and it completes the same way
    whatever the headers hold. *)
Theorem validateWebhook_without_secret (before : PaytechGateway)
    (c : GatewayConfig) (payload : JsValue) (headers : Headers) :
  opt_truthy (gc_webhookSecret c) = false ->
  let this := fst (initialize before c) in
  (exists verdict,
     validateWebhook Number_toString createHmac_sha256_hex this payload
       headers
     = Returns verdict
     /\ (isValid verdict = true <-> well_formed payload))
  /\ forall headers',
       validateWebhook Number_toString createHmac_sha256_hex this payload
         headers'
       = validateWebhook Number_toString createHmac_sha256_hex this payload
           headers.
Proof.
  intros Hs this. unfold validateWebhook. subst this.
  cbn [initialize fst config webhookSecret].
  split; [apply verdict_without_secret, Hs |].
  intros headers'.
  rewrite (proj2 (verdict_without_secret payload headers _ Hs)).
  apply verdict_without_secret, Hs.
Qed.

Lemma find_ext_in {A : Type} (f g : A -> bool) (l : list A) :
  (forall x, In x l -> f x = g x) -> find f l = find g l.
Proof.
  induction l as [| a l IH]; intros H; [reflexivity |].
  cbn [find]. rewrite (H a (or_introl eq_refl)).
  rewrite IH; [reflexivity |]. intros x Hx. apply H. right. exact Hx.
Qed.

(** What is done with an object depends on the object through three
    things only: its keys in ascending order and, key by key, whether
    the value is truthy and how printing it completes. *)
Lemma verdict_depends_on (props1 props2 : list (string * JsValue))
    (headers : list (string * string)) (webhookSecret : option string) :
  Array_sort (map fst props1) = Array_sort (map fst props2) ->
  (forall k, truthy (js_get (VObj props1) k)
             = truthy (js_get (VObj props2) k)) ->
  (forall k, js_toString Number_toString (js_get (VObj props1) k)
             = js_toString Number_toString (js_get (VObj props2) k)) ->
  validatePaytechWebhook Number_toString createHmac_sha256_hex (VObj props1)
    headers webhookSecret
  = validatePaytechWebhook Number_toString createHmac_sha256_hex
      (VObj props2) headers webhookSecret
  /\ forall secret,
       createWebhookSignature Number_toString createHmac_sha256_hex
         (VObj props1) secret
       = createWebhookSignature Number_toString createHmac_sha256_hex
           (VObj props2) secret.
Proof.
  intros Hk Hv Hs.
  assert (Hsig : forall secret,
             createWebhookSignature Number_toString createHmac_sha256_hex
               (VObj props1) secret
             = createWebhookSignature Number_toString createHmac_sha256_hex
                 (VObj props2) secret).
  { intros secret. unfold createWebhookSignature. cbn [Object_keys].
    rewrite Hk.
    rewrite (map_throwing_ext_in
               (fun key =>
                  match js_toString Number_toString
                          (js_get (VObj props1) key) with
                  | Throws error => Throws error
                  | Returns value => Returns (key ++ "=" ++ value)
                  end)
               (fun key =>
                  match js_toString Number_toString
                          (js_get (VObj props2) key) with
                  | Throws error => Throws error
                  | Returns value => Returns (key ++ "=" ++ value)
                  end));
      [reflexivity |].
    intros key _. rewrite Hs. reflexivity. }
  split; [| exact Hsig].
  unfold validatePaytechWebhook, verifyWebhookSignature.
  cbn [truthy negb]. rewrite !for_requiredFields_find.
  rewrite (find_ext_in
             (fun field => negb (truthy (js_get (VObj props1) field)))
             (fun field => negb (truthy (js_get (VObj props2) field))))
    by (intros k _; rewrite Hv; reflexivity).
  destruct (find _ requiredFields); [reflexivity |].
  destruct webhookSecret as [secret |]; [| reflexivity].
  rewrite (Hsig secret). reflexivity.
Qed.

Lemma assoc_permutation {A : Type} (k : string) (l1 l2 : list (string * A)) :
  NoDup (map fst l1) -> Permutation l1 l2 -> assoc k l1 = assoc k l2.
Proof.
  intros Hn Hp. induction Hp as [| [k' v] l l' Hp IH
                                 | [k1 v1] [k2 v2] l
                                 | l l' l'' Hp1 IH1 Hp2 IH2].
  - reflexivity.
  - cbn [assoc]. cbn [map fst] in Hn. inversion Hn; subst.
    rewrite IH by assumption. reflexivity.
  - cbn [assoc]. cbn [map fst] in Hn. inversion Hn as [| ? ? Hnot _]; subst.
    destruct (String.eqb_spec k1 k), (String.eqb_spec k2 k);
      try reflexivity.
    subst. exfalso. apply Hnot. left. reflexivity.
  - rewrite IH1 by assumption. apply IH2.
    apply (Permutation_NoDup (Permutation_map fst Hp1) Hn).
Qed.

Lemma sorted_permutation_unique (l1 l2 : list string) :
  StronglySorted (fun a b => String.leb a b = true) l1 ->
  StronglySorted (fun a b => String.leb a b = true) l2 ->
  Permutation l1 l2 -> l1 = l2.
Proof.
  revert l2. induction l1 as [| a l1 IH]; intros l2 H1 H2 Hp.
  - apply Permutation_nil in Hp. congruence.
  - destruct l2 as [| b l2].
    + apply Permutation_sym, Permutation_nil in Hp. discriminate Hp.
    + inversion H1 as [| ? ? S1 F1]; subst.
      inversion H2 as [| ? ? S2 F2]; subst.
      assert (E : a = b).
      { assert (Ha : In a (b :: l2))
          by (apply (Permutation_in a Hp); left; reflexivity).
        assert (Hb : In b (a :: l1))
          by (apply (Permutation_in b (Permutation_sym Hp)); left;
              reflexivity).
        destruct Ha as [Ha | Ha]; [congruence |].
        destruct Hb as [Hb | Hb]; [congruence |].
        rewrite Forall_forall in F1, F2.
        apply String.leb_antisym; [apply F1, Hb | apply F2, Ha]. }
      subst b. f_equal. apply IH; try assumption.
      apply (Permutation_cons_inv Hp).
Qed.

Lemma Array_sort_permutation (l1 l2 : list string) :
  Permutation l1 l2 -> Array_sort l1 = Array_sort l2.
Proof.
  intros Hp. unfold Array_sort.
  apply sorted_permutation_unique.
  - apply (StringSort.StronglySorted_sort l1). intros a b c.
    apply string_leb_trans.
  - apply (StringSort.StronglySorted_sort l2). intros a b c.
    apply string_leb_trans.
  - eapply Permutation_trans;
      [apply Permutation_sym, StringSort.Permuted_sort |].
    eapply Permutation_trans; [exact Hp | apply StringSort.Permuted_sort].
Qed.

(** X11: The order in which a payload lists its fields is of no
    account: two objects with the same properties in different orders
    get the same signature, or the same error in place of one, and the
    validator completes the same way on both. *)
Theorem validation_ignores_key_order (props1 props2 : list (string * JsValue))
    (headers : list (string * string)) (webhookSecret : option string)
    (secret : string) :
  NoDup (map fst props1) ->
  Permutation props1 props2 ->
  createWebhookSignature Number_toString createHmac_sha256_hex (VObj props1)
    secret
  = createWebhookSignature Number_toString createHmac_sha256_hex
      (VObj props2) secret
  /\ validatePaytechWebhook Number_toString createHmac_sha256_hex
       (VObj props1) headers webhookSecret
     = validatePaytechWebhook Number_toString createHmac_sha256_hex
         (VObj props2) headers webhookSecret.
Proof.
  intros Hn Hp.
  assert (Hget : forall k, js_get (VObj props1) k = js_get (VObj props2) k).
  { intros k. cbn [js_get]. rewrite (assoc_permutation k props1 props2 Hn Hp).
    reflexivity. }
  destruct (verdict_depends_on props1 props2 headers webhookSecret)
    as [Hv Hs].
  - apply Array_sort_permutation, Permutation_map, Hp.
  - intros k. rewrite Hget. reflexivity.
  - intros k. rewrite Hget. reflexivity.
  - split; [apply Hs | exact Hv].
Qed.

(** Two properties that agree outside nested objects: the same key, and
    the same value unless both values are objects, which then both own a
    property named [toString] or both own none. *)
Definition same_outside_objects (p q : string * JsValue) : Prop :=
  fst p = fst q
  /\ (snd p = snd q
      \/ exists o1 o2,
           snd p = VObj o1 /\ snd q = VObj o2
           /\ printable (VObj o1) = printable (VObj o2)).

Lemma same_outside_objects_get (props1 props2 : list (string * JsValue)) :
  Forall2 same_outside_objects props1 props2 ->
  map fst props1 = map fst props2
  /\ forall k,
       truthy (js_get (VObj props1) k) = truthy (js_get (VObj props2) k)
       /\ js_toString Number_toString (js_get (VObj props1) k)
          = js_toString Number_toString (js_get (VObj props2) k).
Proof.
  induction 1 as [| [k1 v1] [k2 v2] l1 l2 [Hk Hv] _ [IHk IHv]].
  - split; [reflexivity |]. intros k. split; reflexivity.
  - cbn [fst snd] in Hk, Hv. subst k2. split.
    + cbn [map fst]. rewrite IHk. reflexivity.
    + intros k. cbn [js_get assoc]. destruct (k1 =? k).
      * destruct Hv as [-> | (o1 & o2 & -> & -> & Ho)];
          split; try reflexivity.
        rewrite !(js_toString_printed Number_toString), Ho.
        reflexivity.
      * exact (IHv k).
Qed.

(** X12: The signature does not cover what is inside a nested object,
    such as [customer_info], beyond one thing: whether the object owns a
    property named [toString].  An object that owns none prints as
    [[object Object]] in the canonical form, whatever it holds, and one
    that owns one makes signing throw.  Payloads that differ only inside
    nested objects, without differing in that, get the same signature,
    or the same error in place of one, and the validator completes the
    same way on both. *)
Theorem validation_ignores_nested_objects
    (props1 props2 : list (string * JsValue))
    (headers : list (string * string)) (webhookSecret : option string)
    (secret : string) :
  Forall2 same_outside_objects props1 props2 ->
  createWebhookSignature Number_toString createHmac_sha256_hex (VObj props1)
    secret
  = createWebhookSignature Number_toString createHmac_sha256_hex
      (VObj props2) secret
  /\ validatePaytechWebhook Number_toString createHmac_sha256_hex
       (VObj props1) headers webhookSecret
     = validatePaytechWebhook Number_toString createHmac_sha256_hex
         (VObj props2) headers webhookSecret.
Proof.
  intros H. destruct (same_outside_objects_get props1 props2 H) as [Hk Hg].
  destruct (verdict_depends_on props1 props2 headers webhookSecret)
    as [Hv Hs].
  - rewrite Hk. reflexivity.
  - intros k. apply Hg.
  - intros k. apply Hg.
  - split; [apply Hs | exact Hv].
Qed.

(** X13: Signing and checking agree: when [createWebhookSignature]
    returns a signature for a well-formed payload under the configured
    secret, the payload sent with that signature, in either spelling of
    the header, is accepted.  When it throws instead, the validator
    throws the same error on that payload, whatever signature is sent
    with it. *)
Theorem signed_payload_is_accepted (payload : JsValue) (secret : string)
    (name : string) (supplied : string) :
  well_formed payload ->
  secret <> "" ->
  In name signature_headers ->
  supplied <> "" ->
  match createWebhookSignature Number_toString createHmac_sha256_hex payload
          secret with
  | Returns signature =>
      signature <> "" ->
      validatePaytechWebhook Number_toString createHmac_sha256_hex payload
        [(name, signature)] (Some secret)
      = Returns valid
  | Throws error =>
      validatePaytechWebhook Number_toString createHmac_sha256_hex payload
        [(name, supplied)] (Some secret)
      = Throws error
  end.
Proof.
  intros [Hp Hall] Hne Hin Hsup.
  assert (Hrun : forall sent, sent <> "" ->
            validatePaytechWebhook Number_toString createHmac_sha256_hex
              payload [(name, sent)] (Some secret)
            = match createWebhookSignature Number_toString
                      createHmac_sha256_hex payload secret with
              | Throws error => Throws error
              | Returns expected =>
                  if expected =? sent then Returns valid
                  else Returns (invalid "Invalid signature")
              end).
  { intros sent Hsent.
    unfold validatePaytechWebhook. rewrite Hp. cbn [negb].
    rewrite for_requiredFields_find.
    destruct (find _ requiredFields) as [field |] eqn:Hf.
    { apply find_some in Hf. destruct Hf as [Hi Hfalsy].
      rewrite (Hall field Hi) in Hfalsy. discriminate Hfalsy. }
    unfold string_truthy at 1. apply String.eqb_neq in Hne. rewrite Hne.
    cbn [negb].
    assert (Ht : string_truthy sent = true).
    { unfold string_truthy. apply String.eqb_neq in Hsent. rewrite Hsent.
      reflexivity. }
    unfold verifyWebhookSignature.
    cbn [In signature_headers] in Hin.
    destruct Hin as [<- | [<- | []]]; cbn [assoc String.eqb Ascii.eqb
                                           Bool.eqb opt_or opt_truthy];
      unfold opt_or; cbn [assoc String.eqb Ascii.eqb Bool.eqb opt_truthy];
      rewrite ?Ht; cbn [negb];
      destruct (createWebhookSignature _ _ _ _) as [expected | error];
      try reflexivity;
      destruct (expected =? sent); reflexivity. }
  destruct (createWebhookSignature Number_toString createHmac_sha256_hex
              payload secret) as [signature | error] eqn:E.
  - intros Hsig. rewrite (Hrun signature Hsig), String.eqb_refl.
    reflexivity.
  - rewrite (Hrun supplied Hsup). reflexivity.
Qed.

Lemma join_last_two (sep : string) (l : list string) (x y : string) :
  join sep (l ++ [x; y]) = join sep (l ++ [x ++ sep ++ y]).
Proof.
  induction l as [| a l IH]; [reflexivity |].
  change ((a :: l) ++ [x; y])%list with (a :: (l ++ [x; y]))%list.
  change ((a :: l) ++ [(x ++ sep ++ y)%string])%list
    with (a :: (l ++ [(x ++ sep ++ y)%string]))%list.
  destruct l as [| b l]; [reflexivity |].
  cbn [app join] in *. rewrite IH. reflexivity.
Qed.

Lemma assoc_app_in {A : Type} (k : string) (l1 l2 : list (string * A)) :
  In k (map fst l1) -> assoc k (l1 ++ l2) = assoc k l1.
Proof.
  induction l1 as [| [k' v] l1 IH]; cbn [map fst In assoc app];
    [intros [] |].
  intros [-> | H].
  - rewrite String.eqb_refl. reflexivity.
  - destruct (k' =? k); [reflexivity | apply IH, H].
Qed.

Lemma assoc_app_notin {A : Type} (k : string) (l1 l2 : list (string * A)) :
  ~ In k (map fst l1) -> assoc k (l1 ++ l2) = assoc k l2.
Proof.
  induction l1 as [| [k' v] l1 IH]; cbn [map fst In assoc app];
    [reflexivity |].
  intros H. destruct (String.eqb_spec k' k) as [-> | _].
  - exfalso. apply H. left. reflexivity.
  - apply IH. intros Hin. apply H. right. exact Hin.
Qed.

Lemma sorted_keys_stay (keys : list string) :
  StronglySorted (fun a b => String.ltb a b = true) keys ->
  Array_sort keys = keys
  /\ NoDup keys.
Proof.
  intros Hs. split.
  - unfold Array_sort. apply sorted_permutation_unique.
    + apply (StringSort.StronglySorted_sort keys). intros a b c.
      apply string_leb_trans.
    + clear -Hs. induction Hs as [| a l _ IH F]; constructor;
        [exact IH |].
      rewrite Forall_forall in *. intros b Hb. specialize (F b Hb).
      unfold String.ltb in F. unfold String.leb.
      destruct (String.compare a b); congruence.
    + apply Permutation_sym, StringSort.Permuted_sort.
  - induction Hs as [| a l _ IH F]; constructor; [| exact IH].
    intros Hin. rewrite Forall_forall in F. specialize (F a Hin).
    unfold String.ltb in F.
    assert (E : String.compare a a = Eq).
    { pose proof (String.compare_antisym a a) as H.
      destruct (String.compare a a); cbn in H; congruence. }
    rewrite E in F. discriminate F.
Qed.

(** X14: The canonical form joins keys and values with [=] and [&] and
    escapes neither, so it does not tell where a value ends: a payload
    whose last field [k] holds [v&k'=v'] gets the signature of the payload
    in which [k] holds [v] and a further field [k'] holds [v'] (or, when
    a value of the fields they share has no string, the same error). *)
Theorem signature_does_not_delimit_fields
    (props : list (string * JsValue)) (k k' v v' secret : string) :
  StronglySorted (fun a b => String.ltb a b = true)
    (map fst props ++ [k; k']) ->
  createWebhookSignature Number_toString createHmac_sha256_hex
    (VObj (props ++ [(k, VStr (v ++ "&" ++ k' ++ "=" ++ v'))])) secret
  = createWebhookSignature Number_toString createHmac_sha256_hex
      (VObj (props ++ [(k, VStr v); (k', VStr v')])) secret.
Proof.
  intros Hs.
  destruct (sorted_keys_stay _ Hs) as [Hsort Hnd].
  assert (Hs1 : StronglySorted (fun a b => String.ltb a b = true)
                  (map fst props ++ [k])).
  { clear -Hs. induction (map fst props) as [| a l IH]; cbn [app] in *.
    - inversion Hs; subst. constructor; [constructor | constructor].
    - inversion Hs as [| ? ? S F]; subst. constructor; [apply IH, S |].
      rewrite Forall_forall in *. intros b Hb. apply F.
      apply in_app_or in Hb. apply in_or_app.
      destruct Hb as [Hb | Hb]; [left; exact Hb | right].
      destruct Hb as [<- | []]. left. reflexivity. }
  destruct (sorted_keys_stay _ Hs1) as [Hsort1 Hnd1].
  assert (Hk : ~ In k (map fst props)).
  { intros Hin. apply NoDup_remove_2 in Hnd1. apply Hnd1.
    rewrite List.app_nil_r. exact Hin. }
  assert (Hk' : ~ In k' (map fst props) /\ k <> k').
  { replace (map fst props ++ [k; k'])%list
      with ((map fst props ++ [k]) ++ k' :: [])%list in Hnd
      by (rewrite <- List.app_assoc; reflexivity).
    apply NoDup_remove_2 in Hnd. rewrite List.app_nil_r in Hnd. split.
    - intros Hin. apply Hnd, in_or_app. left. exact Hin.
    - intros ->. apply Hnd, in_or_app. right. left. reflexivity. }
  destruct Hk' as [Hk' Hkk'].
  assert (Hsame : forall key, In key (map fst props) ->
            js_get (VObj (props ++ [(k, VStr (v ++ "&" ++ k' ++ "=" ++ v'))]))
              key
            = js_get (VObj (props ++ [(k, VStr v); (k', VStr v')])) key).
  { intros key Hin. cbn [js_get]. rewrite !assoc_app_in by exact Hin.
    reflexivity. }
  rewrite !(createWebhookSignature_canonical Number_toString
              createHmac_sha256_hex) by reflexivity.
  assert (Hsg :
    signable (VObj (props ++ [(k, VStr (v ++ "&" ++ k' ++ "=" ++ v'))]))
    = signable (VObj (props ++ [(k, VStr v); (k', VStr v')]))).
  { unfold signable. cbn [Object_keys]. rewrite !map_app.
    rewrite !forallb_app. cbn [map fst forallb].
    rewrite (forallb_ext_in _
               (fun key =>
                  printable
                    (js_get (VObj (props ++ [(k, VStr v); (k', VStr v')]))
                       key)) (map fst props))
      by (intros key Hin; rewrite (Hsame key Hin); reflexivity).
    f_equal. cbn [js_get]. rewrite !assoc_app_notin by assumption.
    cbn [assoc]. rewrite !String.eqb_refl.
    apply String.eqb_neq in Hkk'. rewrite Hkk'. reflexivity. }
  rewrite Hsg. clear Hsg. destruct (signable _); [| reflexivity].
  f_equal. f_equal. unfold canonical_form.
  cbn [Object_keys]. rewrite !map_app. cbn [map fst].
  rewrite Hsort, Hsort1. rewrite !map_app. cbn [map].
  rewrite join_last_two.
  rewrite (map_ext_in _
             (fun key =>
                key ++ "="
                ++ printed Number_toString
                     (js_get (VObj (props ++ [(k, VStr v); (k', VStr v')]))
                        key)))
    by (intros key Hin; rewrite (Hsame key Hin); reflexivity).
  f_equal. f_equal.
  cbn [js_get]. rewrite !assoc_app_notin by assumption.
  cbn [assoc]. rewrite !String.eqb_refl.
  apply String.eqb_neq in Hkk'. rewrite Hkk'. cbn [printed].
  f_equal. rewrite !append_assoc_s. reflexivity.
Qed.

End SignatureFacts.

(* ================================================================== *)
(** * Further properties: references *)
(* ================================================================== *)

Definition all_digits (s : string) : bool :=
  forallb is_digit (list_ascii_of_string s).

Definition dash : ascii := Eval cbv in ascii_of_nat 45.

Lemma append_inv_head (p a b : string) : p ++ a = p ++ b -> a = b.
Proof.
  induction p as [| c p IH]; cbn; intros H; [exact H |].
  injection H as H. exact (IH H).
Qed.

Lemma all_digits_app (a b : string) :
  all_digits (a ++ b) = all_digits a && all_digits b.
Proof.
  unfold all_digits. induction a as [| c a IH]; cbn; [reflexivity |].
  rewrite IH. apply andb_assoc.
Qed.

Lemma all_digits_uint (d : Decimal.uint) :
  all_digits (NilEmpty.string_of_uint d) = true.
Proof.
  unfold all_digits. induction d; cbn; auto.
Qed.

Lemma all_digits_zeros (k : nat) : all_digits (repeat_string k "0") = true.
Proof.
  unfold all_digits. induction k as [| k IH]; cbn; auto.
Qed.

Lemma length_zeros (k : nat) : String.length (repeat_string k "0") = k.
Proof.
  induction k as [| k IH]; cbn; congruence.
Qed.

Lemma substring_all (s : string) : substring 0 (String.length s) s = s.
Proof.
  induction s as [| c s IH]; cbn; congruence.
Qed.

Lemma padStart_zeros (t : nat) (s : string) :
  padStart t "0" s = repeat_string (t - String.length s) "0" ++ s.
Proof.
  unfold padStart. destruct (t <=? String.length s)%nat eqn:E.
  - apply Nat.leb_le in E. replace (t - String.length s)%nat with 0%nat by lia.
    reflexivity.
  - cbn [String.eqb]. change ("0" =? "") with false. cbv iota.
    cbv zeta.
    rewrite <- (length_zeros (t - String.length s)) at 1.
    rewrite substring_all. reflexivity.
Qed.

(** The text of a number that is not negative is its decimal numeral. *)
Lemma number_toString_nonneg (z : Z) :
  (0 <= z)%Z ->
  number_toString (Num z) = NilZero.string_of_uint (N.to_uint (Z.to_N z)).
Proof.
  intros H. unfold number_toString.
  destruct z as [| p | p]; [reflexivity | reflexivity | lia].
Qed.

Lemma length_string_of_uint (d : Decimal.uint) :
  String.length (NilEmpty.string_of_uint d) = Decimal.nb_digits d.
Proof.
  induction d; cbn; congruence.
Qed.

(** The number a run of zeros followed by a numeral stands for. *)
Definition numeral_value (s : string) : option N :=
  option_map N.of_uint (NilEmpty.uint_of_string s).

Lemma numeral_value_zero (r : string) :
  numeral_value (String "0" r) = numeral_value r.
Proof.
  unfold numeral_value. cbn [NilEmpty.uint_of_string].
  destruct (NilEmpty.uint_of_string r); reflexivity.
Qed.

Lemma numeral_value_zeros (k : nat) (s : string) :
  numeral_value (repeat_string k "0" ++ s) = numeral_value s.
Proof.
  induction k as [| k IH]; [reflexivity |].
  change (repeat_string (S k) "0" ++ s)
    with (String "0" (repeat_string k "0" ++ s)).
  rewrite numeral_value_zero. exact IH.
Qed.

Lemma numeral_value_to_uint (n : N) :
  numeral_value (NilEmpty.string_of_uint (N.to_uint n)) = Some n.
Proof.
  unfold numeral_value. rewrite NilEmpty.usu. cbn.
  rewrite DecimalN.Unsigned.of_to. reflexivity.
Qed.

Lemma random_part (draw : Z) :
  (0 <= draw)%Z ->
  exists k,
    padStart 6 "0" (number_toString (Num draw)) =
    repeat_string k "0" ++ NilEmpty.string_of_uint (N.to_uint (Z.to_N draw)).
Proof.
  intros H. rewrite padStart_zeros, number_toString_nonneg by exact H.
  rewrite string_of_uint_nonnil by apply to_uint_nonnil.
  eexists. reflexivity.
Qed.

Lemma random_part_value (draw : Z) :
  (0 <= draw)%Z ->
  numeral_value (padStart 6 "0" (number_toString (Num draw))) =
  Some (Z.to_N draw).
Proof.
  intros H. destruct (random_part draw H) as [k ->].
  rewrite numeral_value_zeros. apply numeral_value_to_uint.
Qed.

Lemma random_part_digits (draw : Z) :
  (0 <= draw)%Z ->
  all_digits (padStart 6 "0" (number_toString (Num draw))) = true.
Proof.
  intros H. destruct (random_part draw H) as [k ->].
  rewrite all_digits_app, all_digits_zeros, all_digits_uint. reflexivity.
Qed.

(** The text of an integer determines the integer. *)
Lemma number_toString_inj (a b : Z) :
  number_toString (Num a) = number_toString (Num b) -> a = b.
Proof.
  unfold number_toString. intros H.
  assert (Hn : forall z,
             NilZero.int_of_string (NilZero.string_of_int (Z.to_int z))
             = Some (Z.to_int z)).
  { intros z. apply NilZero.isi; destruct z as [| p | p]; cbn; try discriminate;
      intros E; injection E as E;
      exact (DecimalPos.Unsigned.to_uint_nonnil _ E). }
  pose proof (Hn a) as Ha. rewrite H, Hn in Ha. injection Ha as Ha.
  rewrite <- (DecimalZ.of_to a), <- (DecimalZ.of_to b). congruence.
Qed.

(** Two texts [t ++ "-" ++ r] with no dash in [r] split the same way. *)
Lemma split_at_last_dash (t1 t2 r1 r2 : string) :
  all_digits r1 = true -> all_digits r2 = true ->
  t1 ++ String dash r1 = t2 ++ String dash r2 ->
  t1 = t2 /\ r1 = r2.
Proof.
  intros H1 H2.
  assert (Hnd : forall r, all_digits r = true ->
              forall t r', r = t ++ String dash r' -> False).
  { intros r. induction r as [| c r IH]; intros Hr t r' E.
    - destruct t; discriminate E.
    - unfold all_digits in Hr. cbn in Hr. apply andb_prop in Hr as [Hc Hr].
      destruct t as [| c' t]; cbn in E; injection E as Ec Er.
      + subst c. discriminate Hc.
      + exact (IH Hr t r' Er). }
  revert t2. induction t1 as [| c t1 IH]; intros t2 E.
  - destruct t2 as [| c' t2]; cbn in E.
    + injection E as E. split; [reflexivity | exact E].
    + injection E as Ec Er. exfalso. exact (Hnd r1 H1 t2 r2 Er).
  - destruct t2 as [| c' t2]; cbn in E.
    + injection E as Ec Er. exfalso. exact (Hnd r2 H2 t1 r1 (eq_sym Er)).
    + injection E as Ec Er. destruct (IH t2 Er) as [-> ->]. subst c'.
      split; reflexivity.
Qed.

(** The number of digits of a numeral bounds the number from below. *)
Lemma of_uint_acc_lower (d : Decimal.uint) (acc : positive) :
  (Npos acc * 10 ^ N.of_nat (Decimal.nb_digits d)
   <= Npos (Pos.of_uint_acc d acc))%N.
Proof.
  rewrite DecimalPos.Unsigned.of_uint_acc_rev.
  replace (DecimalPos.Unsigned.usize d) with (N.of_nat (Decimal.nb_digits d)).
  - lia.
  - induction d; cbn [DecimalPos.Unsigned.usize Decimal.nb_digits]; lia.
Qed.

Lemma to_uint_head (n : N) :
  N.to_uint n = Decimal.D0 Decimal.Nil \/
  exists l, (N.to_uint n = Decimal.D1 l \/ N.to_uint n = Decimal.D2 l \/
             N.to_uint n = Decimal.D3 l \/ N.to_uint n = Decimal.D4 l \/
             N.to_uint n = Decimal.D5 l \/ N.to_uint n = Decimal.D6 l \/
             N.to_uint n = Decimal.D7 l \/ N.to_uint n = Decimal.D8 l \/
             N.to_uint n = Decimal.D9 l).
Proof.
  pose proof (DecimalN.Unsigned.to_of (N.to_uint n)) as H.
  rewrite DecimalN.Unsigned.of_to in H.
  pose proof (to_uint_nonnil n) as Hn.
  destruct (N.to_uint n) as [| l | l | l | l | l | l | l | l | l | l] eqn:E;
    try contradiction; try (right; exists l; tauto).
  destruct l as [| l | l | l | l | l | l | l | l | l | l];
    [left; reflexivity | ..];
    exfalso;
    match type of H with
    | Decimal.D0 ?u = _ =>
        pose proof (DecimalFacts.nb_digits_unorm u ltac:(discriminate)) as Hl;
        change (Decimal.unorm (Decimal.D0 u)) with (Decimal.unorm u) in H;
        rewrite <- H in Hl; cbn [Decimal.nb_digits] in Hl; lia
    end.
Qed.

(** A number below [10 ^ k] is written with at most [k] digits. *)
Lemma nb_digits_to_uint (n : N) (k : nat) :
  (0 < k)%nat -> (n < 10 ^ N.of_nat k)%N ->
  (Decimal.nb_digits (N.to_uint n) <= k)%nat.
Proof.
  intros Hk Hn.
  pose proof (DecimalN.Unsigned.of_to n) as Hv.
  destruct (to_uint_head n) as [E | [l E]].
  - rewrite E. cbn. lia.
  - assert (Hl : (10 ^ N.of_nat (Decimal.nb_digits l) <= n)%N).
    { destruct E as [E | [E | [E | [E | [E | [E | [E | [E | E]]]]]]]];
        rewrite E in Hv; cbn [N.of_uint Pos.of_uint] in Hv;
        match type of Hv with
        | N.pos (Pos.of_uint_acc l ?a) = _ =>
            pose proof (of_uint_acc_lower l a) as Hb
        end;
        rewrite Hv in Hb;
        assert (0 < 10 ^ N.of_nat (Decimal.nb_digits l))%N
          by (apply N.neq_0_lt_0, N.pow_nonzero; discriminate);
        nia. }
    assert (Hlt : (N.of_nat (Decimal.nb_digits l) < N.of_nat k)%N).
    { apply (N.pow_lt_mono_r_iff 10); [reflexivity |]. lia. }
    destruct E as [E | [E | [E | [E | [E | [E | [E | [E | E]]]]]]]];
      rewrite E; cbn [Decimal.nb_digits]; lia.
Qed.

(** X15: [generateReference] writes the prefix, the time and the draw, each
    after a dash; the draw takes exactly six digits and reads back as the
    number drawn. *)
Theorem generateReference_format (now draw : Z) (prefix : option string) :
  (0 <= draw < 1000000)%Z ->
  exists random,
    generateReference now draw prefix =
      match prefix with Some p => p | None => "PAY" end
      ++ "-" ++ number_toString (Num now) ++ "-" ++ random /\
    String.length random = 6%nat /\
    all_digits random = true /\
    numeral_value random = Some (Z.to_N draw).
Proof.
  intros [H0 H1]. exists (padStart 6 "0" (number_toString (Num draw))).
  split; [reflexivity |]. split; [| split].
  - rewrite padStart_zeros, length_append, length_zeros.
    rewrite number_toString_nonneg by exact H0.
    rewrite string_of_uint_nonnil by apply to_uint_nonnil.
    rewrite length_string_of_uint.
    assert ((Decimal.nb_digits (N.to_uint (Z.to_N draw)) <= 6)%nat).
    { apply nb_digits_to_uint; [lia |].
      change (10 ^ N.of_nat 6)%N with 1000000%N. lia. }
    lia.
  - apply random_part_digits, H0.
  - apply random_part_value, H0.
Qed.

(** X16: for one prefix, two references are equal exactly when they were
    made at the same time with the same draw. *)
Theorem generateReference_injective
    (now1 now2 draw1 draw2 : Z) (prefix : option string) :
  (0 <= draw1)%Z -> (0 <= draw2)%Z ->
  generateReference now1 draw1 prefix = generateReference now2 draw2 prefix
  <-> now1 = now2 /\ draw1 = draw2.
Proof.
  intros H1 H2. split; [| intros [-> ->]; reflexivity].
  intros E. unfold generateReference in E. cbv zeta in E.
  apply append_inv_head in E.
  change ("-" ++ ?x) with (String dash x) in E.
  injection E as E.
  apply split_at_last_dash in E;
    [| apply random_part_digits; assumption ..].
  destruct E as [Et Er]. split.
  - apply number_toString_inj, Et.
  - pose proof (random_part_value draw1 H1) as V1.
    pose proof (random_part_value draw2 H2) as V2.
    assert (V : Some (Z.to_N draw1) = Some (Z.to_N draw2))
      by (rewrite <- V1, <- V2; f_equal; exact Er).
    injection V as V. lia.
Qed.

(* ================================================================== *)
(** * Further properties: the mappers and the currency check *)
(* ================================================================== *)

Section MapperComposition.

Variable Number_toString : number -> string.
Variable JSON_stringify : JsValue -> Completion (option string).
Variable JSON_parse : string -> option JsValue.
Variable parseFloat : string -> number.

(** X17: a status string means the same in a webhook as in an answer to
    a status check that did not fail. *)
Theorem webhook_status_agrees_with_polling (now : Z)
    (payload : PaytechWebhookPayload) (statusResponse : PaytechStatusResponse) :
  psr_success statusResponse <> 0%Z ->
  psr_status statusResponse = Some (wh_status payload) ->
  ev_status (ev_data (mapFromPaytechWebhook JSON_parse parseFloat now payload))
  = mapPaytechStatus statusResponse.
Proof.
  intros Hs Hst. apply Z.eqb_neq in Hs.
  unfold mapPaytechStatus, mapFromPaytechWebhook. cbn [ev_data ev_status].
  rewrite Hs, Hst. reflexivity.
Qed.

(** X18: The metadata of a request reaches the webhook event through
    JSON alone.  When [JSON.stringify] returns a text that is not empty
    for the metadata, the request mapper returns with that text as the
    custom field; and when a webhook sends the custom field back
    unchanged, the metadata of the event is what [JSON.parse] returns for
    the text, or [{raw: text}] when it throws.  So the event carries the
    metadata of the request exactly when [JSON.parse] reads the text back
    as it. *)
Theorem metadata_reaches_the_webhook_event (request : PaymentRequest)
    (e : Environment) (m : list (string * JsValue)) (text : string) (now : Z)
    (payload : PaytechWebhookPayload) :
  metadata request = Some m ->
  JSON_stringify (VObj m) = Returns (Some text) ->
  text <> "" ->
  exists wire,
    mapToPaytechRequest Number_toString JSON_stringify request e
    = Returns wire
    /\ custom_field wire = Some text
    /\ (wh_custom_field payload = custom_field wire ->
        let received :=
          ev_metadata
            (ev_data
               (mapFromPaytechWebhook JSON_parse parseFloat now payload)) in
        (forall parsed, JSON_parse text = Some parsed -> received = parsed)
        /\ (JSON_parse text = None -> received = VObj [("raw", VStr text)])
        /\ (received = VObj m <->
            JSON_parse text = Some (VObj m)
            \/ (JSON_parse text = None /\ m = [("raw", VStr text)]))).
Proof.
  intros Hm Ht Hne.
  unfold mapToPaytechRequest. rewrite Hm, Ht.
  eexists. split; [reflexivity |]. cbn [custom_field].
  split; [reflexivity |].
  intros Hc. cbv zeta.
  unfold mapFromPaytechWebhook. cbn [ev_data ev_metadata].
  rewrite Hc.
  assert (Htr : string_truthy text = true).
  { unfold string_truthy. apply String.eqb_neq in Hne. rewrite Hne.
    reflexivity. }
  rewrite Htr.
  destruct (JSON_parse text) as [parsed |].
  - split; [intros ? E; injection E as <-; reflexivity |].
    split; [discriminate |].
    split.
    + intros ->. left. reflexivity.
    + intros [E | [E _]]; [injection E as ->; reflexivity | discriminate E].
  - split; [discriminate |].
    split; [reflexivity |].
    split.
    + intros E. right. split; [reflexivity |]. injection E as <-.
      reflexivity.
    + intros [E | [_ ->]]; [discriminate E | reflexivity].
Qed.

End MapperComposition.

Lemma upper_lower_char (c : ascii) : upper_char (lower_char c) = upper_char c.
Proof.
  destruct c as [[] [] [] [] [] [] [] []]; vm_compute; reflexivity.
Qed.

Lemma toUpperCase_toLowerCase (s : string) :
  toUpperCase (toLowerCase s) = toUpperCase s.
Proof.
  induction s as [| c s IH]; cbn; [reflexivity |].
  rewrite upper_lower_char, IH. reflexivity.
Qed.

Lemma upper_upper_char (c : ascii) : upper_char (upper_char c) = upper_char c.
Proof.
  destruct c as [[] [] [] [] [] [] [] []]; vm_compute; reflexivity.
Qed.

Lemma toUpperCase_idempotent (s : string) :
  toUpperCase (toUpperCase s) = toUpperCase s.
Proof.
  induction s as [| c s IH]; cbn; [reflexivity |].
  rewrite upper_upper_char, IH. reflexivity.
Qed.

(** X19: the currency check does not see letter case: two codes that
    differ only in case are accepted or refused together, and a code is
    accepted with its upper-case and its lower-case form. *)
Theorem isValidPaytechCurrency_ignores_case (a b : string) :
  toLowerCase a = toLowerCase b ->
  isValidPaytechCurrency a = isValidPaytechCurrency b
  /\ isValidPaytechCurrency (toUpperCase a) = isValidPaytechCurrency a
  /\ isValidPaytechCurrency (toLowerCase a) = isValidPaytechCurrency a.
Proof.
  intros H. unfold isValidPaytechCurrency.
  rewrite toUpperCase_idempotent, toUpperCase_toLowerCase.
  repeat split.
  rewrite <- (toUpperCase_toLowerCase a), <- (toUpperCase_toLowerCase b), H.
  reflexivity.
Qed.

(* ================================================================== *)
(** * Further properties: initialization and the facade *)
(* ================================================================== *)

(** X20: [initialize] resolves to [true] and replaces the whole state
    of the adapter by one that depends on the configuration alone.  The
    time-out it stores, and sets on the client, is the one of the
    additional configuration when that is truthy, whatever its type, and
    10000 otherwise (none, zero, NaN, an empty string, [false]), so it is
    never falsy.  The merchant id and the three default URLs are stored as
    the additional configuration gives them, whatever their type. *)
Theorem initialize_replaces_the_state (this : PaytechGateway)
    (c : GatewayConfig) :
  let after := fst (initialize this c) in
  let given := additional c "timeout" in
  snd (initialize this c) = true
  /\ after = fst (initialize new_PaytechGateway c)
  /\ initialized after = true
  /\ (truthy given = true -> timeout (config after) = given)
  /\ (truthy given = false -> timeout (config after) = VNum (Num 10000))
  /\ truthy (timeout (config after)) = true
  /\ client_timeout after = timeout (config after)
  /\ merchantId (config after) = additional c "merchantId"
  /\ defaultIpnUrl (config after) = additional c "defaultIpnUrl"
  /\ defaultSuccessUrl (config after) = additional c "defaultSuccessUrl"
  /\ defaultCancelUrl (config after) = additional c "defaultCancelUrl".
Proof.
  intros after given. subst after given. unfold initialize.
  cbn [fst snd config timeout client_timeout initialized merchantId
       defaultIpnUrl defaultSuccessUrl defaultCancelUrl].
  unfold timeout_or_default.
  destruct (truthy (additional c "timeout")) eqn:E.
  - repeat split; try discriminate. exact E.
  - repeat split. discriminate.
Qed.

(** The facade after the calls of [initialize] listed, made one after
    the other, whether they threw or not. *)
Definition after_calls
    (init : MultiPaymentGateway.t -> string -> GatewayConfig ->
            MultiPaymentGateway.t * Completion bool)
    (calls : list (string * GatewayConfig)) (this : MultiPaymentGateway.t)
    : MultiPaymentGateway.t :=
  fold_left (fun this pc => fst (init this (fst pc) (snd pc))) calls this.

(** A new facade after the calls listed, with [initialize] as the second
    copy of [index.ts] has it, and as the first copy has it. *)
Definition facade_after (calls : list (string * GatewayConfig))
    : MultiPaymentGateway.t :=
  after_calls MultiPaymentGateway.initialize calls MultiPaymentGateway.new.

Definition facade_after_unimplemented (calls : list (string * GatewayConfig))
    : MultiPaymentGateway.t :=
  after_calls MultiPaymentGateway.initialize_unimplemented calls
    MultiPaymentGateway.new.

(** The configuration of the last call that asked for Paytech. *)
Definition last_paytech (calls : list (string * GatewayConfig))
    : option GatewayConfig :=
  option_map snd
    (find (fun pc => fst pc =? PROVIDER_PAYTECH) (rev calls)).

Lemma after_calls_last
    (init : MultiPaymentGateway.t -> string -> GatewayConfig ->
            MultiPaymentGateway.t * Completion bool)
    (calls : list (string * GatewayConfig)) (pc : string * GatewayConfig)
    (this : MultiPaymentGateway.t) :
  after_calls init (calls ++ [pc]) this
  = fst (init (after_calls init calls this) (fst pc) (snd pc)).
Proof.
  unfold after_calls. rewrite fold_left_app. reflexivity.
Qed.

Lemma after_calls_state (calls : list (string * GatewayConfig)) :
  MultiPaymentGateway.provider (facade_after calls)
  = option_map fst (hd_error (rev calls))
  /\ MultiPaymentGateway.gateway (facade_after calls)
     = option_map (fun c => fst (initialize new_PaytechGateway c))
         (last_paytech calls).
Proof.
  unfold facade_after.
  induction calls as [| [p c] calls [IHp IHg]] using rev_ind.
  - split; reflexivity.
  - rewrite after_calls_last. unfold last_paytech in *.
    rewrite rev_app_distr. cbn [rev app hd_error option_map find fst snd].
    unfold MultiPaymentGateway.initialize.
    destruct (p =? PROVIDER_PAYTECH) eqn:Ep.
    + split; reflexivity.
    + destruct (p =? PROVIDER_CINETPAY); [split; [reflexivity | exact IHg] |].
      destruct (p =? PROVIDER_MONEY_FUSION); split;
        try reflexivity; exact IHg.
Qed.

Lemma after_calls_unimplemented (calls : list (string * GatewayConfig)) :
  MultiPaymentGateway.gateway (facade_after_unimplemented calls) = None.
Proof.
  unfold facade_after_unimplemented.
  induction calls as [| [p c] calls IH] using rev_ind; [reflexivity |].
  rewrite after_calls_last.
  unfold MultiPaymentGateway.initialize_unimplemented.
  cbn [fst snd].
  destruct (p =? PROVIDER_PAYTECH); [exact IH |].
  destruct (p =? PROVIDER_CINETPAY); [exact IH |].
  destruct (p =? PROVIDER_MONEY_FUSION); exact IH.
Qed.

Section FacadeFacts.

Variable Number_toString : number -> string.
Variable JSON_stringify : JsValue -> Completion (option string).
Variable JSON_parse : string -> option JsValue.
Variable parseFloat : string -> number.
Variable createHmac_sha256_hex : string -> string -> string.
Variable client_get : string -> Headers -> Settled JsValue.
Variable client_post_payment :
  string -> PaytechPaymentRequest -> Headers -> Settled PaytechPaymentResponse.
Variable client_post_refund :
  string -> PaytechRefundRequest -> Headers -> Settled PaytechRefundResponse.

(** Every operation of the facade throws the facade's own error and
    sends nothing. *)
Definition unusable (this : MultiPaymentGateway.t) : Prop :=
  (forall now request sent,
     MultiPaymentGateway.createPayment Number_toString JSON_stringify
       client_post_payment this now request sent
     = (Throws facade_not_initialized, sent))
  /\ (forall paymentId sent,
        MultiPaymentGateway.verifyPayment client_get this paymentId sent
        = (Throws facade_not_initialized, sent))
  /\ (forall now paymentId amount sent,
        MultiPaymentGateway.refundPayment parseFloat client_post_refund
          this now paymentId amount sent
        = (Throws facade_not_initialized, sent))
  /\ (forall payload headers,
        MultiPaymentGateway.validateWebhook Number_toString
          createHmac_sha256_hex this payload headers
        = Throws facade_not_initialized)
  /\ (forall now payload,
        MultiPaymentGateway.processWebhook JSON_parse parseFloat this now
          payload
        = Throws facade_not_initialized).

Lemma no_gateway_unusable (this : MultiPaymentGateway.t) :
  MultiPaymentGateway.gateway this = None -> unusable this.
Proof.
  intros H.
  unfold unusable, MultiPaymentGateway.createPayment,
    MultiPaymentGateway.verifyPayment, MultiPaymentGateway.refundPayment,
    MultiPaymentGateway.validateWebhook, MultiPaymentGateway.processWebhook.
  rewrite H. repeat split.
Qed.

(** X21: a call of the facade's [initialize] resolves, to [true], exactly
    when it asks for Paytech.  After any calls, the provider reported is
    the one of the last call, even if that call threw, and the adapter in
    use is a Paytech adapter initialized with the configuration of the
    last call that asked for Paytech: a call that throws leaves the
    adapter of an earlier call in use. *)
Theorem facade_after_any_calls (calls : list (string * GatewayConfig)) :
  let this := facade_after calls in
  MultiPaymentGateway.getProvider this
  = option_map fst (hd_error (rev calls))
  /\ MultiPaymentGateway.gateway this
     = option_map (fun c => fst (initialize new_PaytechGateway c))
         (last_paytech calls)
  /\ forall p c,
       let next := MultiPaymentGateway.initialize this p c in
       (snd next = Returns true <-> p = PROVIDER_PAYTECH)
       /\ (p <> PROVIDER_PAYTECH ->
           (exists why, snd next = Throws why)
           /\ MultiPaymentGateway.gateway (fst next)
              = MultiPaymentGateway.gateway this
           /\ MultiPaymentGateway.getProvider (fst next) = Some p).
Proof.
  intros this. destruct (after_calls_state calls) as [Hp Hg].
  split; [exact Hp |]. split; [exact Hg |].
  intros p c next. subst next.
  unfold MultiPaymentGateway.initialize, MultiPaymentGateway.getProvider.
  destruct (p =? PROVIDER_PAYTECH) eqn:Ep.
  - apply String.eqb_eq in Ep.
    split; [split; [intros _; exact Ep | reflexivity] |].
    intros H. contradiction.
  - apply String.eqb_neq in Ep.
    assert (H : forall why : string,
                @Throws bool why = Returns true -> p = PROVIDER_PAYTECH)
      by (intros why E; discriminate E).
    destruct (p =? PROVIDER_CINETPAY);
      [| destruct (p =? PROVIDER_MONEY_FUSION)];
      (split; [split; [apply H | intros E; contradiction]
              | intros _; split; [eexists; reflexivity | split; reflexivity]]).
Qed.

(** X22: as long as no call of [initialize] asked for Paytech, every
    operation of the facade throws the facade's error and sends
    nothing. *)
Theorem facade_unusable_without_paytech
    (calls : list (string * GatewayConfig)) :
  (forall pc, In pc calls -> fst pc <> PROVIDER_PAYTECH) ->
  unusable (facade_after calls).
Proof.
  intros H. apply no_gateway_unusable.
  destruct (after_calls_state calls) as [_ ->].
  unfold last_paytech.
  destruct (find _ (rev calls)) as [pc |] eqn:E; [| reflexivity].
  apply find_some in E as [Hin Hp]. apply in_rev in Hin.
  apply String.eqb_eq in Hp. destruct (H pc Hin Hp).
Qed.

(** X23: with [initialize] as the first copy of [index.ts] has it, no
    calls make the facade usable: every call throws and every operation
    keeps throwing the facade's error. *)
Theorem facade_unimplemented_never_usable
    (calls : list (string * GatewayConfig)) :
  unusable (facade_after_unimplemented calls)
  /\ forall p c,
       exists why,
         snd (MultiPaymentGateway.initialize_unimplemented
                (facade_after_unimplemented calls) p c)
         = Throws why.
Proof.
  split.
  - apply no_gateway_unusable, after_calls_unimplemented.
  - intros p c. unfold MultiPaymentGateway.initialize_unimplemented.
    destruct (p =? PROVIDER_PAYTECH); [eexists; reflexivity |].
    destruct (p =? PROVIDER_CINETPAY); [eexists; reflexivity |].
    destruct (p =? PROVIDER_MONEY_FUSION); eexists; reflexivity.
Qed.

End FacadeFacts.

(* ================================================================== *)
(** * Further properties at concrete inputs *)
(* ================================================================== *)

Definition accepted_payment : PaytechPaymentResponse :=
  {| ppr_success := 1;
     ppr_redirect_url := Some "https://paytech.sn/payment/checkout/abc";
     ppr_token := Some "payment-123";
     ppr_error := None |}.

Definition config_without_secret : GatewayConfig :=
  {| gc_apiKey := "test_api_key"; gc_apiSecret := "test_api_secret";
     gc_environment := env_test;
     gc_webhookSecret := None;
     gc_additionalConfig := None |}.

Lemma complete_payload_well_formed : well_formed complete_payload.
Proof.
  split; [reflexivity |].
  intros field Hin. cbn in Hin.
  repeat (destruct Hin as [<- | Hin]; [reflexivity |]). destruct Hin.
Qed.

Lemma createPayment_rejects_before_network_witness :
  initialized initialized_gateway = true
  /\ createPayment number_toString JSON_stringify_model
       (fun _ _ _ => Resolved accepted_payment) initialized_gateway 0
       invalid_request_example []
     = (Throws "Invalid payment request: missing required fields", []).
Proof.
  split; [reflexivity |].
  apply (createPayment_rejects_before_network number_toString
           JSON_stringify_model
           (fun _ _ _ => Resolved accepted_payment) initialized_gateway 0
           invalid_request_example [] eq_refl).
  left. reflexivity.
Defined.

Lemma createPayment_result_shape_witness :
  fst (createPayment number_toString JSON_stringify_model
         (fun _ _ _ => Resolved accepted_payment) initialized_gateway 0
         payment_request_example [])
  = Returns (mapFromPaytechResponse 0 accepted_payment)
  /\ pr_success (mapFromPaytechResponse 0 accepted_payment) = true.
Proof.
  split; [reflexivity |].
  destruct (createPayment_result_shape number_toString JSON_stringify_model
              (fun _ _ _ => Resolved accepted_payment) initialized_gateway 0
              payment_request_example []
              (mapFromPaytechResponse 0 accepted_payment) eq_refl)
    as [[H _] | [H _]]; [exact H | discriminate H].
Defined.

Lemma refundPayment_result_shape_witness :
  fst (refundPayment parseFloat_model (fun _ _ _ => Rejected network_down)
         initialized_gateway 0 "payment-123" None [])
  = Returns (failed_refund 0 "Refund request failed: Network error")
  /\ rr_amount (failed_refund 0 "Refund request failed: Network error") = None.
Proof.
  split; [reflexivity |].
  destruct (refundPayment_result_shape parseFloat_model
              (fun _ _ _ => Rejected network_down) initialized_gateway 0
              "payment-123" None []
              (failed_refund 0 "Refund request failed: Network error")
              eq_refl)
    as [[H _] | (_ & _ & H & _)]; [discriminate H | exact H].
Defined.

Lemma refundPayment_negative_amount_witness :
  exists r,
    refundPayment parseFloat_model (fun _ _ _ => Resolved refund_example)
      initialized_gateway 0 "payment-123" (Some (Num (-5))) []
    = (Returns r,
       ([] ++ [HttpPostRefund REFUND (refund_body "payment-123" None)
                 (getHeaders initialized_gateway)])%list)
    /\ rr_success r = true
    /\ rr_amount r = Some (Num (-5)).
Proof.
  apply (refundPayment_negative_amount parseFloat_model
           (fun _ _ _ => Resolved refund_example) initialized_gateway 0
           "payment-123" (-5)%Z [] refund_example).
  - reflexivity.
  - discriminate.
  - lia.
  - reflexivity.
  - reflexivity.
Defined.

Lemma refundPayment_request_witness :
  exists body,
    snd (refundPayment parseFloat_model (fun _ _ _ => Resolved refund_example)
           initialized_gateway 0 "payment-123" (Some (Num 2000)) [])
    = ([] ++ [HttpPostRefund REFUND body (getHeaders initialized_gateway)])%list
    /\ rq_token body = "payment-123"
    /\ (forall a, rq_amount body = Some a <->
                  Some (Num 2000) = Some a /\ number_gt a (Num 0) = true).
Proof.
  apply (refundPayment_request parseFloat_model
           (fun _ _ _ => Resolved refund_example) initialized_gateway 0
           "payment-123" (Some (Num 2000)) []).
  - reflexivity.
  - discriminate.
Defined.

Lemma verifyPayment_throws_iff_witness :
  (exists m,
     fst (verifyPayment (fun _ _ => Resolved VNull) initialized_gateway
            "payment-123" [])
     = Throws m)
  /\ ~ (exists m,
          fst (verifyPayment (fun _ _ => Rejected not_found)
                 initialized_gateway "payment-123" [])
          = Throws m).
Proof.
  split.
  - apply (verifyPayment_throws_iff (fun _ _ => Resolved VNull)
             initialized_gateway "payment-123" [] eq_refl);
      [discriminate |].
    right. exists VNull. split; [reflexivity |]. right. left. reflexivity.
  - intros H.
    apply (verifyPayment_throws_iff (fun _ _ => Rejected not_found)
             initialized_gateway "payment-123" [] eq_refl) in H;
      [| discriminate].
    destruct H as [(error & E & Hn) | (body & E & _)]; [| discriminate E].
    injection E as <-.
    apply Hn. split; [reflexivity |].
    eexists. split; reflexivity.
Defined.

Lemma operations_send_at_most_once_with_credentials_witness :
  let after :=
    snd (createPayment number_toString JSON_stringify_model
           (fun _ _ _ => Rejected network_down)
           (fst (initialize new_PaytechGateway example_config)) 0
           payment_request_example []) in
  after = []
  \/ exists call,
       after = ([] ++ [call])%list
       /\ assoc "API_KEY" (call_headers call) = Some "test_api_key"
       /\ assoc "API_SECRET" (call_headers call) = Some "test_api_secret"
       /\ assoc "Content-Type" (call_headers call) = Some "application/json".
Proof.
  intros after.
  apply (operations_send_at_most_once_with_credentials number_toString
           JSON_stringify_model parseFloat_model
           (fun _ _ => Rejected network_down)
           (fun _ _ _ => Rejected network_down)
           (fun _ _ _ => Rejected network_down)
           new_PaytechGateway example_config 0 payment_request_example
           "payment-123" None [] after).
  left. reflexivity.
Defined.

Lemma validateWebhook_without_secret_witness :
  opt_truthy (gc_webhookSecret config_without_secret) = false
  /\ exists verdict,
       validateWebhook number_toString createHmac_sha256_hex_model
         (fst (initialize new_PaytechGateway config_without_secret))
         complete_payload [("x-paytech-signature", "forged")]
       = Returns verdict
       /\ isValid verdict = true.
Proof.
  split; [reflexivity |].
  destruct (validateWebhook_without_secret number_toString
              createHmac_sha256_hex_model new_PaytechGateway
              config_without_secret complete_payload
              [("x-paytech-signature", "forged")] eq_refl)
    as [(verdict & E & H) _].
  exists verdict. split; [exact E |].
  apply H. exact complete_payload_well_formed.
Defined.

Definition complete_props : list (string * JsValue) :=
  [("token", VStr "payment-123"); ("ref_command", VStr "order-123");
   ("type", VStr "payment_success"); ("status", VStr "completed")].

Lemma validation_ignores_key_order_witness :
  createWebhookSignature number_toString createHmac_sha256_hex_model
    (VObj complete_props)
    "test_webhook_secret"
  = createWebhookSignature number_toString createHmac_sha256_hex_model
      (VObj (rev complete_props)) "test_webhook_secret"
  /\ validatePaytechWebhook number_toString createHmac_sha256_hex_model
       (VObj complete_props)
       [("x-paytech-signature", good_signature)] (Some "test_webhook_secret")
     = validatePaytechWebhook number_toString createHmac_sha256_hex_model
         (VObj (rev complete_props))
         [("x-paytech-signature", good_signature)]
         (Some "test_webhook_secret").
Proof.
  apply validation_ignores_key_order.
  - repeat (constructor; [cbn; intuition discriminate |]). constructor.
  - apply Permutation_rev.
Defined.

Definition with_customer (email : string) : list (string * JsValue) :=
  (complete_props
   ++ [("customer_info", VObj [("email", VStr email)])])%list.

Lemma validation_ignores_nested_objects_witness :
  createWebhookSignature number_toString createHmac_sha256_hex_model
    (VObj (with_customer "buyer@example.sn")) "test_webhook_secret"
  = createWebhookSignature number_toString createHmac_sha256_hex_model
      (VObj (with_customer "other@example.sn")) "test_webhook_secret"
  /\ validatePaytechWebhook number_toString createHmac_sha256_hex_model
       (VObj (with_customer "buyer@example.sn")) [] None
     = validatePaytechWebhook number_toString createHmac_sha256_hex_model
         (VObj (with_customer "other@example.sn")) [] None.
Proof.
  apply validation_ignores_nested_objects.
  repeat (constructor; [split; [reflexivity | left; reflexivity] |]).
  constructor; [| constructor].
  split; [reflexivity |]. right. eexists. eexists.
  repeat split; reflexivity.
Defined.

Lemma signed_payload_is_accepted_witness :
  validatePaytechWebhook number_toString createHmac_sha256_hex_model
    complete_payload [("X-Paytech-Signature", good_signature)]
    (Some "test_webhook_secret")
  = Returns valid
  /\ validatePaytechWebhook number_toString createHmac_sha256_hex_model
       unprintable_payload [("X-Paytech-Signature", good_signature)]
       (Some "test_webhook_secret")
     = Throws cannot_convert.
Proof.
  assert (Hu : well_formed unprintable_payload).
  { split; [reflexivity |].
    intros field Hin. cbn in Hin.
    repeat (destruct Hin as [<- | Hin]; [reflexivity |]). destruct Hin. }
  assert (Hn : "test_webhook_secret" <> "") by discriminate.
  assert (Hg : good_signature <> "") by (vm_compute; discriminate).
  assert (Hi : In "X-Paytech-Signature" signature_headers)
    by (right; left; reflexivity).
  split.
  - exact (signed_payload_is_accepted number_toString
             createHmac_sha256_hex_model complete_payload
             "test_webhook_secret" "X-Paytech-Signature" good_signature
             complete_payload_well_formed Hn Hi Hg Hg).
  - exact (signed_payload_is_accepted number_toString
             createHmac_sha256_hex_model unprintable_payload
             "test_webhook_secret" "X-Paytech-Signature" good_signature
             Hu Hn Hi Hg).
Defined.

Lemma signature_does_not_delimit_fields_witness :
  createWebhookSignature number_toString createHmac_sha256_hex_model
    (VObj ([] ++ [("ref_command",
                   VStr ("order-1" ++ "&" ++ "token" ++ "=" ++ "payment-9"))]))
    "test_webhook_secret"
  = createWebhookSignature number_toString createHmac_sha256_hex_model
      (VObj ([] ++ [("ref_command", VStr "order-1");
                    ("token", VStr "payment-9")]))
      "test_webhook_secret".
Proof.
  apply signature_does_not_delimit_fields.
  repeat constructor.
Defined.

Lemma generateReference_format_witness :
  exists random,
    generateReference 1700000000000 42 None
    = "PAY" ++ "-" ++ number_toString (Num 1700000000000) ++ "-" ++ random
    /\ String.length random = 6%nat
    /\ all_digits random = true
    /\ numeral_value random = Some 42%N.
Proof.
  apply (generateReference_format 1700000000000 42 None). lia.
Defined.

Lemma generateReference_injective_witness :
  generateReference 1700000000000 42 (Some "ORDER")
  <> generateReference 1700000000000 43 (Some "ORDER").
Proof.
  intros E.
  apply (generateReference_injective 1700000000000 1700000000000 42 43
           (Some "ORDER")) in E; [| lia | lia].
  destruct E as [_ E]. discriminate E.
Defined.

Lemma isValidPaytechCurrency_ignores_case_witness :
  isValidPaytechCurrency "xof" = isValidPaytechCurrency "XoF"
  /\ isValidPaytechCurrency (toUpperCase "xof") = isValidPaytechCurrency "xof"
  /\ isValidPaytechCurrency (toLowerCase "xof") = isValidPaytechCurrency "xof".
Proof.
  apply isValidPaytechCurrency_ignores_case. reflexivity.
Defined.

Definition completed_status : PaytechStatusResponse :=
  {| psr_success := 1; psr_status := Some "completed"; psr_error := None;
     psr_ref_command := None; psr_amount := None; psr_currency := None;
     psr_date := None; psr_transaction_id := None;
     psr_customer_info := None |}.

Lemma webhook_status_agrees_with_polling_witness :
  ev_status
    (ev_data (mapFromPaytechWebhook JSON_parse_model parseFloat_model 0
                (webhook_example "payment_success" None)))
  = mapPaytechStatus completed_status.
Proof.
  apply webhook_status_agrees_with_polling.
  - discriminate.
  - reflexivity.
Defined.

Definition order_metadata : list (string * JsValue) :=
  [("orderId", VStr "A-1"); ("items", VArr [VNum (Num 1); VNum (Num 2)])].

(** The text of that metadata. *)
Definition order_metadata_text : string :=
  Eval cbv in text_of (VObj order_metadata).

Lemma metadata_reaches_the_webhook_event_witness :
  ev_metadata
    (ev_data
       (mapFromPaytechWebhook JSON_parse_model parseFloat_model 0
          (webhook_example "payment_success" (Some order_metadata_text))))
  = VObj order_metadata.
Proof.
  destruct (metadata_reaches_the_webhook_event number_toString
              JSON_stringify_model JSON_parse_model parseFloat_model
              (request_with_metadata order_metadata) env_test order_metadata
              order_metadata_text 0
              (webhook_example "payment_success" (Some order_metadata_text))
              eq_refl eq_refl)
    as (wire & _ & Hc & H); [discriminate |].
  rewrite Hc in H. destruct (H eq_refl) as (Hp & _).
  apply Hp. reflexivity.
Defined.

Lemma facade_unusable_without_paytech_witness :
  MultiPaymentGateway.verifyPayment (fun _ _ => Rejected network_down)
    (facade_after
       [("cinetpay", example_config); ("stripe", example_config)])
    "payment-123" []
  = (Throws facade_not_initialized, []).
Proof.
  destruct (facade_unusable_without_paytech number_toString
              JSON_stringify_model JSON_parse_model parseFloat_model
              createHmac_sha256_hex_model
              (fun _ _ => Rejected network_down)
              (fun _ _ _ => Rejected network_down)
              (fun _ _ _ => Rejected network_down)
              [("cinetpay", example_config); ("stripe", example_config)])
    as (_ & H & _).
  - intros pc [<- | [<- | []]]; discriminate.
  - apply H.
Defined.

(* ================================================================== *)
(** * The repository's tests, replayed on the embedding *)
(* ================================================================== *)

(** The cases of [PaytechGateway.test.ts], with the mocked client as the
    network. *)

Definition test_request : PaymentRequest :=
  {| amount := Num 5000; currency := "XOF"; reference := "order-123";
     description := "Test payment";
     customerEmail := Some "test@example.com";
     customerName := Some "Test User"; customerPhone := None;
     metadata := Some [("orderId", VStr "123")];
     returnUrl := Some "https://example.com/success";
     cancelUrl := Some "https://example.com/cancel";
     webhookUrl := Some "https://example.com/webhook" |}.

Definition created : PaytechPaymentResponse :=
  {| ppr_success := 1;
     ppr_redirect_url := Some "https://paytech.sn/payment/checkout/abc123";
     ppr_token := Some "abc123"; ppr_error := None |}.

Definition bad_request : JsError :=
  {| isAxiosError := true; instanceofError := false; message := None;
     response :=
       Some {| status := 400;
               data := Some {| data_error := Some "Bad request" |} |} |}.

Example test_create_payment_successfully :
  let (completion, sent) :=
    createPayment number_toString JSON_stringify_model
      (fun _ _ _ => Resolved created)
      initialized_gateway 0 test_request [] in
  completion
  = Returns {| pr_success := true;
               pr_redirectUrl :=
                 Some "https://paytech.sn/payment/checkout/abc123";
               pr_paymentId := Some "abc123"; pr_token := Some "abc123";
               pr_message := None; pr_status := Some PENDING;
               pr_createdAt := Some (DateNow 0) |}
  /\ exists body headers,
       sent = [HttpPostPayment "/payment/request-payment" body headers]
       /\ item_name body = "Test payment" /\ item_price body = "5000"
       /\ req_currency body = "XOF" /\ ref_command body = "order-123"
       /\ env body = PAYTECH_TEST.
Proof. cbv. split; [reflexivity |]. eexists _, _. repeat split. Qed.

Example test_create_payment_network_error :
  fst (createPayment number_toString JSON_stringify_model
         (fun _ _ _ => Rejected network_down) initialized_gateway 0
         test_request [])
  = Returns (failed_payment 0 "Payment request failed: Network error").
Proof. reflexivity. Qed.

Example test_create_payment_api_error :
  fst (createPayment number_toString JSON_stringify_model
         (fun _ _ _ => Rejected bad_request) initialized_gateway 0
         test_request [])
  = Returns (failed_payment 0 "Bad request").
Proof. reflexivity. Qed.

Example test_create_payment_invalid_request :
  createPayment number_toString JSON_stringify_model
    (fun _ _ _ => Resolved created)
    initialized_gateway 0 invalid_request_example []
  = (Throws "Invalid payment request: missing required fields", []).
Proof. reflexivity. Qed.

Example test_create_payment_invalid_amount :
  createPayment number_toString JSON_stringify_model
    (fun _ _ _ => Resolved created)
    initialized_gateway 0
    {| amount := Num 0; currency := "XOF"; reference := "order-123";
       description := "Test payment"; customerEmail := None;
       customerName := None; customerPhone := None; metadata := None;
       returnUrl := None; cancelUrl := None; webhookUrl := None |} []
  = (Throws "Invalid amount", []).
Proof. reflexivity. Qed.

Example test_create_payment_unsupported_currency :
  createPayment number_toString JSON_stringify_model
    (fun _ _ _ => Resolved created)
    initialized_gateway 0
    {| amount := Num 5000; currency := "INVALID"; reference := "order-123";
       description := "Test payment"; customerEmail := None;
       customerName := None; customerPhone := None; metadata := None;
       returnUrl := None; cancelUrl := None; webhookUrl := None |} []
  = (Throws "Unsupported currency: INVALID", []).
Proof. reflexivity. Qed.

Definition status_of (s : string) : PaytechStatusResponse :=
  {| psr_success := 1; psr_status := Some s; psr_error := None;
     psr_ref_command := Some "order-123"; psr_amount := Some "5000";
     psr_currency := Some "XOF"; psr_date := None;
     psr_transaction_id := None; psr_customer_info := None |}.

Example test_verify_payment :
  fst (verifyPayment (fun _ _ => Resolved (status_body (status_of "completed")))
         initialized_gateway "payment-123" [])
  = Returns COMPLETED
  /\ fst (verifyPayment
            (fun _ _ => Resolved (status_body (status_of "pending")))
            initialized_gateway "payment-123" [])
     = Returns PENDING
  /\ verifyPayment (fun _ _ => Resolved (status_body (status_of "pending")))
       initialized_gateway "" []
     = (Throws "Payment ID is required", []).
Proof. repeat split. Qed.

Example test_partial_refund :
  refundPayment parseFloat_model
    (fun _ _ _ =>
       Resolved {| prr_success := 1; prr_refund_id := Some "refund-123";
                   prr_amount := Some "2000"; prr_error := None;
                   prr_status := Some "refunded"; prr_date := None |})
    initialized_gateway 0 "payment-123" (Some (Num 2000)) []
  = (Returns {| rr_success := true; rr_refundId := Some "refund-123";
                rr_amount := Some (Num 2000); rr_message := None;
                rr_status := Some REFUNDED;
                rr_createdAt := Some (DateNow 0) |},
     [HttpPostRefund "/payment/refund"
        {| rq_token := "payment-123"; rq_amount := Some (Num 2000);
           rq_reason := None |}
        (getHeaders initialized_gateway)]).
Proof. reflexivity. Qed.

Example test_failed_refund :
  fst (refundPayment parseFloat_model
         (fun _ _ _ =>
            Resolved {| prr_success := 0; prr_refund_id := None;
                        prr_amount := None;
                        prr_error := Some "Payment already refunded";
                        prr_status := None; prr_date := None |})
         initialized_gateway 0 "payment-123" None [])
  = Returns (failed_refund 0 "Payment already refunded").
Proof. reflexivity. Qed.

Example test_webhook_missing_fields :
  validateWebhook number_toString createHmac_sha256_hex_model
    initialized_gateway (VObj [("ref_command", VStr "order-123")]) []
  = Returns (invalid "Missing required field: token").
Proof. reflexivity. Qed.

Definition order_text : string :=
  Eval cbv in text_of (VObj [("orderId", VStr "123")]).

Example test_process_webhook :
  processWebhook JSON_parse_model parseFloat_model 0
    (Some {| wh_type := "payment_success"; wh_token := "payment-123";
             wh_ref_command := "order-123"; wh_amount := "5000";
             wh_currency := "XOF"; wh_status := "completed";
             wh_date := "2023-01-01T12:00:00Z";
             wh_transaction_id := "txn-123";
             wh_custom_field := Some order_text;
             wh_customer_info :=
               Some {| ci_name := Some "Test User";
                       ci_email := Some "test@example.com";
                       ci_phone := Some "+1234567890" |} |})
  = Returns
      {| ev_type := PAYMENT_SUCCESS;
         ev_data :=
           {| ev_reference := "order-123";
              ev_paymentId := Some "payment-123";
              ev_amount := Some (Num 5000);
              ev_currency := Some "XOF";
              ev_status := COMPLETED;
              ev_gatewayReference := Some "txn-123";
              ev_metadata := VObj [("orderId", VStr "123")];
              ev_customerEmail := Some "test@example.com";
              ev_customerName := Some "Test User";
              ev_customerPhone := Some "+1234567890" |};
         ev_createdAt := DateParse "2023-01-01T12:00:00Z";
         ev_gatewayName := "paytech" |}
  /\ processWebhook JSON_parse_model parseFloat_model 0 None
     = Throws "Invalid webhook payload".
Proof. split; reflexivity. Qed.
